(** * Excel-score-query: the data matching engine, its validator and statistics

    A shallow embedding of
      - services/fast_data_matcher.py          (Module Fast)
      - services/configurable_data_matcher.py  (Module Configurable)
      - services/data_matcher.py               (Module Legacy)
      - services/data_validator.py             (Module Validator)
      - services/processing_engine.py          (Module Engine)

    Conventions of the embedding.
      - A Python [str] is a [string] holding its UTF-8 bytes. Whitespace
        is Python's: the 29 code points of [str.isspace], which [strip]
        and [\s] of [re] use. The case mapping and the digit test are the
        ASCII ones on ASCII text; on any other text they are parameters
        ([unicode_lower], [unicode_isdigit]), the tables of the
        interpreter not being part of the program.
      - A pandas cell is [NaN], [NoneV] or a string [Str s]; the matchers
        look at a cell only through [pd.notna] and [str()], so a numeric
        cell is represented by [Str] of its printed form.
      - A DataFrame has its columns, its row labels and its rows; a row
        is the dict that [to_dict('records')] gives, a cell missing from
        it is NaN. [frame] builds the frame with the default labels
        0..n-1. Row labels are natural numbers and pairwise different, as
        [read_excel] and [dropna] leave them; the label-aligned operations
        ([&] of two Series, [df[mask]]) are those of pandas 1.x and 2.x.
      - Python dicts are [gmap]s; the column mapping, whose iteration
        order matters, is an association list in insertion order.
      - The order in which Python lists a set ([list(s)]) is a parameter
        ([set_order]).
      - A raised exception is the [Raise] case of [outcome]. *)

From Stdlib Require Import String Ascii ZArith NArith Floats List Sorted.
From stdpp Require Import base option list gmap strings sorting.

Local Open Scope string_scope.
Local Open Scope list_scope.
Local Open Scope nat_scope.

Set Warnings "-inexact-float".

(** ** Python strings *)

Module PyStr.

(** the UTF-8 bytes of the character with code point [c] *)
Definition utf8 (c : N) : string :=
  let b (n : N) := ascii_of_N n in
  (if c <? 128 then String (b c) ""
   else if c <? 2048 then
     String (b (192 + c / 64)) (String (b (128 + c mod 64)) "")
   else if c <? 65536 then
     String (b (224 + c / 4096))
       (String (b (128 + (c / 64) mod 64)) (String (b (128 + c mod 64)) ""))
   else
     String (b (240 + c / 262144))
       (String (b (128 + (c / 4096) mod 64))
          (String (b (128 + (c / 64) mod 64)) (String (b (128 + c mod 64)) ""))))%N.

(** the code points for which [str.isspace] holds: TAB..CR, FS..US, the
    blank, NEL, the no-break space, the Ogham space mark, U+2000..U+200A,
    the line and paragraph separators, U+202F, U+205F and the
    ideographic space U+3000 *)
Definition whitespace : list N :=
  [9; 10; 11; 12; 13; 28; 29; 30; 31; 32; 133; 160; 5760;
   8192; 8193; 8194; 8195; 8196; 8197; 8198; 8199; 8200; 8201; 8202;
   8232; 8233; 8239; 8287; 12288]%N.

(** a byte 10xxxxxx, which continues a character *)
Definition is_continuation (a : ascii) : bool :=
  let n := nat_of_ascii a in Nat.leb 128 n && Nat.ltb n 192.

(** the text starts in the middle of a character *)
Definition starts_inside (s : string) : bool :=
  match s with
  | String b _ => is_continuation b
  | EmptyString => false
  end.

(** the characters of a text, each as its bytes *)
Fixpoint chars (s : string) : list string :=
  match s with
  | EmptyString => []
  | String a r =>
      match chars r with
      | c :: cs => if starts_inside r then String a c :: cs else String a "" :: c :: cs
      | [] => [String a ""]
      end
  end.

(** [c.isspace()] for one character *)
Definition is_space (c : string) : bool :=
  existsb (String.eqb c) (utf8 <$> whitespace).

(** the characters from the first one that is not whitespace *)
Fixpoint drop_spaces (cs : list string) : list string :=
  match cs with
  | c :: cs' => if is_space c then drop_spaces cs' else cs
  | [] => []
  end.

(** the characters put together again *)
Definition join (cs : list string) : string := fold_right String.append "" cs.

(** [s.strip()] *)
Definition strip (s : string) : string :=
  join (reverse (drop_spaces (reverse (drop_spaces (chars s))))).

(** [re.sub(r'\s+', '', s)] *)
Definition remove_spaces (s : string) : string :=
  join (filter (fun c => is_space c = false) (chars s)).

Fixpoint is_ascii (s : string) : bool :=
  match s with
  | EmptyString => true
  | String a r => Nat.ltb (nat_of_ascii a) 128 && is_ascii r
  end.

Definition lower_ascii (a : ascii) : ascii :=
  let n := nat_of_ascii a in
  if Nat.leb 65 n && Nat.leb n 90 then ascii_of_nat (n + 32)%nat else a.

Fixpoint lower_ascii_text (s : string) : string :=
  match s with
  | EmptyString => EmptyString
  | String a r => String (lower_ascii a) (lower_ascii_text r)
  end.

Section Case.

(** [s.lower()] on a text with a character outside ASCII *)
Variable unicode_lower : string -> string.

(** [s.lower()] *)
Definition lower (s : string) : string :=
  if is_ascii s then lower_ascii_text s else unicode_lower s.

End Case.

Fixpoint starts_with (p s : string) : bool :=
  match p, s with
  | EmptyString, _ => true
  | String a p', String b s' => if Ascii.eqb a b then starts_with p' s' else false
  | String _ _, EmptyString => false
  end.

(** [p in s] on strings *)
Fixpoint contains (p s : string) : bool :=
  starts_with p s ||
  match s with
  | EmptyString => false
  | String _ s' => contains p s'
  end.

(** truthiness of a string: [if s:] *)
Definition truthy (s : string) : bool := negb (String.eqb s "").

End PyStr.

(** ** Cells, rows and frames *)

Inductive cell : Type :=
  | NaN
  | NoneV
  | Str (s : string).

#[global] Instance cell_eq_dec : EqDecision cell.
Proof. solve_decision. Defined.

(** [pd.notna(v)] *)
Definition notna (c : cell) : bool :=
  match c with
  | Str _ => true
  | _ => false
  end.

(** [str(v)] *)
Definition py_str (c : cell) : string :=
  match c with
  | NaN => "nan"
  | NoneV => "None"
  | Str s => s
  end.

Abbreviation row := (gmap string cell).

(** the columns, the row labels ([df.index]) and the rows of a frame;
    there are as many labels as rows *)
Record DataFrame : Type := mkFrame {
  columns : list string;
  index : list nat;
  rows : list row
}.

(** the frame [pd.DataFrame(...)] and [pd.read_excel] build: the rows are
    labelled 0..n-1 *)
Definition frame (columns : list string) (rows : list row) : DataFrame :=
  mkFrame columns (seq 0 (length rows)) rows.

(** the cell of a row under a column *)
Definition cell_at (r : row) (c : string) : cell := default NaN (r !! c).

(** [df[c]] as the list of its cells, in row order *)
Definition column (df : DataFrame) (c : string) : list cell :=
  map (fun r => cell_at r c) (rows df).

(** [c in df.columns] *)
Definition has_column (df : DataFrame) (c : string) : bool :=
  bool_decide (c ∈ columns df).

(** the column mapping {position column: candidate column}, in insertion order *)
Abbreviation mapping := (list (string * string)).

(** the exceptions the modelled code raises or lets through *)
Inductive exn : Type :=
  | KeyError (key : string)
  | IndexError
  | IndexingError
  | TypeError
  | ValueError
  | OverflowError
  | AttributeError
  | ValidationError (why : string)
  | DataMatchingError (cause : exn)
  | ConfigurableDataMatchingError (why : config_error)
with config_error : Type :=
  | EmptyMappings
  | InvalidMapping (pos_col int_col : string)
  | MissingPositionColumns (cols : list string)
  | MissingInterviewColumns (cols : list string)
  | MatchingFailed (cause : exn).

Inductive outcome (A : Type) : Type :=
  | Return (a : A)
  | Raise (e : exn).
Arguments Return {A} a.
Arguments Raise {A} e.

#[global] Instance outcome_bind : MBind outcome := fun A B f x =>
  match x with
  | Return a => f a
  | Raise e => Raise e
  end.

(** the Series of a frame row: every column of the frame, and nothing else *)
Definition series_of (df : DataFrame) (r : row) : row :=
  list_to_map ((fun c => (c, cell_at r c)) <$> columns df).

(** [df.iterrows()] and [df.to_dict('records')], row by row *)
Definition records (df : DataFrame) : list row := series_of df <$> rows df.

(** ** services/fast_data_matcher.py *)

Module Fast.

Abbreviation col_index := (gmap string (list nat)).
(** [self.interview_indices] *)
Abbreviation indices := (gmap string (gmap string (list nat))).

(** FastMatchResult *)
Record FastMatchResult : Type := mkFastResult {
  position_row : row;
  interview_rows : list row;
  match_score : float;
  matched : bool
}.

(** [str(value).strip() if pd.notna(value) else ""] *)
Definition str_value (v : cell) : string :=
  if notna v then PyStr.strip (py_str v) else "".

(** one turn of the loop over [enumerate(interview_df[int_col])] *)
Definition index_add (idx : col_index) (i : nat) (v : cell) : col_index :=
  let k := str_value v in
  if PyStr.truthy k then <[k := default [] (idx !! k) ++ [i]]> idx else idx.

Fixpoint index_from (i : nat) (col : list cell) (idx : col_index) : col_index :=
  match col with
  | [] => idx
  | v :: col' => index_from (S i) col' (index_add idx i v)
  end.

(** the index of one column, filled from the empty dict *)
Definition index_column (col : list cell) : col_index := index_from 0 col ∅.

(** [build_indices(interview_df)], on the store [st] *)
Definition build_indices (m : mapping) (df : DataFrame) (st : indices) : indices :=
  fold_left
    (fun st '(_, int_col) =>
       if has_column df int_col
       then <[int_col := index_column (column df int_col)]> st
       else st)
    m st.

(** [clear_indices()] *)
Definition clear_indices (st : indices) : indices := ∅.

(** [str(pos_row.get(pos_col, '')).strip()] *)
Definition pos_value (pos_row : row) (pos_col : string) : string :=
  PyStr.strip (py_str (default (Str "") (pos_row !! pos_col))).

(** [not pos_value or pos_value == 'nan'] *)
Definition skipped (pv : string) : bool :=
  negb (PyStr.truthy pv) || String.eqb pv "nan".

(** the loop of [_match_single_position_fast] from the state
    [candidate_indices = cand]; a Python set of row positions is a [gset nat] *)
Fixpoint narrow (st : indices) (pos_row : row) (m : mapping)
    (cand : option (gset nat)) : option (gset nat) :=
  match m with
  | [] => cand
  | (pos_col, int_col) :: m' =>
      let pv := pos_value pos_row pos_col in
      if skipped pv then narrow st pos_row m' cand
      else
        match st !! int_col with
        | None => narrow st pos_row m' cand
        | Some idx =>
            let col_indices : gset nat := list_to_set (default [] (idx !! pv)) in
            let cand' :=
              match cand with
              | None => col_indices
              | Some c => c ∩ col_indices
              end in
            if bool_decide (cand' = ∅) then Some cand'   (* break *)
            else narrow st pos_row m' (Some cand')
        end
  end.

(** [interview_df.iloc[l].to_dict('records')]: a position past the last
    row raises IndexError *)
Fixpoint iloc (df : DataFrame) (l : list nat) : outcome (list row) :=
  match l with
  | [] => Return []
  | i :: l' =>
      match records df !! i with
      | None => Raise IndexError
      | Some r => rs ← iloc df l'; Return (r :: rs)
      end
  end.

Section Order.

(** [list(candidate_indices)]: the order in which Python lists a set *)
Variable set_order : gset nat -> list nat.

(** [_match_single_position_fast(pos_row, interview_df)] *)
Definition match_single_position_fast (st : indices) (m : mapping)
    (pos_row : row) (df : DataFrame) : outcome FastMatchResult :=
  match narrow st pos_row m None with
  | Some c =>
      if bool_decide (c = ∅)
      then Return (mkFastResult pos_row [] 0 false)
      else rs ← iloc df (set_order c); Return (mkFastResult pos_row rs 1 true)
  | None => Return (mkFastResult pos_row [] 0 false)
  end.

(** [position_df.iloc[start_idx:end_idx]] for batch [b] of size [n] *)
Definition batch {A : Type} (n : nat) (l : list A) (b : nat) : list A :=
  take n (drop (b * n) l).

(** the rows in the order the two nested loops visit them *)
Definition batched {A : Type} (n : nat) (l : list A) : list A :=
  let total_batches := (length l + n - 1) / n in
  flat_map (batch n l) (seq 0 total_batches).

Fixpoint match_rows (st : indices) (m : mapping) (df : DataFrame)
    (ps : list row) : outcome (list FastMatchResult) :=
  match ps with
  | [] => Return []
  | p :: ps' =>
      r ← match_single_position_fast st m p df;
      rs ← match_rows st m df ps';
      Return (r :: rs)
  end.

(** the counts of the returned 'statistics' dict *)
Record statistics : Type := mkStats {
  total_positions : nat;
  matched_positions : nat;
  unmatched_positions : nat;
  total_candidates : nat
}.

Definition statistics_of (n : nat) (rs : list FastMatchResult) : statistics :=
  let matched_count := length (filter (fun r => matched r = true) rs) in
  mkStats n matched_count (n - matched_count)
    (sum_list (map (fun r => length (interview_rows r))
                   (filter (fun r => matched r = true) rs))).

(** [match_data_fast(position_df, interview_df)] on the store [st]:
    the store it leaves and what it returns *)
Definition match_data_fast (st : indices) (m : mapping)
    (position_df interview_df : DataFrame)
    : indices * outcome (list FastMatchResult * statistics) :=
  let st' := if bool_decide (st = ∅) then build_indices m interview_df st else st in
  (st',
   rs ← match_rows st' m interview_df (batched 50 (records position_df));
   Return (rs, statistics_of (length (rows position_df)) rs)).

End Order.

End Fast.

(** ** services/configurable_data_matcher.py *)

Module Configurable.

(** one entry of [exact_match_details] *)
Record condition_detail : Type := mkDetail {
  target_value : string;
  matches_found : nat;
  cumulative_matches : nat
}.

(** the shapes of [match_details] *)
Inductive match_details : Type :=
  | NoConditions                                        (* {'no_conditions': ...} *)
  | NoMatch (conditions_checked : nat)
            (match_conditions : list (string * string)) (* {'no_match': ...} *)
  | ExactDetails (d : gmap string condition_detail)    (* exact_match_details *)
  | ErrorDetails (e : exn).                             (* {'error': str(e)} *)

(** ConfigurableMatchResult *)
Record ConfigurableMatchResult : Type := mkResult {
  position_row : row;
  interview_rows : list row;
  match_score : float;
  details : match_details;
  matched : bool
}.

Record matcher : Type := mkMatcher {
  column_mappings : mapping;
  fuzzy_threshold : float;
  match_results : list ConfigurableMatchResult
}.

(** [_validate_column_mappings()] *)
Fixpoint validate_entries (m : mapping) : outcome unit :=
  match m with
  | [] => Return tt
  | (pos_col, int_col) :: m' =>
      if negb (PyStr.truthy pos_col) || negb (PyStr.truthy int_col)
      then Raise (ConfigurableDataMatchingError (InvalidMapping pos_col int_col))
      else validate_entries m'
  end.

Definition validate_column_mappings (m : mapping) : outcome unit :=
  match m with
  | [] => Raise (ConfigurableDataMatchingError EmptyMappings)
  | _ => validate_entries m
  end.

(** [__init__(column_mappings, fuzzy_threshold)]: the attributes set before
    the validation runs, and whether the constructor returns or raises *)
Definition init (m : mapping) (threshold : float) : matcher * outcome unit :=
  let self := mkMatcher m threshold [] in
  (self, validate_column_mappings m).

(** [_validate_columns_exist(position_df, interview_df)] *)
Definition validate_columns_exist (m : mapping) (position_df interview_df : DataFrame)
    : outcome unit :=
  let missing_pos_cols := filter (fun c => has_column position_df c = false) (m.*1) in
  match missing_pos_cols with
  | _ :: _ => Raise (ConfigurableDataMatchingError (MissingPositionColumns missing_pos_cols))
  | [] =>
      let missing_int_cols := filter (fun c => has_column interview_df c = false) (m.*2) in
      match missing_int_cols with
      | _ :: _ => Raise (ConfigurableDataMatchingError (MissingInterviewColumns missing_int_cols))
      | [] => Return tt
      end
  end.

(** the loop that builds [match_conditions]; [pos_row[pos_col]] raises
    KeyError on a label the Series does not have *)
Fixpoint conditions (m : mapping) (pos_row : row) : outcome (list (string * string)) :=
  match m with
  | [] => Return []
  | (pos_col, int_col) :: m' =>
      match pos_row !! pos_col with
      | None => Raise (KeyError pos_col)
      | Some v =>
          let pos_value := if notna v then py_str v else "" in
          cs ← conditions m' pos_row;
          Return (if PyStr.truthy pos_value then (int_col, pos_value) :: cs else cs)
      end
  end.

(** a boolean Series: the value at each row label *)
Abbreviation bool_series := (gmap nat bool).

(** [pd.Series([True] * len(interview_df))], with the labels 0..n-1 *)
Definition all_true (n : nat) : bool_series :=
  list_to_map ((fun l => (l, true)) <$> seq 0 n).

(** [interview_df[int_col].astype(str) == pos_value], at the labels of
    the frame *)
Definition column_mask (df : DataFrame) (int_col pos_value : string)
    : bool_series :=
  list_to_map
    (zip (index df)
         ((fun c => String.eqb (py_str c) pos_value) <$> column df int_col)).

(** [mask & column_mask]: the two Series are aligned on the union of
    their labels, and a label that one of them lacks gives False *)
Definition mask_and (a b : bool_series) : bool_series :=
  merge (fun x y =>
           match x, y with
           | Some u, Some v => Some (u && v)
           | None, None => None
           | _, _ => Some false
           end) a b.

(** [mask.sum()] *)
Definition mask_sum (m : bool_series) : nat :=
  length (filter (fun p => p.2 = true) (map_to_list m)).

(** the AND loop over [match_conditions], from the state [(mask, exact_match_details)] *)
Fixpoint apply_conditions (df : DataFrame) (cs : list (string * string))
    (mask : bool_series) (d : gmap string condition_detail)
    : bool_series * gmap string condition_detail :=
  match cs with
  | [] => (mask, d)
  | (int_col, pos_value) :: cs' =>
      if has_column df int_col then
        let cm := column_mask df int_col pos_value in
        let mask' := mask_and mask cm in
        apply_conditions df cs' mask'
          (<[String.append "exact_" int_col
               := mkDetail pos_value (mask_sum cm) (mask_sum mask')]> d)
      else apply_conditions df cs' mask d
  end.

(** [interview_df[mask]]: the mask is re-indexed by the labels of the
    frame, which raises IndexingError when it lacks one of them; the rows
    whose label is set are returned in frame order *)
Definition select (df : DataFrame) (mask : bool_series) : outcome (list row) :=
  if forallb (fun l => bool_decide (is_Some (mask !! l))) (index df)
  then Return (omap (fun '(l, r) => if default false (mask !! l) then Some r else None)
                    (zip (index df) (records df)))
  else Raise IndexingError.

(** [_find_matches_for_position(pos_row, interview_df)]; what the [try]
    block raises ends in the 'error' detail *)
Definition find_matches_for_position (m : mapping) (pos_row : row) (df : DataFrame)
    : outcome ConfigurableMatchResult :=
  cs ← conditions m pos_row;
  match cs with
  | [] => Return (mkResult pos_row [] 0 NoConditions false)
  | _ =>
      let '(mask, exact_match_details) :=
        apply_conditions df cs (all_true (length (rows df))) ∅ in
      let '(matched_rows, score, det) :=
        match select df mask with
        | Return [] => ([], 0%float, NoMatch (length cs) cs)
        | Return exact_matches =>
            (exact_matches, 1%float, ExactDetails exact_match_details)
        | Raise e => ([], 0%float, ErrorDetails e)
        end in
      Return (mkResult pos_row matched_rows score det
                (bool_decide (0 < length matched_rows)))
  end.

(** the loop of [match_data] over [position_df.iterrows()], appending to
    [self.match_results]; the list so far is kept when a row raises *)
Fixpoint match_loop (m : mapping) (df : DataFrame) (ps : list row)
    (acc : list ConfigurableMatchResult)
    : list ConfigurableMatchResult * outcome unit :=
  match ps with
  | [] => (acc, Return tt)
  | p :: ps' =>
      match find_matches_for_position m p df with
      | Raise e => (acc, Raise e)
      | Return r => match_loop m df ps' (acc ++ [r])
      end
  end.

(** the handler of [match_data]: its own exception passes, any other is wrapped *)
Definition wrap (e : exn) : exn :=
  match e with
  | ConfigurableDataMatchingError _ => e
  | _ => ConfigurableDataMatchingError (MatchingFailed e)
  end.

(** [match_data(position_df, interview_df)]: the matcher it leaves and the
    'match_results' list it returns (the same list object as the attribute) *)
Definition match_data (self : matcher) (position_df interview_df : DataFrame)
    : matcher * outcome (list ConfigurableMatchResult) :=
  let m := column_mappings self in
  match validate_columns_exist m position_df interview_df with
  | Raise e => (self, Raise (wrap e))
  | Return _ =>
      let '(results, o) := match_loop m interview_df (records position_df) [] in
      let self' := mkMatcher m (fuzzy_threshold self) results in
      match o with
      | Raise e => (self', Raise (wrap e))
      | Return _ => (self', Return results)
      end
  end.

End Configurable.

(** ** Plain Python values in the dict rows of the legacy pipeline *)

Inductive pyval : Type :=
  | PNone
  | PStr (s : string)
  | PInt (n : Z)        (* an int (or a bool, as 0 or 1) *)
  | PFloat (x : float).

Abbreviation pydict := (gmap string pyval).
Abbreviation strdict := (gmap string string).

(** [x == n] for a float and an int, which Python compares exactly *)
Definition float_eq_int (x : float) (n : Z) : bool :=
  match Prim2SF x with
  | S754_zero _ => Z.eqb n 0
  | S754_finite s m e =>
      let v := if s then Z.neg m else Z.pos m in
      if Z.leb 0 e then Z.eqb n (v * 2 ^ e)
      else Z.eqb (v mod 2 ^ (- e)) 0 && Z.eqb n (v / 2 ^ (- e))
  | _ => false
  end.

(** [v == w] *)
Definition py_eq (v w : pyval) : bool :=
  match v, w with
  | PNone, PNone => true
  | PStr s, PStr t => String.eqb s t
  | PInt n, PInt k => Z.eqb n k
  | PFloat x, PFloat y => PrimFloat.eqb x y
  | PInt n, PFloat x | PFloat x, PInt n => float_eq_int x n
  | _, _ => false
  end.

(** the truth value of a plain value *)
Definition py_truthy (v : pyval) : bool :=
  match v with
  | PNone => false
  | PStr s => PyStr.truthy s
  | PInt n => negb (Z.eqb n 0)
  | PFloat x => negb (PrimFloat.eqb x 0)
  end.

(** ** services/data_matcher.py *)

Module Legacy.

Inductive match_kind : Type := Exact | Code | Fuzzy | NoKind.

(** the text of [match_type] *)
Definition match_type_text (k : match_kind) : string :=
  match k with
  | Exact => "exact"
  | Code => "code"
  | Fuzzy => "fuzzy"
  | NoKind => "none"
  end.

(** MatchResult *)
Record MatchResult : Type := mkMatch {
  position_name : string;
  interview_position : string;
  match_type : match_kind;
  confidence : float;
  matched : bool
}.

(** [_code_match] *)
Definition code_match (position_code : string) (interview_positions : list string)
    : option string :=
  if negb (PyStr.truthy position_code) then None
  else find (fun ip => PyStr.contains position_code ip) interview_positions.

Definition common_keywords : list string :=
  ["软件"; "工程"; "开发"; "产品"; "经理"; "设计";
   "前端"; "后端"; "数据"; "分析"; "测试"; "运维"].

(** [_contains_keywords]: the two keyword sets meet *)
Definition contains_keywords (position1 position2 : string) : bool :=
  existsb (fun k => PyStr.contains k position1 && PyStr.contains k position2)
          common_keywords.

(** the truth value of an [Optional[str]]: None and '' are false *)
Definition truthy_opt (o : option string) : bool :=
  match o with
  | Some s => PyStr.truthy s
  | None => false
  end.

Section Matcher.

(** [str.lower] on text outside ASCII *)
Variable unicode_lower : string -> string.

(** [_exact_match]: equal, then equal ignoring case, then equal without spaces *)
Definition exact_match (position_name : string) (interview_positions : list string)
    : option string :=
  if bool_decide (position_name ∈ interview_positions) then Some position_name
  else
    match find (fun ip => String.eqb (PyStr.lower unicode_lower ip)
                                     (PyStr.lower unicode_lower position_name))
               interview_positions with
    | Some ip => Some ip
    | None =>
        find (fun ip => String.eqb (PyStr.remove_spaces position_name)
                                   (PyStr.remove_spaces ip))
             interview_positions
    end.

(** [_clean_position_name], whose regular expression works on Unicode
    word characters, and difflib's [SequenceMatcher(None, a, b).ratio()] *)
Variable clean_position_name : string -> string.
Variable ratio : string -> string -> float.
(** [self.fuzzy_threshold] *)
Variable fuzzy_threshold : float.
(** the order in which [list(positions)] lists a set of names *)
Variable set_order : gset string -> list string.

(** the ratio the loop of [_fuzzy_match] compares for one candidate *)
Definition boosted_ratio (cleaned_position interview_pos : string) : float :=
  let cleaned_interview := clean_position_name interview_pos in
  let r := ratio cleaned_position cleaned_interview in
  if contains_keywords cleaned_position cleaned_interview
  then (let r' := (r + 0.1)%float in if PrimFloat.ltb r' 1 then r' else 1%float)
  else r.

(** the loop of [_fuzzy_match] from [(best_match, best_ratio)] *)
Fixpoint fuzzy_loop (cleaned_position : string) (ips : list string)
    (best : option string * float) : option string * float :=
  match ips with
  | [] => best
  | ip :: ips' =>
      let r := boosted_ratio cleaned_position ip in
      fuzzy_loop cleaned_position ips'
        (if PrimFloat.ltb (snd best) r then (Some ip, r) else best)
  end.

(** [_fuzzy_match] *)
Definition fuzzy_match (position_name : string) (interview_positions : list string)
    : option string * float :=
  fuzzy_loop (clean_position_name position_name) interview_positions (None, 0%float).

(** [_find_best_match] once the name and the code are read off the dict *)
Definition best_match (position_name position_code : string)
    (interview_positions : list string) : MatchResult :=
  let exact := exact_match position_name interview_positions in
  if truthy_opt exact
  then mkMatch position_name (default "" exact) Exact 1 true
  else
    let code :=
      if PyStr.truthy position_code
      then code_match position_code interview_positions
      else None in
    if truthy_opt code
    then mkMatch position_name (default "" code) Code 0.95 true
    else
      let '(fuzzy, conf) := fuzzy_match position_name interview_positions in
      if truthy_opt fuzzy && PrimFloat.leb fuzzy_threshold conf
      then mkMatch position_name (default "" fuzzy) Fuzzy conf true
      else mkMatch position_name "" NoKind 0 false.

(** [_find_best_match(position, interview_positions, interview_data)] *)
Definition find_best_match (position : strdict) (interview_positions : list string)
    : outcome MatchResult :=
  match position !! "position_name" with
  | None => Raise (KeyError "position_name")
  | Some name =>
      Return (best_match name (default "" (position !! "position_code"))
                         interview_positions)
  end.

(** the set built by [_extract_interview_positions];
    [.strip()] on a value that is not a str raises AttributeError *)
Fixpoint position_set (interview_data : list pydict) (positions : gset string)
    : outcome (gset string) :=
  match interview_data with
  | [] => Return positions
  | interview :: rest =>
      match default (PStr "") (interview !! "position_name") with
      | PStr s =>
          let position_name := PyStr.strip s in
          position_set rest
            (if PyStr.truthy position_name then {[position_name]} ∪ positions
             else positions)
      | _ => Raise AttributeError
      end
  end.

(** [_extract_interview_positions(interview_data)] *)
Definition extract_interview_positions (interview_data : list pydict)
    : outcome (list string) :=
  positions ← position_set interview_data ∅; Return (set_order positions).

(** PositionMapping, with the nine fields the dataclass requires; a
    dataclass does not check the annotated types, and the engine fills
    the text fields with cells as they are (a str, a number, NaN, None) *)
Record PositionMapping : Type := mkMapping {
  position_code : pyval;
  mapping_position_name : pyval;
  department : pyval;
  department_name : pyval;
  recruit_count : Z;
  sheet_name : pyval;
  mapping_interview_position : pyval;
  match_confidence : float;
  candidate_count : nat
}.

(** the attributes [match_positions] clears and refills *)
Record matcher : Type := mkMatcher {
  position_mappings : list PositionMapping;
  unmatched_positions : list strdict;
  unmatched_interviews : list string
}.

(** [_validate_input_data]; the row number is that of the message *)
Fixpoint validate_positions (i : nat) (position_data : list strdict) : outcome unit :=
  match position_data with
  | [] => Return tt
  | position :: rest =>
      if truthy_opt (position !! "position_name")
      then validate_positions (S i) rest
      else Raise (ValidationError "position_name")
  end.

Definition missing_field (interview : pydict) : option string :=
  find (fun field =>
          match interview !! field with
          | None | Some PNone => true
          | _ => false
          end)
       ["name"; "position_name"; "score"].

Fixpoint validate_interviews (i : nat) (interview_data : list pydict) : outcome unit :=
  match interview_data with
  | [] => Return tt
  | interview :: rest =>
      match missing_field interview with
      | Some field => Raise (ValidationError field)
      | None => validate_interviews (S i) rest
      end
  end.

Definition validate_input_data (position_data : list strdict)
    (interview_data : list pydict) : outcome unit :=
  match position_data, interview_data with
  | [], _ => Raise (ValidationError "position_data")
  | _, [] => Raise (ValidationError "interview_data")
  | _, _ =>
      _ ← validate_positions 1 position_data;
      validate_interviews 1 interview_data
  end.

(** the loop of [match_positions] over the positions. A matched position
    builds [PositionMapping(...)] from seven keyword arguments, without
    [department_name] and [recruit_count]: the call raises TypeError *)
Fixpoint positions_loop (interview_positions : list string)
    (position_data : list strdict) (self : matcher)
    (seen : list MatchResult) : matcher * list MatchResult * outcome unit :=
  match position_data with
  | [] => (self, seen, Return tt)
  | position :: rest =>
      match find_best_match position interview_positions with
      | Raise e => (self, seen, Raise e)
      | Return r =>
          if matched r then (self, seen ++ [r], Raise TypeError)
          else
            positions_loop interview_positions rest
              (mkMatcher (position_mappings self)
                         (unmatched_positions self ++ [position])
                         (unmatched_interviews self))
              (seen ++ [r])
      end
  end.

(** the result dict of [_generate_match_result] *)
Record match_result : Type := mkMatchResult {
  mappings : list PositionMapping;
  result_unmatched_positions : list strdict;
  result_unmatched_interviews : list string;
  rate_matched : nat;
  rate_total : nat
}.

Definition generate_match_result (self : matcher) : match_result :=
  mkMatchResult (position_mappings self) (unmatched_positions self)
    (unmatched_interviews self)
    (length (position_mappings self))
    (length (position_mappings self) + length (unmatched_positions self)).

(** the handler of [match_positions] *)
Definition wrap (e : exn) : exn :=
  match e with
  | DataMatchingError _ | ValidationError _ => e
  | _ => DataMatchingError e
  end.

(** [match_positions(position_data, interview_data)]: the matcher it
    leaves, the MatchResult of every position it reached, and what it
    returns or raises *)
Definition match_positions (self : matcher) (position_data : list strdict)
    (interview_data : list pydict)
    : matcher * list MatchResult * outcome match_result :=
  let cleared := mkMatcher [] [] [] in
  match validate_input_data position_data interview_data with
  | Raise e => (cleared, [], Raise (wrap e))
  | Return _ =>
      match extract_interview_positions interview_data with
      | Raise e => (cleared, [], Raise (wrap e))
      | Return interview_positions =>
          let '(self', seen, o) :=
            positions_loop interview_positions position_data cleared [] in
          match o with
          | Raise e => (self', seen, Raise (wrap e))
          | Return _ =>
              let matched_interview_positions :=
                mapping_interview_position <$> position_mappings self' in
              let self'' :=
                mkMatcher (position_mappings self') (unmatched_positions self')
                  (filter (fun pos => existsb (py_eq (PStr pos))
                                              matched_interview_positions = false)
                          interview_positions) in
              (self'', seen, Return (generate_match_result self''))
          end
      end
  end.

End Matcher.

End Legacy.

(** ** services/data_validator.py *)

Module Validator.

(** an element of [position_data]: a dict, or anything else *)
Inductive pyobj : Type :=
  | NotADict
  | Dict (d : pydict).

(** the messages appended to [errors]; [i] is the 1-based record number *)
Inductive error : Type :=
  | EmptyData
  | NotDictFormat (i : nat)
  | MissingName (i : nat)
  | RecordFailed (i : nat).

(** the messages appended to [warnings] *)
Inductive warning : Type :=
  | DuplicateName (name : string)
  | MissingCode (name : string)
  | DuplicateCode (code : string)
  | MissingDepartment (name : string).

Record details : Type := mkDetails {
  duplicate_positions : list string;
  missing_codes : list string;
  empty_departments : list string;
  invalid_names : list nat
}.

(** ValidationResult *)
Record ValidationResult : Type := mkValidation {
  is_valid : bool;
  errors : list error;
  warnings : list warning;
  valid_count : nat;
  invalid_count : nat;
  result_details : details
}.

(** the locals of [validate_position_data_integrity] *)
Record locals : Type := mkLocals {
  l_errors : list error;
  l_warnings : list warning;
  l_valid_count : nat;
  l_invalid_count : nat;
  l_details : details;
  position_names : list string;
  position_codes : list string
}.

(** [position.get(key, '').strip()]: None when [.strip()] raises *)
Definition get_stripped (d : pydict) (key : string) : option string :=
  match default (PStr "") (d !! key) with
  | PStr s => Some (PyStr.strip s)
  | _ => None
  end.

Definition fail_record (i : nat) (st : locals) : locals :=
  mkLocals (l_errors st ++ [RecordFailed (i + 1)]) (l_warnings st)
    (l_valid_count st) (l_invalid_count st + 1) (l_details st)
    (position_names st) (position_codes st).

(** the duplicate-name check *)
Definition check_name (position_name : string) (st : locals) : locals :=
  if bool_decide (position_name ∈ position_names st)
  then mkLocals (l_errors st) (l_warnings st ++ [DuplicateName position_name])
         (l_valid_count st) (l_invalid_count st)
         (let d := l_details st in
          mkDetails (duplicate_positions d ++ [position_name]) (missing_codes d)
            (empty_departments d) (invalid_names d))
         (position_names st) (position_codes st)
  else mkLocals (l_errors st) (l_warnings st) (l_valid_count st)
         (l_invalid_count st) (l_details st)
         (position_names st ++ [position_name]) (position_codes st).

(** the code check *)
Definition check_code (position_name position_code : string) (st : locals) : locals :=
  if negb (PyStr.truthy position_code)
  then mkLocals (l_errors st) (l_warnings st ++ [MissingCode position_name])
         (l_valid_count st) (l_invalid_count st)
         (let d := l_details st in
          mkDetails (duplicate_positions d) (missing_codes d ++ [position_name])
            (empty_departments d) (invalid_names d))
         (position_names st) (position_codes st)
  else if bool_decide (position_code ∈ position_codes st)
  then mkLocals (l_errors st) (l_warnings st ++ [DuplicateCode position_code])
         (l_valid_count st) (l_invalid_count st) (l_details st)
         (position_names st) (position_codes st)
  else mkLocals (l_errors st) (l_warnings st) (l_valid_count st)
         (l_invalid_count st) (l_details st)
         (position_names st) (position_codes st ++ [position_code]).

(** the department check, and the count of the valid record *)
Definition check_department (position_name department : string) (st : locals) : locals :=
  let st' :=
    if negb (PyStr.truthy department)
    then mkLocals (l_errors st) (l_warnings st ++ [MissingDepartment position_name])
           (l_valid_count st) (l_invalid_count st)
           (let d := l_details st in
            mkDetails (duplicate_positions d) (missing_codes d)
              (empty_departments d ++ [position_name]) (invalid_names d))
           (position_names st) (position_codes st)
    else st in
  mkLocals (l_errors st') (l_warnings st') (l_valid_count st' + 1)
    (l_invalid_count st') (l_details st') (position_names st') (position_codes st').

(** the body of the loop for record [i] (0-based); what an exception
    leaves behind stays, the handler adds the error and the count *)
Definition check_record (i : nat) (position : pyobj) (st : locals) : locals :=
  match position with
  | NotADict =>
      mkLocals (l_errors st ++ [NotDictFormat (i + 1)]) (l_warnings st)
        (l_valid_count st) (l_invalid_count st + 1) (l_details st)
        (position_names st) (position_codes st)
  | Dict d =>
      match get_stripped d "position_name" with
      | None => fail_record i st
      | Some position_name =>
          if negb (PyStr.truthy position_name)
          then mkLocals (l_errors st ++ [MissingName (i + 1)]) (l_warnings st)
                 (l_valid_count st) (l_invalid_count st + 1)
                 (let d := l_details st in
                  mkDetails (duplicate_positions d) (missing_codes d)
                    (empty_departments d) (invalid_names d ++ [i + 1]))
                 (position_names st) (position_codes st)
          else
            let st1 := check_name position_name st in
            match get_stripped d "position_code" with
            | None => fail_record i st1
            | Some position_code =>
                let st2 := check_code position_name position_code st1 in
                match get_stripped d "department" with
                | None => fail_record i st2
                | Some department => check_department position_name department st2
                end
            end
      end
  end.

Fixpoint check_records (i : nat) (position_data : list pyobj) (st : locals) : locals :=
  match position_data with
  | [] => st
  | position :: rest => check_records (S i) rest (check_record i position st)
  end.

Definition empty_details : details := mkDetails [] [] [] [].

(** [validate_position_data_integrity(position_data)] *)
Definition validate_position_data_integrity (position_data : list pyobj)
    : ValidationResult :=
  match position_data with
  | [] => mkValidation false [EmptyData] [] 0 0 empty_details
  | _ =>
      let st := check_records 0 position_data
                  (mkLocals [] [] 0 0 empty_details [] []) in
      let valid :=
        bool_decide (length (l_errors st) = 0) && bool_decide (0 < l_valid_count st) in
      mkValidation valid (l_errors st) (l_warnings st) (l_valid_count st)
        (l_invalid_count st) (l_details st)
  end.

End Validator.

(** ** services/processing_engine.py, models/data_models.py *)

Module Engine.

(** the four texts of [PositionScoreResult.status] *)
Inductive status : Type :=
  | Normal
  | NoCandidates
  | DataAnomaly
  | Unmatched.

Definition status_text (s : status) : string :=
  match s with
  | Normal => "正常"
  | NoCandidates => "无面试人员"
  | DataAnomaly => "数据异常"
  | Unmatched => "无法匹配"
  end.

#[global] Instance status_eq_dec : EqDecision status.
Proof. solve_decision. Defined.

(** the four shapes of [notes] *)
Inductive notes : Type :=
  | NoteNoCandidates
  | NoteNoValidScores
  | NoteScores (count : nat) (sorted_scores : list float)
  | NoteUnmatched.

(** PositionScoreResult, after [__post_init__] *)
Record PositionScoreResult : Type := mkScore {
  position_code : string;
  position_name : string;
  department : string;
  department_name : string;
  recruit_count : Z;
  candidate_count : nat;
  min_score : option float;
  result_status : status;
  result_notes : notes;
  all_scores : list float
}.

(** the two kinds of entry of [all_positions] *)
Inductive position_info : Type :=
  | Matched (mapping : Legacy.PositionMapping)
  | NotMatched (position : pydict).

(** the truth value of a plain value *)
Definition truthy (v : pyval) : bool := py_truthy v.

(** [v.strip() if v else ""] of [__post_init__]: a value that is true
    and has no [strip] raises AttributeError *)
Definition strip_field (v : pyval) : outcome string :=
  match v with
  | PStr s => Return (PyStr.strip s)
  | _ => if truthy v then Raise AttributeError else Return ""
  end.

Section Engine.

(** [float(s)] of a str, None when it raises ValueError; [float(n)] of an
    int, None when it raises OverflowError; [int(v)], with the exception
    it raises on a value it cannot convert; [str(x)] of an int or a
    float *)
Variable float_of_str : string -> option float.
Variable float_of_int : Z -> option float.
Variable int_of : pyval -> outcome Z.
Variable str_of_num : pyval -> string.
(** [sorted(scores, reverse=True)] *)
Variable sorted_desc : list float -> list float.

(** [str(v)] *)
Definition str_of (v : pyval) : string :=
  match v with
  | PNone => "None"
  | PStr s => s
  | _ => str_of_num v
  end.

(** the [position_code] that [__post_init__] leaves *)
Definition clean_code (code : pyval) : string :=
  if truthy code
  then match code with
       | PStr s => PyStr.strip s
       | _ => str_of code
       end
  else "".

(** the constructor followed by [__post_init__] *)
Definition new_result (code name dept dept_name : pyval) (recruit : Z)
    (count : nat) (min_score : option float) (st : status) (nt : notes)
    (scores : list float) : outcome PositionScoreResult :=
  name' ← strip_field name;
  dept' ← strip_field dept;
  dept_name' ← strip_field dept_name;
  Return (mkScore (clean_code code) name' dept' dept_name' recruit count
            min_score st nt scores).

(** [interview.get('position_name') == mapping.interview_position] *)
Definition at_position (interview_position : pyval) (interview : pydict) : bool :=
  py_eq (default PNone (interview !! "position_name")) interview_position.

(** one turn of the loop over [position_candidates]: the score it
    appends, None when the candidate is skipped. [float()] of an int too
    large for a float raises OverflowError, which the handler of the loop
    does not catch *)
Definition score_of (candidate : pydict) : outcome (option float) :=
  match candidate !! "score" with
  | None | Some PNone => Return None
  | Some (PFloat x) => Return (Some x)
  | Some (PInt n) =>
      match float_of_int n with
      | Some x => Return (Some x)
      | None => Raise OverflowError
      end
  | Some (PStr s) => Return (float_of_str (PyStr.strip s))
  end.

(** the list [scores] after the loop over [position_candidates] *)
Fixpoint scores_of (position_candidates : list pydict) : outcome (list float) :=
  match position_candidates with
  | [] => Return []
  | candidate :: rest =>
      score ← score_of candidate;
      scores ← scores_of rest;
      Return (match score with
              | Some x => x :: scores
              | None => scores
              end)
  end.

(** [_process_matched_position(mapping, interview_data)] *)
Definition process_matched_position (mapping : Legacy.PositionMapping)
    (interview_data : list pydict) : outcome PositionScoreResult :=
  let position_candidates :=
    filter (fun iv => at_position (Legacy.mapping_interview_position mapping) iv = true)
           interview_data in
  let result := new_result (Legacy.position_code mapping)
                  (Legacy.mapping_position_name mapping)
                  (Legacy.department mapping) (Legacy.department_name mapping)
                  (Legacy.recruit_count mapping) in
  match position_candidates with
  | [] => result 0 None NoCandidates NoteNoCandidates []
  | _ =>
      scores ← scores_of position_candidates;
      match scores with
      | [] => result (length position_candidates) None DataAnomaly NoteNoValidScores []
      | _ =>
          let sorted_scores := sorted_desc scores in
          result (length scores) None Normal
            (NoteScores (length scores) sorted_scores) sorted_scores
      end
  end.

(** [position.get(k1, position.get(k2, ''))] *)
Definition get2 (position : pydict) (k1 k2 : string) : pyval :=
  match position !! k1 with
  | Some v => v
  | None => default (PStr "") (position !! k2)
  end.

(** [int(position.get('招考人数', 0)) if position.get('招考人数') else 0] *)
Definition recruit_count_of (position : pydict) : outcome Z :=
  match position !! "招考人数" with
  | Some v => if truthy v then int_of v else Return 0%Z
  | None => Return 0%Z
  end.

(** [_process_unmatched_position(position)] *)
Definition process_unmatched_position (position : pydict)
    : outcome PositionScoreResult :=
  recruit ← recruit_count_of position;
  new_result (PStr (str_of (get2 position "职位代码" "岗位代码")))
    (get2 position "招考职位" "岗位名称")
    (default (PStr "") (position !! "用人司局"))
    (default (PStr "") (position !! "部门名称"))
    recruit 0 None Unmatched NoteUnmatched [].

Definition process_position (info : position_info) (interview_data : list pydict)
    : outcome PositionScoreResult :=
  match info with
  | Matched mapping => process_matched_position mapping interview_data
  | NotMatched position => process_unmatched_position position
  end.

(** [all_positions] of [_calculate_min_scores]: the matched ones first *)
Definition all_positions (mappings : list Legacy.PositionMapping)
    (unmatched_positions : list pydict) : list position_info :=
  (Matched <$> mappings) ++ (NotMatched <$> unmatched_positions).

(** [_calculate_min_scores]: a position whose processing raises is left
    out of the results (and reported as a warning) *)
Definition calculate_min_scores (mappings : list Legacy.PositionMapping)
    (unmatched_positions : list pydict) (interview_data : list pydict)
    : list PositionScoreResult :=
  omap (fun info =>
          match process_position info interview_data with
          | Return r => Some r
          | Raise _ => None
          end)
       (all_positions mappings unmatched_positions).

End Engine.

(** [min(l)], [max(l)] and [sum(l)] on floats *)
Definition fmin (x : float) (l : list float) : float :=
  fold_left (fun m y => if PrimFloat.ltb y m then y else m) l x.
Definition fmax (x : float) (l : list float) : float :=
  fold_left (fun m y => if PrimFloat.ltb m y then y else m) l x.
Definition fsum (l : list float) : float :=
  fold_left PrimFloat.add l 0%float.

Definition float_of_nat (n : nat) : float :=
  PrimFloat.of_uint63 (Uint63.of_Z (Z.of_nat n)).

(** the 'score_statistics' dict, when it is not empty *)
Record score_stats : Type := mkScoreStats {
  stat_min_score : float;
  stat_max_score : float;
  stat_avg_score : float;
  score_count : nat
}.

(** the parts of the dict [_generate_statistics] returns that are counts
    or scores *)
Record statistics : Type := mkStatistics {
  total_positions : nat;
  normal_positions : nat;
  no_interview_positions : nat;
  unmatched_positions : nat;
  error_positions : nat;
  score_statistics : option score_stats;
  total_candidates : nat;
  positions_with_candidates : nat
}.

Definition count_status (s : status) (results : list PositionScoreResult) : nat :=
  length (filter (fun r => result_status r = s) results).

(** [_generate_statistics(results, match_results)] *)
Definition generate_statistics (results : list PositionScoreResult) : statistics :=
  let valid_scores := omap min_score results in
  let score_stats :=
    match valid_scores with
    | [] => None
    | x :: rest =>
        Some (mkScoreStats (fmin x rest) (fmax x rest)
                (fsum valid_scores / float_of_nat (length valid_scores))%float
                (length valid_scores))
    end in
  mkStatistics (length results)
    (count_status Normal results) (count_status NoCandidates results)
    (count_status Unmatched results) (count_status DataAnomaly results)
    score_stats
    (sum_list (candidate_count <$> results))
    (length (filter (fun r => 0 < candidate_count r) results)).

End Engine.

(** ** services/fast_data_matcher.py: the statistics of a result list *)

Module FastStats.

(** the dict [get_match_statistics] returns *)
Record match_statistics : Type := mkMatchStatistics {
  total_positions : nat;
  matched_positions : nat;
  unmatched_positions : nat;
  match_rate : float;
  total_candidates : nat;
  avg_candidates_per_position : float;
  max_candidates_per_position : nat;
  min_candidates_per_position : nat
}.

(** [max(l) if l else 0] and [min(l) if l else 0] on ints *)
Definition max_or_zero (l : list nat) : nat :=
  match l with
  | [] => 0
  | x :: rest => fold_left Nat.max rest x
  end.

Definition min_or_zero (l : list nat) : nat :=
  match l with
  | [] => 0
  | x :: rest => fold_left Nat.min rest x
  end.

(** [a / b if b > 0 else 0] on ints *)
Definition rate (a b : nat) : float :=
  if bool_decide (0 < b)
  then (Engine.float_of_nat a / Engine.float_of_nat b)%float
  else 0%float.

(** [get_match_statistics(match_results)] *)
Definition get_match_statistics (match_results : list Fast.FastMatchResult)
    : match_statistics :=
  let total_positions := length match_results in
  let matched := filter (fun r => Fast.matched r = true) match_results in
  let matched_positions := length matched in
  let candidate_counts := map (fun r => length (Fast.interview_rows r)) matched in
  let total_candidates := sum_list candidate_counts in
  mkMatchStatistics total_positions matched_positions
    (total_positions - matched_positions)
    (rate matched_positions total_positions)
    total_candidates
    (rate total_candidates matched_positions)
    (max_or_zero candidate_counts)
    (min_or_zero candidate_counts).

End FastStats.

(** ** services/configurable_data_matcher.py: the score of two column values *)

Module ColumnScore.

(** the ASCII digits 0..9 *)
Definition is_digit (a : ascii) : bool :=
  let n := nat_of_ascii a in Nat.leb 48 n && Nat.leb n 57.

Fixpoint all_digits (s : string) : bool :=
  match s with
  | EmptyString => true
  | String a r => is_digit a && all_digits r
  end.

Section Score.

(** [str.isdigit] and [str.lower] on text outside ASCII *)
Variable unicode_isdigit : string -> bool.
Variable unicode_lower : string -> string.
(** difflib's [SequenceMatcher(None, a, b).ratio()] *)
Variable ratio : string -> string -> float.

(** [s.isdigit()]: not empty, and every character a digit *)
Definition isdigit (s : string) : bool :=
  if PyStr.is_ascii s then PyStr.truthy s && all_digits s else unicode_isdigit s.

(** [_calculate_column_match_score(value1, value2)] *)
Definition calculate_column_match_score (value1 value2 : string) : float :=
  if negb (PyStr.truthy value1) || negb (PyStr.truthy value2) then 0%float
  else if String.eqb value1 value2 then 1%float
  else if String.eqb (PyStr.lower unicode_lower value1) (PyStr.lower unicode_lower value2)
  then 0.95%float
  else if String.eqb (PyStr.remove_spaces value1) (PyStr.remove_spaces value2)
  then 0.9%float
  else if PyStr.contains value1 value2 || PyStr.contains value2 value1 then 0.8%float
  else
    let similarity := ratio value1 value2 in
    if isdigit value1 && isdigit value2
    then (if String.eqb value1 value2 then 1%float else 0%float)
    else similarity.

End Score.

End ColumnScore.

(** ** services/data_validator.py: the interview records *)

Module InterviewValidator.

(** the messages appended to [errors]; [i] is the 1-based record number *)
Inductive error : Type :=
  | EmptyData
  | NotDictFormat (i : nat)
  | MissingName (i : nat)
  | MissingPosition (i : nat)
  | MissingScore (i : nat)
  | NegativeScore (i : nat) (score : float)
  | InvalidScore (i : nat)
  | RecordFailed (i : nat).

(** the one message appended to [warnings] *)
Inductive warning : Type :=
  | DuplicateCandidate (name position_name : string).

(** the entries of [details]; one of 'invalid_scores' carries the score
    when there was one *)
Record details : Type := mkDetails {
  duplicate_candidates : list (string * string);
  invalid_scores : list (string * string * option pyval);
  missing_positions : list (string * nat);
  score_range_violations : list (string * string * float)
}.

Record ValidationResult : Type := mkValidation {
  is_valid : bool;
  errors : list error;
  warnings : list warning;
  valid_count : nat;
  invalid_count : nat;
  result_details : details
}.

(** the locals of [validate_interview_data_integrity] *)
Record locals : Type := mkLocals {
  l_errors : list error;
  l_warnings : list warning;
  l_valid_count : nat;
  l_invalid_count : nat;
  l_details : details;
  candidate_keys : list (string * string)
}.

Section Validate.

(** [float(s)] of a str, None when it raises ValueError, and [float(n)]
    of an int, None when it raises OverflowError *)
Variable float_of_str : string -> option float.
Variable float_of_int : Z -> option float.

(** [float(score)] under its handler for ValueError and TypeError: the
    number, None when the handler takes over; OverflowError passes *)
Definition to_float (score : pyval) : outcome (option float) :=
  match score with
  | PFloat x => Return (Some x)
  | PInt n =>
      match float_of_int n with
      | Some x => Return (Some x)
      | None => Raise OverflowError
      end
  | PStr s => Return (float_of_str s)
  | PNone => Return None
  end.

(** a record that ends in an error: the message, the count, the details *)
Definition reject (e : error) (d : details) (st : locals) : locals :=
  mkLocals (l_errors st ++ [e]) (l_warnings st) (l_valid_count st)
    (l_invalid_count st + 1) d (candidate_keys st).

(** the duplicate check on [(name, position_name)] *)
Definition check_key (name position_name : string) (st : locals) : locals :=
  if bool_decide ((name, position_name) ∈ candidate_keys st)
  then mkLocals (l_errors st)
         (l_warnings st ++ [DuplicateCandidate name position_name])
         (l_valid_count st) (l_invalid_count st)
         (let d := l_details st in
          mkDetails (duplicate_candidates d ++ [(name, position_name)])
            (invalid_scores d) (missing_positions d) (score_range_violations d))
         (candidate_keys st)
  else mkLocals (l_errors st) (l_warnings st) (l_valid_count st)
         (l_invalid_count st) (l_details st)
         (candidate_keys st ++ [(name, position_name)]).

(** the score check, and the count of the valid record *)
Definition check_score (i : nat) (name position_name : string) (d : pydict)
    (st : locals) : locals :=
  let dt := l_details st in
  let bad_score (score : option pyval) :=
    mkDetails (duplicate_candidates dt)
      (invalid_scores dt ++ [(name, position_name, score)])
      (missing_positions dt) (score_range_violations dt) in
  match d !! "score" with
  | None | Some PNone => reject (MissingScore (i + 1)) (bad_score None) st
  | Some score =>
      match to_float score with
      | Raise _ => reject (RecordFailed (i + 1)) dt st
      | Return None => reject (InvalidScore (i + 1)) (bad_score (Some score)) st
      | Return (Some score_float) =>
          if PrimFloat.ltb score_float 0
          then reject (NegativeScore (i + 1) score_float)
                 (mkDetails (duplicate_candidates dt) (invalid_scores dt)
                    (missing_positions dt)
                    (score_range_violations dt ++ [(name, position_name, score_float)]))
                 st
          else mkLocals (l_errors st) (l_warnings st) (l_valid_count st + 1)
                 (l_invalid_count st) (l_details st) (candidate_keys st)
      end
  end.

(** the body of the loop for record [i] (0-based) *)
Definition check_record (i : nat) (interview : Validator.pyobj) (st : locals) : locals :=
  match interview with
  | Validator.NotADict => reject (NotDictFormat (i + 1)) (l_details st) st
  | Validator.Dict d =>
      match Validator.get_stripped d "name" with
      | None => reject (RecordFailed (i + 1)) (l_details st) st
      | Some name =>
          if negb (PyStr.truthy name)
          then reject (MissingName (i + 1)) (l_details st) st
          else
            match Validator.get_stripped d "position_name" with
            | None => reject (RecordFailed (i + 1)) (l_details st) st
            | Some position_name =>
                if negb (PyStr.truthy position_name)
                then reject (MissingPosition (i + 1))
                       (let dt := l_details st in
                        mkDetails (duplicate_candidates dt) (invalid_scores dt)
                          (missing_positions dt ++ [(name, i + 1)])
                          (score_range_violations dt))
                       st
                else check_score i name position_name d
                       (check_key name position_name st)
            end
      end
  end.

Fixpoint check_records (i : nat) (interview_data : list Validator.pyobj) (st : locals)
    : locals :=
  match interview_data with
  | [] => st
  | interview :: rest => check_records (S i) rest (check_record i interview st)
  end.

Definition empty_details : details := mkDetails [] [] [] [].

(** [validate_interview_data_integrity(interview_data)] *)
Definition validate_interview_data_integrity (interview_data : list Validator.pyobj)
    : ValidationResult :=
  match interview_data with
  | [] => mkValidation false [EmptyData] [] 0 0 empty_details
  | _ =>
      let st := check_records 0 interview_data
                  (mkLocals [] [] 0 0 empty_details []) in
      let valid :=
        bool_decide (length (l_errors st) = 0) && bool_decide (0 < l_valid_count st) in
      mkValidation valid (l_errors st) (l_warnings st) (l_valid_count st)
        (l_invalid_count st) (l_details st)
  end.

End Validate.

End InterviewValidator.

(** ** services/data_validator.py: the consistency of the two name sets *)

Module Consistency.

Inductive warning : Type :=
  | LowConsistency (rate : float)
  | MediumConsistency (rate : float)
  | PositionOnly (count : nat)
  | InterviewOnly (count : nat).

Inductive error : Type :=
  | NoCommonPosition.

(** the five sets of [details]; [list(...)] of them at the end is not modelled *)
Record details : Type := mkDetails {
  position_names : gset string;
  interview_positions : gset string;
  common_positions : gset string;
  position_only : gset string;
  interview_only : gset string
}.

Record ValidationResult : Type := mkValidation {
  is_valid : bool;
  errors : list error;
  warnings : list warning;
  valid_count : nat;
  invalid_count : nat;
  result_details : details
}.

(** the handler of the function: any exception becomes a ValidationError *)
Definition wrap {A : Type} (o : outcome A) : outcome A :=
  match o with
  | Return a => Return a
  | Raise _ => Raise (ValidationError "consistency")
  end.

(** [validate_data_consistency(position_data, interview_data)] *)
Definition validate_data_consistency (position_data interview_data : list pydict)
    : outcome ValidationResult :=
  wrap (
    names ← Legacy.position_set position_data ∅;
    positions ← Legacy.position_set interview_data ∅;
    let common := names ∩ positions in
    let only_position := names ∖ positions in
    let only_interview := positions ∖ names in
    let total_positions := size names in
    let total_interviews := size positions in
    let common_count := size common in
    let '(errs, valid, rate_warnings) :=
      if bool_decide (common_count = 0) then ([NoCommonPosition], 0, [])
      else
        let consistency_rate :=
          (Engine.float_of_nat common_count
           / Engine.float_of_nat (Nat.max total_positions total_interviews))%float in
        ([], common_count,
         if PrimFloat.ltb consistency_rate 0.3 then [LowConsistency consistency_rate]
         else if PrimFloat.ltb consistency_rate 0.7 then [MediumConsistency consistency_rate]
         else []) in
    let '(w1, invalid1) :=
      if bool_decide (only_position = ∅) then ([], 0)
      else ([PositionOnly (size only_position)], size only_position) in
    let '(w2, invalid2) :=
      if bool_decide (only_interview = ∅) then ([], 0)
      else ([InterviewOnly (size only_interview)], size only_interview) in
    Return (mkValidation (bool_decide (length errs = 0)) errs
              (rate_warnings ++ w1 ++ w2) valid (invalid1 + invalid2)
              (mkDetails names positions common only_position only_interview))).

End Consistency.

(** * Vocabulary of the statements *)

(** the rows from [i] on that hold [key], for the column cells [col] of
    the rows [i], [i+1], ... *)
Fixpoint holding (i : nat) (col : list cell) (key : string) : list nat :=
  match col with
  | [] => []
  | v :: col' =>
      if bool_decide (Fast.str_value v = key) then i :: holding (S i) col' key
      else holding (S i) col' key
  end.

(** row [j] of the frame holds the trimmed, present value [key] under [int_col] *)
Definition holds (df : DataFrame) (int_col : string) (j : nat) (key : string) : Prop :=
  ∃ r, rows df !! j = Some r ∧
       notna (cell_at r int_col) = true ∧
       PyStr.strip (py_str (cell_at r int_col)) = key.

(** row [j] carries the text [pv] under [int_col], untrimmed *)
Definition reads (df : DataFrame) (int_col : string) (j : nat) (pv : string) : Prop :=
  ∃ r, rows df !! j = Some r ∧ py_str (cell_at r int_col) = pv.

(** the row of the frame at a position, as [iloc] and [df[mask]] hand it out *)
Definition record_at (df : DataFrame) (j : nat) : row :=
  default ∅ (records df !! j).

(** the frame has the default row labels 0..n-1 *)
Definition default_index (df : DataFrame) : Prop :=
  index df = seq 0 (length (rows df)).

(** [order] lists the members of every set, each once *)
Definition lists_members (order : gset nat → list nat) : Prop :=
  ∀ c, order c ≡ₚ elements c.

(** the labels at which a boolean Series is set, among [ls] and in their order *)
Definition set_labels (mask : gmap nat bool) (ls : list nat) : list nat :=
  filter (fun l => mask !! l = Some true) ls.

(** a position cell that reads the same with and without trimming, and
    is not the text of a missing value *)
Definition tidy_position_cell (v : cell) : Prop :=
  v = NaN ∨ ∃ s, v = Str s ∧ PyStr.strip s = s ∧ s ≠ "nan".

(** a candidate cell that reads the same with and without trimming *)
Definition tidy_candidate_cell (v : cell) : Prop :=
  v = NaN ∨ ∃ s, v = Str s ∧ PyStr.strip s = s.

Definition in_candidates (cand : option (gset nat)) (j : nat) : Prop :=
  match cand with
  | None => True
  | Some c => j ∈ c
  end.

(** what a mapping has to satisfy, against the store [st], for the two
    matchers to be compared on [pos_row] and [df] *)
Definition comparable (df : DataFrame) (st : gmap string (gmap string (list nat)))
    (pos_row : row) (m : mapping) : Prop :=
  ∀ pos_col int_col, (pos_col, int_col) ∈ m →
    (∃ v, pos_row !! pos_col = Some v ∧ tidy_position_cell v) ∧
    has_column df int_col = true ∧
    st !! int_col = Some (Fast.index_column (column df int_col)) ∧
    (∀ r, r ∈ rows df → tidy_candidate_cell (cell_at r int_col)).

(** ** Sample inputs *)

Definition sample_frame : DataFrame :=
  frame ["dept"; "name"]
    [ {[ "dept" := Str "A"; "name" := Str "x" ]};
      {[ "dept" := Str " B "; "name" := Str "y" ]};
      {[ "dept" := Str "A"; "name" := NaN ]};
      {[ "dept" := Str "  "; "name" := Str "z" ]} ].

Definition one_unit : DataFrame :=
  frame ["dept"; "name"] [ {[ "dept" := Str "A"; "name" := Str "x" ]} ].

(** a position cell that [_find_matches_for_position] takes for blank:
    missing ([pd.notna] fails) or the empty string *)
Definition blank_cell (v : cell) : Prop := notna v = false ∨ v = Str "".

Definition blank_row : row := {[ "unit" := NaN; "code" := Str "" ]}.

Definition unit_code : mapping := [("unit", "dept"); ("code", "name")].

(** a candidate table with other rows than [one_unit], row 0 being another person *)
Definition other_units : DataFrame :=
  frame ["dept"; "name"]
    [ {[ "dept" := Str "B"; "name" := Str "y" ]};
      {[ "dept" := Str "A"; "name" := Str "x" ]} ].

(** the two runs of [match_data_fast] one after the other on one matcher:
    what each returns, and the store after the second *)
Definition fast_twice (set_order : gset nat → list nat)
    (st : gmap string (gmap string (list nat))) (m : mapping)
    (position_df interview_df : DataFrame) :=
  let '(st1, o1) := Fast.match_data_fast set_order st m position_df interview_df in
  let '(st2, o2) := Fast.match_data_fast set_order st1 m position_df interview_df in
  (o1, o2, st1, st2).

(** the same for [match_data] of the configurable matcher *)
Definition configurable_twice (self : Configurable.matcher)
    (position_df interview_df : DataFrame) :=
  let '(self1, o1) := Configurable.match_data self position_df interview_df in
  let '(self2, o2) := Configurable.match_data self1 position_df interview_df in
  (o1, o2, self1, self2).

(** a position table for the samples *)
Definition two_positions : DataFrame :=
  frame ["unit"; "code"]
    [ {[ "unit" := Str "A"; "code" := Str "x" ]};
      {[ "unit" := Str "C"; "code" := NaN ]} ].

(** the same for [match_positions] of the legacy matcher, with the
    MatchResult lists of the two runs *)
Definition legacy_twice (unicode_lower clean_position_name : string -> string)
    (ratio : string -> string -> float) (fuzzy_threshold : float)
    (set_order : gset string -> list string) (self : Legacy.matcher)
    (position_data : list strdict) (interview_data : list pydict) :=
  let run := Legacy.match_positions unicode_lower clean_position_name ratio
               fuzzy_threshold set_order in
  let '(self1, seen1, o1) := run self position_data interview_data in
  let '(self2, seen2, o2) := run self1 position_data interview_data in
  (seen1, o1, seen2, o2, self1, self2).

(** [ip] matches [name] at the exact tier: equal, equal ignoring case,
    or equal without whitespace *)
Definition exact_for (unicode_lower : string → string) (name ip : string) : Prop :=
  ip = name ∨
  PyStr.lower unicode_lower ip = PyStr.lower unicode_lower name ∨
  PyStr.remove_spaces name = PyStr.remove_spaces ip.

Definition has_exact (unicode_lower : string → string) (name : string)
    (ips : list string) : Prop :=
  ∃ ip, ip ∈ ips ∧ exact_for unicode_lower name ip.

(** a non-empty code that occurs inside some candidate position name *)
Definition has_code (code : string) (ips : list string) : Prop :=
  code ≠ "" ∧ ∃ ip, ip ∈ ips ∧ PyStr.contains code ip = true.

(** stand-ins for the name cleaner and the similarity ratio in the samples *)
Definition keep_name (s : string) : string := s.
Definition fixed_ratio (r : float) (a b : string) : float := r.

(** stand-ins for [lower] and [isdigit] outside ASCII in the samples,
    whose texts with a character outside ASCII have no letter with a
    lower case and no digit *)
Definition no_case (s : string) : string := s.
Definition no_digits (s : string) : bool := false.

(** the ideographic space U+3000, as its three bytes *)
Definition wide_space : string := PyStr.utf8 12288.

(** a text of ASCII digits, at least one *)
Definition ascii_number (s : string) : bool :=
  PyStr.truthy s && ColumnScore.all_digits s.



Definition sample_positions : list Validator.pyobj :=
  [ Validator.Dict {[ "position_name" := PStr "Clerk"; "position_code" := PStr "P01" ]};
    Validator.Dict {[ "position_name" := PStr " Clerk "; "position_code" := PStr "P01";
                      "department" := PStr "Tax" ]};
    Validator.Dict {[ "position_name" := PStr "Officer" ]} ].


(** the candidate is listed under the interview position [p]: the value
    under 'position_name', None when there is none, equals [p] *)
Definition listed_under (p : pyval) (candidate : pydict) : bool :=
  match candidate !! "position_name" with
  | Some v => py_eq v p
  | None => py_eq PNone p
  end.

(** the candidate has a score that parses: a number, or a text that
    [float()] reads once trimmed *)
Definition has_valid_score (float_of_str : string -> option float)
    (candidate : pydict) : bool :=
  match candidate !! "score" with
  | Some (PInt _) | Some (PFloat _) => true
  | Some (PStr s) => bool_decide (is_Some (float_of_str (PyStr.strip s)))
  | _ => false
  end.

(** the status by the priority of the specification: unmatched, then no
    candidates, then no candidate with a valid score, then normal *)
Definition status_by_priority (float_of_str : string -> option float)
    (info : Engine.position_info) (interview_data : list pydict) : Engine.status :=
  match info with
  | Engine.NotMatched _ => Engine.Unmatched
  | Engine.Matched mapping =>
      match filter (fun iv => listed_under (Legacy.mapping_interview_position mapping) iv
                              = true)
                   interview_data with
      | [] => Engine.NoCandidates
      | candidates =>
          if existsb (has_valid_score float_of_str) candidates
          then Engine.Normal
          else Engine.DataAnomaly
      end
  end.

(** a field that [__post_init__] can clean: a str, or a value that is false *)
Definition cleanable (v : pyval) : Prop :=
  (∃ s, v = PStr s) ∨ py_truthy v = false.

(** the text fields of a mapping can be cleaned *)
Definition clean_mapping (mapping : Legacy.PositionMapping) : Prop :=
  cleanable (Legacy.mapping_position_name mapping) ∧
  cleanable (Legacy.department mapping) ∧
  cleanable (Legacy.department_name mapping).

(** an int score of the candidate is one that [float()] converts *)
Definition score_fits (float_of_int : Z → option float) (candidate : pydict) : Prop :=
  ∀ n, candidate !! "score" = Some (PInt n) → is_Some (float_of_int n).

(** stand-ins for [float()], [int()] and [str()] in the samples, whose
    scores are floats already *)
Definition no_float (s : string) : option float := None.
Definition no_int_float (n : Z) : option float := None.
Definition no_int (v : pyval) : outcome Z := Raise ValueError.
Definition no_text (v : pyval) : string := "".

(** [sorted(scores, reverse=True)] on scores that compare (no NaN): the
    stable descending order, by insertion *)
Fixpoint insert_desc (x : float) (l : list float) : list float :=
  match l with
  | [] => [x]
  | y :: l' => if PrimFloat.ltb y x then x :: l else y :: insert_desc x l'
  end.

Definition descending (scores : list float) : list float :=
  fold_left (fun acc x => insert_desc x acc) scores [].

(** [sort] gives back the scores it is given, reordered *)
Definition reorders (sort : list float → list float) : Prop :=
  ∀ l, sort l ≡ₚ l.

Definition clerk_mapping : Legacy.PositionMapping :=
  Legacy.mkMapping (PStr "P01") (PStr "Clerk") (PStr "Tax") (PStr "") 1
    (PStr "Sheet1") (PStr "Clerk") 1 2.

(** the same position with NaN for its department, as an empty cell of
    the position table leaves it *)
Definition clerk_without_department : Legacy.PositionMapping :=
  Legacy.mkMapping (PStr "P01") (PStr "Clerk") (PFloat nan) (PStr "") 1
    (PStr "Sheet1") (PStr "Clerk") 1 2.

Definition clerk_candidates : list pydict :=
  [ {[ "name" := PStr "A"; "position_name" := PStr "Clerk"; "score" := PFloat 85 ]};
    {[ "name" := PStr "B"; "position_name" := PStr "Clerk"; "score" := PFloat 60 ]} ].

(** candidates of the same position whose scores are not numbers *)
Definition unscored_candidates : list pydict :=
  [ {[ "name" := PStr "A"; "position_name" := PStr "Clerk"; "score" := PStr "absent" ]};
    {[ "name" := PStr "B"; "position_name" := PStr "Clerk"; "score" := PNone ]} ].

(** one position and one candidate with the same position name *)
Definition clerk_position : strdict := {[ "position_name" := "Clerk"; "position_code" := "P01" ]}.

Definition clerk_interviews : list pydict :=
  [ {[ "name" := PStr "A"; "position_name" := PStr "Clerk"; "score" := PFloat 85 ]} ].

(** ** Vocabulary for the fast matcher *)

(** the candidate sets the loop of [_match_single_position_fast] meets,
    one per condition that is neither skipped nor without an index *)
Fixpoint active_sets (st : gmap string (gmap string (list nat))) (pos_row : row)
    (m : mapping) : list (gset nat) :=
  match m with
  | [] => []
  | (pos_col, int_col) :: m' =>
      let pv := Fast.pos_value pos_row pos_col in
      if Fast.skipped pv then active_sets st pos_row m'
      else
        match st !! int_col with
        | None => active_sets st pos_row m'
        | Some idx =>
            list_to_set (default [] (idx !! pv)) :: active_sets st pos_row m'
        end
  end.

(** the intersection of a list of sets, None for no set at all *)
Definition meet (sets : list (gset nat)) : option (gset nat) :=
  match sets with
  | [] => None
  | s :: rest => Some (foldl (∩) s rest)
  end.

(** the mapping has a condition the fast matcher uses on [pos_row] and [df] *)
Definition fast_active (df : DataFrame) (pos_row : row) (m : mapping) : Prop :=
  ∃ pos_col int_col, (pos_col, int_col) ∈ m ∧
    Fast.skipped (Fast.pos_value pos_row pos_col) = false ∧
    has_column df int_col = true.

(** row [j] holds, trimmed, the trimmed position value of every such condition *)
Definition fast_satisfies (df : DataFrame) (pos_row : row) (m : mapping) (j : nat) : Prop :=
  ∀ pos_col int_col, (pos_col, int_col) ∈ m →
    Fast.skipped (Fast.pos_value pos_row pos_col) = false →
    has_column df int_col = true →
    holds df int_col j (Fast.pos_value pos_row pos_col).

(** the store holds, for the mapping, what a fresh build for [df] holds *)
Definition fresh_for (df : DataFrame) (st : gmap string (gmap string (list nat)))
    (m : mapping) : Prop :=
  ∀ pos_col int_col, (pos_col, int_col) ∈ m →
    st !! int_col =
      if has_column df int_col then Some (Fast.index_column (column df int_col)) else None.

(** [fast_active], as a test *)
Definition active_in (df : DataFrame) (pos_row : row) (m : mapping) : bool :=
  existsb (fun '(pos_col, int_col) =>
             negb (Fast.skipped (Fast.pos_value pos_row pos_col)) && has_column df int_col)
          m.

(** a result list for the samples: two matched positions and one that is not *)
Definition three_results : list Fast.FastMatchResult :=
  [ Fast.mkFastResult ∅ [∅; ∅; ∅] 1 true;
    Fast.mkFastResult ∅ [] 0 false;
    Fast.mkFastResult ∅ [∅] 1 true ].

(** ** Vocabulary for the configurable matcher *)

(** a candidate row passes the conditions: under every condition column
    the table has, its text is the position text *)
Definition row_passes (df : DataFrame) (cs : list (string * string)) (r : row) : bool :=
  forallb (fun '(int_col, pv) =>
             negb (has_column df int_col) || String.eqb (py_str (cell_at r int_col)) pv)
          cs.

(** a mapping for the samples whose candidate column no table has *)
Definition unit_to_nowhere : mapping := [("unit", "office")].

(** ** Vocabulary for the legacy matcher *)

(** the trimmed, non-blank position name of an interview dict is [n] *)
Definition names_position (interview : pydict) (n : string) : Prop :=
  n ≠ "" ∧ ∃ t, default (PStr "") (interview !! "position_name") = PStr t ∧
                PyStr.strip t = n.

Definition officer_position : strdict := {[ "position_name" := "Officer" ]}.

(** ** Vocabulary for the engine and the fuzzy tier *)

(** the candidates [_process_matched_position] takes for a mapping *)
Definition candidates_at (mapping : Legacy.PositionMapping) (interview_data : list pydict)
    : list pydict :=
  filter (fun iv => listed_under (Legacy.mapping_interview_position mapping) iv = true)
         interview_data.

(** the score of a candidate as a float, None when it has none: a float
    as it is, an int converted, a text trimmed and parsed *)
Definition valid_score (float_of_str : string → option float)
    (float_of_int : Z → option float) (candidate : pydict) : option float :=
  match candidate !! "score" with
  | Some (PFloat x) => Some x
  | Some (PInt n) => float_of_int n
  | Some (PStr s) => float_of_str (PyStr.strip s)
  | _ => None
  end.

(** candidates of one position of which one has no readable score *)
Definition mixed_candidates : list pydict :=
  [ {[ "name" := PStr "A"; "position_name" := PStr "Clerk"; "score" := PFloat 60 ]};
    {[ "name" := PStr "B"; "position_name" := PStr "Clerk"; "score" := PStr "absent" ]};
    {[ "name" := PStr "C"; "position_name" := PStr "Clerk"; "score" := PFloat 85 ]};
    {[ "name" := PStr "D"; "position_name" := PStr "Officer"; "score" := PFloat 99 ]} ].

(** ** Vocabulary for the validators *)

(** the error of an interview record by itself, None for a valid one *)
Definition interview_error (float_of_str : string -> option float)
    (float_of_int : Z → option float) (i : nat)
    (interview : Validator.pyobj) : option InterviewValidator.error :=
  match interview with
  | Validator.NotADict => Some (InterviewValidator.NotDictFormat (i + 1))
  | Validator.Dict d =>
      match Validator.get_stripped d "name", Validator.get_stripped d "position_name" with
      | None, _ => Some (InterviewValidator.RecordFailed (i + 1))
      | Some "", _ => Some (InterviewValidator.MissingName (i + 1))
      | Some _, None => Some (InterviewValidator.RecordFailed (i + 1))
      | Some _, Some "" => Some (InterviewValidator.MissingPosition (i + 1))
      | Some _, Some _ =>
          let check x :=
            if PrimFloat.ltb x 0
            then Some (InterviewValidator.NegativeScore (i + 1) x)
            else None in
          match d !! "score" with
          | None | Some PNone => Some (InterviewValidator.MissingScore (i + 1))
          | Some (PFloat x) => check x
          | Some (PInt n) =>
              match float_of_int n with
              | Some x => check x
              | None => Some (InterviewValidator.RecordFailed (i + 1))
              end
          | Some (PStr s) =>
              match float_of_str s with
              | Some x => check x
              | None => Some (InterviewValidator.InvalidScore (i + 1))
              end
          end
      end
  end.

(** the errors of the records from number [i] on, in order *)
Fixpoint interview_errors (float_of_str : string -> option float)
    (float_of_int : Z → option float) (i : nat)
    (interview_data : list Validator.pyobj) : list InterviewValidator.error :=
  match interview_data with
  | [] => []
  | interview :: rest =>
      match interview_error float_of_str float_of_int i interview with
      | Some e => e :: interview_errors float_of_str float_of_int (S i) rest
      | None => interview_errors float_of_str float_of_int (S i) rest
      end
  end.

Definition sample_interviews : list Validator.pyobj :=
  [ Validator.Dict {[ "name" := PStr "A"; "position_name" := PStr "Clerk"; "score" := PFloat 85 ]};
    Validator.Dict {[ "name" := PStr "A"; "position_name" := PStr "Clerk"; "score" := PFloat (-1) ]};
    Validator.Dict {[ "name" := PStr "B"; "position_name" := PStr " " ]};
    Validator.NotADict ].

Definition sample_position_dicts : list pydict :=
  [ {[ "position_name" := PStr "Clerk" ]}; {[ "position_name" := PStr "Officer" ]} ].

(** * Properties *)

(** ** Python strings *)

Lemma truthy_true (s : string) : PyStr.truthy s = true ↔ s ≠ "".
Proof.
  unfold PyStr.truthy. rewrite negb_true_iff.
  destruct (String.eqb_spec s ""); split; congruence.
Qed.

Lemma truthy_false (s : string) : PyStr.truthy s = false ↔ s = "".
Proof.
  unfold PyStr.truthy. rewrite negb_false_iff. apply String.eqb_eq.
Qed.

(** ** The index of the fast matcher *)

Section Index.

Import Fast.

Lemma holding_elem i col key j :
  j ∈ holding i col key ↔ i ≤ j ∧ ∃ v, col !! (j - i) = Some v ∧ str_value v = key.
Proof.
  revert i. induction col as [|v col IH]; intros i; simpl.
  - split; [by intros ?%elem_of_nil | by intros (_ & v & ? & _)].
  - assert (Hrest : j ∈ holding (S i) col key ↔
              S i ≤ j ∧ ∃ w, (v :: col) !! (j - i) = Some w ∧ str_value w = key).
    { rewrite IH. split; intros (Hle & w & Hw & Hk); (split; [done|]); exists w;
        (split; [|done]).
      - replace (j - i) with (S (j - S i)) by lia. done.
      - replace (j - i) with (S (j - S i)) in Hw by lia. done. }
    case_bool_decide as Hv.
    + rewrite elem_of_cons, Hrest. split.
      * intros [->|(Hle & w & Hw & Hk)].
        -- split; [lia|]. exists v. by rewrite Nat.sub_diag.
        -- split; [lia|]. by exists w.
      * intros (Hle & w & Hw & Hk).
        destruct (decide (j = i)) as [->|Hne]; [by left|right].
        split; [lia|]. by exists w.
    + rewrite Hrest. split.
      * intros (Hle & w & Hw & Hk). split; [lia|]. by exists w.
      * intros (Hle & w & Hw & Hk).
        destruct (decide (j = i)) as [->|Hne].
        -- rewrite Nat.sub_diag in Hw. simpl in Hw. congruence.
        -- split; [lia|]. by exists w.
Qed.

Lemma holding_sorted i col key : StronglySorted lt (holding i col key).
Proof.
  revert i. induction col as [|v col IH]; intros i; simpl; [constructor|].
  case_bool_decide; [|apply IH].
  constructor; [apply IH|].
  apply Forall_forall. intros j Hj. apply holding_elem in Hj. lia.
Qed.

Lemma index_from_lookup i col (idx : gmap string (list nat)) key :
  key ≠ "" →
  index_from i col idx !! key =
    match holding i col key with
    | [] => idx !! key
    | l => Some (default [] (idx !! key) ++ l)
    end.
Proof.
  intros Hkey. revert i idx. induction col as [|v col IH]; intros i idx; simpl; [done|].
  rewrite IH. unfold index_add.
  destruct (PyStr.truthy (str_value v)) eqn:Ht.
  - case_bool_decide as Hv.
    + subst key. rewrite lookup_insert_eq. simpl.
      destruct (holding (S i) col (str_value v)); simpl; [done|].
      by rewrite <- app_assoc.
    + by rewrite lookup_insert_ne.
  - apply truthy_false in Ht. case_bool_decide; [congruence|done].
Qed.

Lemma index_from_blank i col (idx : gmap string (list nat)) :
  idx !! "" = None → index_from i col idx !! "" = None.
Proof.
  revert i idx. induction col as [|v col IH]; intros i idx Hidx; simpl; [done|].
  apply IH. unfold index_add.
  destruct (PyStr.truthy (str_value v)) eqn:Ht; [|done].
  apply truthy_true in Ht. by rewrite lookup_insert_ne.
Qed.

(** the lookup [self.interview_indices[int_col].get(key, [])] on a fresh index *)
Lemma index_column_get col key :
  key ≠ "" → default [] (index_column col !! key) = holding 0 col key.
Proof.
  intros Hkey. unfold index_column. rewrite index_from_lookup by done.
  rewrite lookup_empty. by destruct (holding 0 col key).
Qed.

Lemma build_indices_keeps m df (st : gmap string (gmap string (list nat))) int_col :
  has_column df int_col = true →
  st !! int_col = Some (index_column (column df int_col)) →
  build_indices m df st !! int_col = Some (index_column (column df int_col)).
Proof.
  intros Hcol. revert st. induction m as [|[pc ic] m IH]; intros st Hst; [done|].
  unfold build_indices. simpl. apply IH.
  destruct (has_column df ic) eqn:Hic; [|done].
  destruct (decide (ic = int_col)) as [->|Hne].
  - by rewrite lookup_insert_eq.
  - by rewrite lookup_insert_ne.
Qed.

Lemma build_indices_mapped m df (st : gmap string (gmap string (list nat))) int_col :
  int_col ∈ m.*2 → has_column df int_col = true →
  build_indices m df st !! int_col = Some (index_column (column df int_col)).
Proof.
  intros Hin Hcol. revert st. induction m as [|[pc ic] m IH]; intros st.
  - by apply elem_of_nil in Hin.
  - simpl in Hin. apply elem_of_cons in Hin as [<-|Hin].
    + change (build_indices ((pc, int_col) :: m) df st)
        with (build_indices m df
                (if has_column df int_col
                 then <[int_col := index_column (column df int_col)]> st else st)).
      rewrite Hcol. apply build_indices_keeps; [done|]. by rewrite lookup_insert_eq.
    + apply (IH Hin).
Qed.

Lemma build_indices_other m df (st : gmap string (gmap string (list nat))) c :
  has_column df c = false ∨ c ∉ m.*2 →
  build_indices m df st !! c = st !! c.
Proof.
  revert st. induction m as [|[pc ic] m IH]; intros st Hc; [done|].
  change (build_indices ((pc, ic) :: m) df st)
    with (build_indices m df
            (if has_column df ic
             then <[ic := index_column (column df ic)]> st else st)).
  rewrite IH.
  - destruct (has_column df ic) eqn:Hic; [|done].
    apply lookup_insert_ne. intros ->. destruct Hc as [Hc|Hc]; [congruence|].
    apply Hc. simpl. apply elem_of_cons. by left.
  - destruct Hc as [Hc|Hc]; [by left|right].
    intros Hin. apply Hc. simpl. apply elem_of_cons. by right.
Qed.

End Index.

Lemma holding_column df int_col key j :
  key ≠ "" → j ∈ holding 0 (column df int_col) key ↔ holds df int_col j key.
Proof.
  intros Hkey. rewrite holding_elem, Nat.sub_0_r. unfold column, holds.
  split.
  - intros (_ & v & Hv & Hk). rewrite list_lookup_fmap in Hv.
    destruct (rows df !! j) as [r|] eqn:Hr; [|done]. simpl in Hv.
    injection Hv as <-. exists r. split; [done|].
    unfold Fast.str_value in Hk. destruct (notna (cell_at r int_col)); [done|].
    congruence.
  - intros (r & Hr & Hn & Hk). split; [lia|]. exists (cell_at r int_col).
    rewrite list_lookup_fmap, Hr. split; [done|].
    unfold Fast.str_value. by rewrite Hn.
Qed.

(** C7. [build_indices], from any store, leaves for every mapped
    candidate column present in the frame an index that has no entry for
    the empty string and in which every other key is bound exactly when
    some row holds it as its trimmed, present value; the list bound to
    it is then the increasing list of exactly those row positions. *)
Theorem build_indices_index (m : mapping) (df : DataFrame)
    (st : gmap string (gmap string (list nat))) (pos_col int_col : string) :
  (pos_col, int_col) ∈ m →
  int_col ∈ columns df →
  ∃ idx : gmap string (list nat),
    Fast.build_indices m df st !! int_col = Some idx ∧
    idx !! "" = None ∧
    ∀ key, key ≠ "" →
      match idx !! key with
      | None => ∀ j, ¬ holds df int_col j key
      | Some l =>
          l ≠ [] ∧ StronglySorted lt l ∧ ∀ j, j ∈ l ↔ holds df int_col j key
      end.
Proof.
  intros Hm Hcol. exists (Fast.index_column (column df int_col)).
  split; [|split].
  - apply build_indices_mapped.
    + apply list_elem_of_fmap. by exists (pos_col, int_col).
    + unfold has_column. by apply bool_decide_eq_true.
  - unfold Fast.index_column. by apply index_from_blank.
  - intros key Hkey. unfold Fast.index_column.
    rewrite index_from_lookup by done. rewrite lookup_empty. simpl.
    pose proof (holding_sorted 0 (column df int_col) key) as Hs.
    pose proof (fun j => holding_column df int_col key j Hkey) as He.
    destruct (holding 0 (column df int_col) key) as [|i l] eqn:Hh.
    + intros j Hj. apply He in Hj. by apply elem_of_nil in Hj.
    + split; [done|]. split; [done|]. apply He.
Qed.

Lemma build_indices_index_witness :
  ∃ idx : gmap string (list nat),
    Fast.build_indices [("unit", "dept")] sample_frame ∅ !! "dept" = Some idx ∧
    idx !! "" = None ∧
    ∀ key, key ≠ "" →
      match idx !! key with
      | None => ∀ j, ¬ holds sample_frame "dept" j key
      | Some l =>
          l ≠ [] ∧ StronglySorted lt l ∧ ∀ j, j ∈ l ↔ holds sample_frame "dept" j key
      end.
Proof.
  apply (build_indices_index [("unit", "dept")] sample_frame ∅ "unit" "dept").
  - apply elem_of_cons. left. reflexivity.
  - simpl. apply elem_of_cons. left. reflexivity.
Defined.

Example index_of_sample :
  (Fast.index_column (column sample_frame "dept") !! "A",
   Fast.index_column (column sample_frame "dept") !! "B",
   Fast.index_column (column sample_frame "dept") !! " B ",
   Fast.index_column (column sample_frame "dept") !! "")
  = (Some [0; 2], Some [1], None, None).
Proof. vm_compute. reflexivity. Qed.

(** ** Frames *)

Lemma series_of_lookup df r c :
  series_of df r !! c = if has_column df c then Some (cell_at r c) else None.
Proof.
  unfold series_of, has_column. induction (columns df) as [|c' cs IH].
  - simpl. by rewrite lookup_empty.
  - rewrite fmap_cons, list_to_map_cons.
    destruct (decide (c' = c)) as [->|Hne].
    + rewrite lookup_insert_eq. rewrite bool_decide_eq_true_2; [done|].
      apply elem_of_cons. by left.
    + rewrite lookup_insert_ne by done. rewrite IH.
      case_bool_decide as H1; case_bool_decide as H2; try done.
      * exfalso. apply H2. apply elem_of_cons. by right.
      * exfalso. apply elem_of_cons in H2 as [?|?]; [congruence|done].
Qed.

Lemma records_lookup df j : records df !! j = series_of df <$> rows df !! j.
Proof. unfold records. apply list_lookup_fmap. Qed.

Lemma records_length df : length (records df) = length (rows df).
Proof. unfold records. apply length_fmap. Qed.

(** ** The two ways to select candidate rows *)

Section Selection.

Import Fast Configurable.

Lemma iloc_in_range df (l : list nat) :
  (∀ j, j ∈ l → j < length (rows df)) →
  iloc df l = Return (record_at df <$> l).
Proof.
  induction l as [|j l IH]; intros Hl; simpl; [done|].
  assert (Hj : j < length (records df)).
  { rewrite records_length. apply Hl. apply elem_of_cons. by left. }
  apply lookup_lt_is_Some_2 in Hj as [r Hr].
  unfold record_at at 1. rewrite Hr. simpl.
  rewrite IH; [done|]. intros k Hk. apply Hl. apply elem_of_cons. by right.
Qed.

(** a Series made from a list and labelled from [i] on *)
Lemma zip_seq_lookup {A : Type} (i : nat) (l : list A) (j : nat) :
  (list_to_map (zip (seq i (length l)) l) : gmap nat A) !! j
  = if decide (i ≤ j) then l !! (j - i) else None.
Proof.
  revert i. induction l as [|x l IH]; intros i.
  - simpl. rewrite lookup_empty. by case_decide.
  - cbn [length seq zip_with]. rewrite list_to_map_cons.
    destruct (decide (j = i)) as [->|Hne].
    + rewrite lookup_insert_eq, decide_True by lia. by rewrite Nat.sub_diag.
    + rewrite lookup_insert_ne by done. rewrite IH.
      destruct (decide (S i ≤ j)); destruct (decide (i ≤ j)); try lia; [|done].
      replace (j - i) with (S (j - S i)) by lia. done.
Qed.

Lemma all_true_from (i n j : nat) :
  (list_to_map ((fun l => (l, true)) <$> seq i n) : gmap nat bool) !! j
  = if decide (i ≤ j < i + n) then Some true else None.
Proof.
  revert i. induction n as [|n IH]; intros i.
  - simpl. rewrite lookup_empty. case_decide; [lia|done].
  - cbn [seq]. rewrite fmap_cons, list_to_map_cons.
    destruct (decide (j = i)) as [->|Hne].
    + rewrite lookup_insert_eq, decide_True by lia. done.
    + rewrite lookup_insert_ne by done. rewrite IH.
      destruct (decide (S i ≤ j < S i + n)); destruct (decide (i ≤ j < i + S n));
        try lia; done.
Qed.

Lemma all_true_lookup (n j : nat) :
  all_true n !! j = if decide (j < n) then Some true else None.
Proof.
  unfold all_true. rewrite all_true_from.
  destruct (decide (0 ≤ j < 0 + n)); destruct (decide (j < n)); try lia; done.
Qed.

Lemma mask_and_lookup (a b : gmap nat bool) j :
  mask_and a b !! j =
    match a !! j, b !! j with
    | Some u, Some v => Some (u && v)
    | None, None => None
    | _, _ => Some false
    end.
Proof. unfold mask_and. rewrite lookup_merge. by destruct (a !! j), (b !! j). Qed.

(** on the default labels the Series of a column is read by position *)
Lemma column_mask_default df int_col pv j :
  default_index df →
  column_mask df int_col pv !! j
  = (fun r => String.eqb (py_str (cell_at r int_col)) pv) <$> rows df !! j.
Proof.
  intros Hdf. unfold column_mask, column. rewrite Hdf.
  set (l := (fun c => String.eqb (py_str c) pv) <$> map (fun r => cell_at r int_col) (rows df)).
  assert (Hlen : length (rows df) = length l).
  { unfold l. by rewrite length_fmap, length_map. }
  rewrite Hlen, zip_seq_lookup, decide_True, Nat.sub_0_r by lia.
  unfold l. rewrite list_lookup_fmap.
  change (map (fun r => cell_at r int_col) (rows df))
    with ((fun r => cell_at r int_col) <$> rows df).
  rewrite list_lookup_fmap. by destruct (rows df !! j).
Qed.

Lemma column_mask_reads df int_col pv j :
  default_index df →
  column_mask df int_col pv !! j = Some true ↔ reads df int_col j pv.
Proof.
  intros Hdf. rewrite column_mask_default by done. unfold reads.
  destruct (rows df !! j) as [r|]; simpl.
  - split.
    + intros [= H%String.eqb_eq]. by exists r.
    + intros (r' & [= <-] & H). f_equal. by apply String.eqb_eq.
  - split; [done|]. by intros (? & ? & _).
Qed.

Lemma column_mask_dom df int_col pv j :
  default_index df →
  is_Some (column_mask df int_col pv !! j) ↔ j < length (rows df).
Proof.
  intros Hdf. rewrite column_mask_default by done.
  rewrite fmap_is_Some. apply lookup_lt_is_Some.
Qed.

(** the AND loop on the default labels: the mask keeps its labels, and a
    label stays set when the row there reads the text of every condition
    whose column the table has *)
Lemma apply_conditions_default df cs (mask : gmap nat bool) d :
  default_index df →
  (∀ j, is_Some (mask !! j) ↔ j < length (rows df)) →
  (∀ j, is_Some ((apply_conditions df cs mask d).1 !! j) ↔ j < length (rows df)) ∧
  ∀ j, (apply_conditions df cs mask d).1 !! j = Some true ↔
       mask !! j = Some true ∧
       Forall (fun '(int_col, pv) => has_column df int_col = true → reads df int_col j pv) cs.
Proof.
  intros Hdf. revert mask d. induction cs as [|[ic pv] cs IH]; intros mask d Hdom; simpl.
  - split; [done|]. intros j. rewrite Forall_nil. tauto.
  - destruct (has_column df ic) eqn:Hcol.
    + set (mask' := mask_and mask (column_mask df ic pv)).
      assert (Hdom' : ∀ j, is_Some (mask' !! j) ↔ j < length (rows df)).
      { intros j. unfold mask'. rewrite mask_and_lookup.
        pose proof (Hdom j) as H1. pose proof (column_mask_dom df ic pv j Hdf) as H2.
        assert (HS : ∀ x : bool, is_Some (Some x)) by (intros x; by exists x).
        assert (HN : ¬ is_Some (@None bool)) by (by intros [? ?]).
        destruct (mask !! j) as [u|], (column_mask df ic pv !! j) as [v|];
          first [ split; [intros _; first [apply H1, HS | apply H2, HS] | intros _; apply HS]
                | split; intros H; [by apply HN in H | apply H1 in H; by apply HN in H] ]. }
      destruct (IH mask' (<[String.append "exact_" ic
                              := mkDetail pv (mask_sum (column_mask df ic pv))
                                   (mask_sum mask')]> d) Hdom') as [Hd Hspec].
      split; [done|]. intros j. rewrite Hspec, Forall_cons.
      assert (Hm : mask' !! j = Some true ↔ mask !! j = Some true ∧ reads df ic j pv).
      { unfold mask'. rewrite mask_and_lookup, <- column_mask_reads by done.
        destruct (mask !! j) as [[]|]; destruct (column_mask df ic pv !! j) as [[]|];
          simpl; split; try done; try (by intros [? ?]). }
      rewrite Hm. tauto.
    + destruct (IH mask d Hdom) as [Hd Hspec]. split; [done|].
      intros j. rewrite Hspec, Forall_cons. split; [|tauto].
      intros [H1 H2]. split; [done|]. split; [intros; congruence|done].
Qed.

Lemma set_labels_elem (mask : gmap nat bool) i n j :
  j ∈ set_labels mask (seq i n) ↔ mask !! j = Some true ∧ i ≤ j < i + n.
Proof. unfold set_labels. by rewrite list_elem_of_filter, elem_of_seq. Qed.

Lemma set_labels_NoDup (mask : gmap nat bool) i n : NoDup (set_labels mask (seq i n)).
Proof. apply NoDup_filter, NoDup_seq. Qed.

Lemma select_from (mask : gmap nat bool) (rs : list row) (i : nat) :
  omap (fun '(l, r) => if default false (mask !! l) then Some r else None)
       (zip (seq i (length rs)) rs)
  = (fun j => default ∅ (rs !! (j - i))) <$> set_labels mask (seq i (length rs)).
Proof.
  revert i. induction rs as [|r rs IH]; intros i; [done|].
  cbn [length seq zip_with omap list_omap].
  assert (Hext : (fun j => default (∅ : row) (rs !! (j - S i)))
                   <$> set_labels mask (seq (S i) (length rs))
                 = (fun j => default ∅ ((r :: rs) !! (j - i)))
                   <$> set_labels mask (seq (S i) (length rs))).
  { apply Forall_fmap_ext_1, Forall_forall. intros j [_ Hj]%set_labels_elem.
    replace (j - i) with (S (j - S i)) by lia. done. }
  unfold set_labels at 1.
  destruct (mask !! i) as [[]|] eqn:Hi; simpl.
  - rewrite filter_cons_True by done. rewrite fmap_cons, Nat.sub_diag. simpl.
    f_equal. rewrite IH. exact Hext.
  - rewrite filter_cons_False by (rewrite Hi; congruence). rewrite IH. exact Hext.
  - rewrite filter_cons_False by (rewrite Hi; congruence). rewrite IH. exact Hext.
Qed.

(** [df[mask]] on the default labels, for a mask that has them all: the
    rows at the set labels, nothing raised *)
Lemma select_default df (mask : gmap nat bool) :
  default_index df →
  (∀ j, is_Some (mask !! j) ↔ j < length (rows df)) →
  select df mask
  = Return (record_at df <$> set_labels mask (seq 0 (length (rows df)))).
Proof.
  intros Hdf Hdom. unfold select. rewrite Hdf.
  assert (Hall : forallb (fun l => bool_decide (is_Some (mask !! l)))
                         (seq 0 (length (rows df))) = true).
  { apply forallb_forall. intros l Hl%list_elem_of_In%elem_of_seq.
    apply bool_decide_eq_true, Hdom. lia. }
  rewrite Hall. f_equal. rewrite <- records_length, select_from.
  apply Forall_fmap_ext_1, Forall_forall. intros j _.
  unfold record_at. by rewrite Nat.sub_0_r.
Qed.

End Selection.

(** ** Index lookup against direct filtering *)

Section Agreement.

Import Fast Configurable.

Variable df : DataFrame.
Variable st : gmap string (gmap string (list nat)).
Variable pos_row : row.

Lemma comparable_tail p m : comparable df st pos_row (p :: m) → comparable df st pos_row m.
Proof.
  intros H pc ic Hin. apply H. apply elem_of_cons. by right.
Qed.

Lemma conditions_tidy m cs :
  comparable df st pos_row m → conditions m pos_row = Return cs →
  Forall (fun '(int_col, pv) =>
            pv ≠ "" ∧ pv ≠ "nan" ∧ PyStr.strip pv = pv ∧
            has_column df int_col = true ∧
            ∀ r, r ∈ rows df → tidy_candidate_cell (cell_at r int_col)) cs.
Proof.
  revert cs. induction m as [|[pc ic] m IH]; intros cs Hm Hcs; simpl in Hcs.
  - injection Hcs as <-. constructor.
  - destruct (Hm pc ic) as ((v & Hv & Htidy) & Hcol & _ & Hcand);
      [apply elem_of_cons; by left|].
    rewrite Hv in Hcs.
    destruct (conditions m pos_row) as [cs'|e] eqn:Hcs'; simpl in Hcs; [|done].
    injection Hcs as <-.
    specialize (IH cs' (comparable_tail _ _ Hm) eq_refl).
    destruct (PyStr.truthy (if notna v then py_str v else "")) eqn:Ht; [|done].
    constructor; [|done].
    apply truthy_true in Ht.
    destruct Htidy as [->|(s & -> & Hs & Hnan)]; simpl in *; [done|].
    done.
Qed.

Lemma narrow_conditions m cand cs :
  comparable df st pos_row m → conditions m pos_row = Return cs →
  match cs with
  | [] => narrow st pos_row m cand = cand
  | _ =>
      ∃ c, narrow st pos_row m cand = Some c ∧
           ∀ j, j ∈ c ↔
                in_candidates cand j ∧
                Forall (fun '(int_col, pv) => holds df int_col j pv) cs
  end.
Proof.
  revert cand cs. induction m as [|[pc ic] m IH]; intros cand cs Hm Hcs; simpl in Hcs.
  - by injection Hcs as <-.
  - destruct (Hm pc ic) as ((v & Hv & Htidy) & Hcol & Hst & Hcand);
      [apply elem_of_cons; by left|].
    rewrite Hv in Hcs.
    destruct (conditions m pos_row) as [cs'|e] eqn:Hcs'; simpl in Hcs; [|done].
    injection Hcs as <-.
    pose proof (comparable_tail _ _ Hm) as Hm'.
    cbn [narrow]. unfold pos_value. rewrite Hv.
    change (default (Str "") (Some v)) with v.
    destruct Htidy as [->|(s & -> & Hs & Hnan)].
    { (* NaN: skipped by both *)
      simpl. apply (IH cand cs' Hm' eq_refl). }
    cbn [notna py_str]. rewrite Hs.
    destruct (PyStr.truthy s) eqn:Ht.
    2:{ (* the empty string: skipped by both *)
      unfold skipped. rewrite Ht. simpl. apply (IH cand cs' Hm' eq_refl). }
    assert (Hskip : skipped s = false).
    { unfold skipped. rewrite Ht. simpl. by apply String.eqb_neq. }
    rewrite Hskip, Hst.
    apply truthy_true in Ht.
    set (col := list_to_set (default [] (index_column (column df ic) !! s)) : gset nat).
    assert (Hcolspec : ∀ j, j ∈ col ↔ holds df ic j s).
    { intros j. unfold col. rewrite elem_of_list_to_set, index_column_get by done.
      by apply holding_column. }
    set (cand' := match cand with None => col | Some c => c ∩ col end).
    assert (Hcand' : ∀ j, j ∈ cand' ↔ in_candidates cand j ∧ holds df ic j s).
    { intros j. unfold cand'. destruct cand as [c|]; simpl.
      - rewrite elem_of_intersection, Hcolspec. done.
      - rewrite Hcolspec. tauto. }
    case_bool_decide as Hempty.
    + exists cand'. split; [done|]. intros j. split.
      * rewrite Hempty. by intros ?%not_elem_of_empty.
      * intros [Hin Hall]. apply Hcand'. split; [done|].
        by apply Forall_cons in Hall as [? _].
    + specialize (IH (Some cand') cs' Hm' eq_refl).
      destruct cs' as [|c0 cs'].
      * exists cand'. split; [done|]. intros j. rewrite Hcand'.
        rewrite Forall_cons, Forall_nil. tauto.
      * destruct IH as (c & Hc & Hspec). exists c. split; [done|].
        intros j. rewrite Hspec. simpl. rewrite Hcand'.
        rewrite (Forall_cons _ (ic, s)). tauto.
Qed.

(** on tidy cells, trimmed-and-present equality is plain text equality *)
Lemma holds_reads int_col j pv :
  pv ≠ "" → pv ≠ "nan" → PyStr.strip pv = pv →
  (∀ r, r ∈ rows df → tidy_candidate_cell (cell_at r int_col)) →
  holds df int_col j pv ↔ reads df int_col j pv.
Proof.
  intros H1 H2 H3 Htidy. unfold holds, reads. split.
  - intros (r & Hr & Hn & Hk). exists r. split; [done|].
    destruct (Htidy r) as [Hc|(s & Hc & Hs)]; [by eapply list_elem_of_lookup_2| |];
      rewrite Hc in *; simpl in *; congruence.
  - intros (r & Hr & Hk). exists r. split; [done|].
    destruct (Htidy r) as [Hc|(s & Hc & Hs)]; [by eapply list_elem_of_lookup_2| |];
      rewrite Hc in *; simpl in *; [congruence|]. split; congruence.
Qed.

End Agreement.

Section AgreementTheorem.

Import Fast Configurable.

Lemma conditions_total df st pos_row m :
  comparable df st pos_row m → ∃ cs, conditions m pos_row = Return cs.
Proof.
  induction m as [|[pc ic] m IH]; intros Hm; simpl; [by eexists|].
  destruct (Hm pc ic) as ((v & Hv & _) & _); [apply elem_of_cons; by left|].
  rewrite Hv. destruct (IH (comparable_tail _ _ _ _ _ Hm)) as [cs ->]. simpl.
  by eexists.
Qed.

(** C1, amended. When the candidate table has the default row labels,
    the index is the one [build_indices] makes for it, every mapped column
    exists on both sides, and every mapped cell is NaN or a text without
    surrounding whitespace (on the position side also different from
    "nan"), the indexed matcher and the filtering matcher return the same
    matched flag and the same candidate rows up to their order, in
    whatever order the set of row positions is listed. *)
Theorem indexed_agrees_with_filtering (set_order : gset nat → list nat)
    (m : mapping) (df : DataFrame) (pos_row : row) :
  lists_members set_order →
  default_index df →
  (∀ pos_col int_col, (pos_col, int_col) ∈ m →
     (∃ v, pos_row !! pos_col = Some v ∧ tidy_position_cell v) ∧
     int_col ∈ columns df ∧
     (∀ r, r ∈ rows df → tidy_candidate_cell (cell_at r int_col))) →
  ∃ rf rc,
    match_single_position_fast set_order (build_indices m df ∅) m pos_row df = Return rf ∧
    find_matches_for_position m pos_row df = Return rc ∧
    Fast.matched rf = Configurable.matched rc ∧
    Fast.interview_rows rf ≡ₚ Configurable.interview_rows rc.
Proof.
  intros Horder Hdf H.
  assert (Hm : comparable df (build_indices m df ∅) pos_row m).
  { intros pc ic Hin. destruct (H pc ic Hin) as (Hv & Hcol & Hcand).
    assert (Hhas : has_column df ic = true) by by apply bool_decide_eq_true.
    repeat split; try done.
    apply build_indices_mapped; [|done].
    apply list_elem_of_fmap. by exists (pc, ic). }
  destruct (conditions_total _ _ _ _ Hm) as [cs Hcs].
  pose proof (narrow_conditions _ _ _ m None cs Hm Hcs) as Hnarrow.
  pose proof (conditions_tidy _ _ _ m cs Hm Hcs) as Htidy.
  unfold match_single_position_fast, find_matches_for_position.
  rewrite Hcs. simpl.
  destruct cs as [|c0 cs'].
  { rewrite Hnarrow. eexists _, _. repeat split; done. }
  set (cs := c0 :: cs') in *.
  destruct Hnarrow as (c & -> & Hc).
  destruct (apply_conditions df cs (all_true (length (rows df))) ∅)
    as [mask d] eqn:Happ.
  destruct (apply_conditions_default df cs (all_true (length (rows df))) ∅ Hdf)
    as [Hdom Hmask].
  { intros j. rewrite all_true_lookup. case_decide; split; try done; try lia. }
  rewrite Happ in Hdom, Hmask. simpl in Hdom, Hmask.
  rewrite (select_default df mask Hdf Hdom).
  set (tp := set_labels mask (seq 0 (length (rows df)))).
  assert (Hsame : ∀ j, j ∈ elements c ↔ j ∈ tp).
  { intros j. unfold tp.
    rewrite elem_of_elements, Hc, set_labels_elem, Hmask, all_true_lookup. simpl.
    assert (Hall : Forall (fun '(ic, pv) => holds df ic j pv) cs ↔
                   Forall (fun '(ic, pv) => has_column df ic = true → reads df ic j pv) cs).
    { clear -Htidy. induction Htidy as [|[ic pv] l (H1 & H2 & H3 & Hcol & H4) _ IH].
      - by rewrite !Forall_nil.
      - rewrite !Forall_cons, IH, (holds_reads df ic j pv H1 H2 H3 H4). tauto. }
    rewrite Hall. split.
    - intros [_ Hr].
      assert (Hj : j < length (rows df)).
      { unfold cs in Hr. apply Forall_cons in Hr as [Hr _]. destruct c0 as [ic pv].
        unfold cs in Htidy. apply Forall_cons in Htidy as [(_ & _ & _ & Hcol & _) _].
        destruct (Hr Hcol) as (r & Hr' & _). by apply lookup_lt_Some in Hr'. }
      rewrite decide_True by done. split; [done|lia].
    - intros [[_ Hr] _]. done. }
  assert (Hperm : set_order c ≡ₚ tp).
  { rewrite (Horder c).
    apply NoDup_Permutation; [apply NoDup_elements|apply set_labels_NoDup|done]. }
  case_bool_decide as Hempty.
  - assert (Htp : tp = []).
    { apply Permutation_nil_r. rewrite <- Hperm, (Horder c), Hempty.
      by rewrite elements_empty. }
    rewrite Htp. simpl. eexists _, _. repeat split; done.
  - rewrite iloc_in_range.
    2:{ intros j Hj. rewrite Hperm in Hj. unfold tp in Hj.
        apply set_labels_elem in Hj. lia. }
    simpl.
    destruct tp as [|j0 tp'] eqn:Htp.
    { exfalso. apply Hempty. apply Permutation_nil_r in Hperm.
      pose proof (Horder c) as Ho. rewrite Hperm in Ho. symmetry in Ho.
      apply Permutation_nil_r in Ho.
      by apply elements_empty_inv, leibniz_equiv in Ho. }
    simpl. eexists _, _. split; [done|]. split; [done|]. simpl. split.
    + done.
    + change (record_at df <$> set_order c ≡ₚ record_at df <$> (j0 :: tp')).
      by rewrite Hperm.
Qed.

End AgreementTheorem.

Lemma indexed_agrees_with_filtering_witness :
  ∃ rf rc,
    Fast.match_single_position_fast elements
      (Fast.build_indices [("unit", "dept")] one_unit ∅) [("unit", "dept")]
      {[ "unit" := Str "A" ]} one_unit = Return rf ∧
    Configurable.find_matches_for_position [("unit", "dept")]
      {[ "unit" := Str "A" ]} one_unit = Return rc ∧
    Fast.matched rf = Configurable.matched rc ∧
    Fast.interview_rows rf ≡ₚ Configurable.interview_rows rc.
Proof.
  apply (indexed_agrees_with_filtering elements [("unit", "dept")] one_unit
           {[ "unit" := Str "A" ]}).
  - intros c. reflexivity.
  - reflexivity.
  - intros pc ic [[= -> ->]|Hin%elem_of_nil]%elem_of_cons; [|done].
    split; [|split].
    + exists (Str "A"). split; [reflexivity|]. right. exists "A".
      split; [reflexivity|]. split; [reflexivity|]. discriminate.
    + simpl. apply elem_of_cons. left. reflexivity.
    + intros r [->|Hin%elem_of_nil]%elem_of_cons; [|done].
      right. exists "A". split; reflexivity.
Defined.

(** C1 as stated fails: a position value with a trailing blank is trimmed
    by the indexed matcher and compared as it is by the filtering matcher. *)
Lemma indexed_differs_from_filtering :
  ∃ rf rc,
    Fast.match_single_position_fast elements
      (Fast.build_indices [("unit", "dept")] one_unit ∅) [("unit", "dept")]
      {[ "unit" := Str "A " ]} one_unit = Return rf ∧
    Configurable.find_matches_for_position [("unit", "dept")]
      {[ "unit" := Str "A " ]} one_unit = Return rc ∧
    Fast.matched rf = true ∧ length (Fast.interview_rows rf) = 1 ∧
    Configurable.matched rc = false ∧ Configurable.interview_rows rc = [].
Proof.
  eexists _, _. split; [vm_compute; reflexivity|].
  split; [vm_compute; reflexivity|]. repeat split.
Qed.

(** the same on a table that lost its second row to [dropna]: the rows
    keep the labels 0 and 2, the filtering matcher passes by the row
    labelled 2, and the indexed matcher, which goes by position, finds it *)
Example gapped_labels_differ :
  let df := mkFrame ["dept"] [0; 2] [ {[ "dept" := Str "B" ]}; {[ "dept" := Str "A" ]} ] in
  ∃ rf rc,
    Fast.match_single_position_fast elements
      (Fast.build_indices [("unit", "dept")] df ∅) [("unit", "dept")]
      {[ "unit" := Str "A" ]} df = Return rf ∧
    Configurable.find_matches_for_position [("unit", "dept")]
      {[ "unit" := Str "A" ]} df = Return rc ∧
    Fast.matched rf = true ∧ Configurable.matched rc = false ∧
    Configurable.details rc = Configurable.NoMatch 1 [("dept", "A")].
Proof.
  eexists _, _. split; [vm_compute; reflexivity|].
  split; [vm_compute; reflexivity|]. repeat split.
Qed.

(** ** Positions without conditions *)

Lemma conditions_blank (m : mapping) (pos_row : row) :
  (∀ pos_col int_col, (pos_col, int_col) ∈ m →
     ∃ v, pos_row !! pos_col = Some v ∧ blank_cell v) →
  Configurable.conditions m pos_row = Return [].
Proof.
  induction m as [|[pc ic] m IH]; intros H; simpl; [done|].
  destruct (H pc ic) as (v & -> & Hv); [apply elem_of_cons; by left|].
  rewrite IH.
  - simpl. destruct Hv as [Hv| ->]; [by rewrite Hv|done].
  - intros pc' ic' Hin. apply (H pc' ic'). apply elem_of_cons. by right.
Qed.

(** C2, amended. A position whose mapped cells are all missing (NaN,
    None) or the empty text gets, from the configurable matcher, a
    returned (not raised) unmatched result with score 0.0, no candidate
    rows and the 'no conditions' detail, which is not the detail of a
    search that found nothing. *)
Theorem blank_position_has_no_conditions (m : mapping) (pos_row : row) (df : DataFrame) :
  (∀ pos_col int_col, (pos_col, int_col) ∈ m →
     ∃ v, pos_row !! pos_col = Some v ∧ blank_cell v) →
  Configurable.find_matches_for_position m pos_row df
    = Return (Configurable.mkResult pos_row [] 0 Configurable.NoConditions false) ∧
  ∀ n cs, Configurable.NoConditions ≠ Configurable.NoMatch n cs.
Proof.
  intros H. split; [|done].
  unfold Configurable.find_matches_for_position.
  by rewrite (conditions_blank m pos_row H).
Qed.

Lemma blank_position_has_no_conditions_witness :
  Configurable.find_matches_for_position unit_code blank_row one_unit
    = Return (Configurable.mkResult blank_row [] 0 Configurable.NoConditions false) ∧
  ∀ n cs, Configurable.NoConditions ≠ Configurable.NoMatch n cs.
Proof.
  apply (blank_position_has_no_conditions unit_code blank_row one_unit).
  intros pc ic [[= -> ->]|[[= -> ->]|Hin%elem_of_nil]%elem_of_cons]%elem_of_cons;
    [| |done].
  - exists NaN. split; [reflexivity|]. left. reflexivity.
  - exists (Str ""). split; [reflexivity|]. right. reflexivity.
Defined.

(** C2 as stated fails: a mapped value that is blank text (one space) is
    not taken for blank by the configurable matcher, which compares the
    cell untrimmed: the condition is built, and the search that finds
    nothing ends in the 'no_match' detail with one condition checked. *)
Lemma whitespace_position_has_conditions :
  Configurable.find_matches_for_position [("unit", "dept")]
    {[ "unit" := Str " " ]} one_unit
  = Return (Configurable.mkResult {[ "unit" := Str " " ]} [] 0
              (Configurable.NoMatch 1 [("dept", " ")]) false) ∧
  Configurable.NoMatch 1 [("dept", " ")] ≠ Configurable.NoConditions.
Proof. split; [vm_compute; reflexivity|discriminate]. Qed.

(** and a candidate whose cell is the same blank text is then a match *)
Example whitespace_position_matches_whitespace :
  ∃ rc,
    Configurable.find_matches_for_position [("unit", "dept")] {[ "unit" := Str " " ]}
      (frame ["dept"] [ {[ "dept" := Str " " ]} ]) = Return rc ∧
    Configurable.matched rc = true ∧ length (Configurable.interview_rows rc) = 1.
Proof. eexists. split; [vm_compute; reflexivity|]. split; reflexivity. Qed.

(** X15. The detail of a search that found nothing comes with at least one
    condition checked *)
Lemma no_match_has_conditions m pos_row df r n cs :
  Configurable.find_matches_for_position m pos_row df = Return r →
  Configurable.details r = Configurable.NoMatch n cs →
  0 < n ∧ n = length cs ∧ Configurable.conditions m pos_row = Return cs.
Proof.
  unfold Configurable.find_matches_for_position.
  destruct (Configurable.conditions m pos_row) as [cs0|e]; simpl; [|done].
  destruct cs0 as [|c0 cs0]; [by intros [= <-]|].
  destruct (Configurable.apply_conditions _ _ _ _) as [mask d].
  destruct (Configurable.select df mask) as [[|r0 rs]|e]; intros [= <-]; simpl;
    [|done|done].
  intros [= <- <-]. simpl. split; [lia|done].
Qed.

(** X9. The fast matcher on position cells that it skips: absent, NaN, or
    blank after trimming *)
Lemma fast_skips_blank set_order st (m : mapping) (pos_row : row) df :
  (∀ pos_col int_col, (pos_col, int_col) ∈ m →
     Fast.skipped (Fast.pos_value pos_row pos_col) = true) →
  Fast.match_single_position_fast set_order st m pos_row df
    = Return (Fast.mkFastResult pos_row [] 0 false).
Proof.
  intros H. unfold Fast.match_single_position_fast.
  assert (Hn : ∀ cand, Fast.narrow st pos_row m cand = cand).
  { induction m as [|[pc ic] m IH]; intros cand; simpl; [done|].
    rewrite (H pc ic) by (apply elem_of_cons; by left).
    apply IH. intros pc' ic' Hin. apply (H pc' ic'). apply elem_of_cons. by right. }
  by rewrite Hn.
Qed.

(** ** The constructor of the configurable matcher *)

Lemma validate_entries_raises (m : mapping) pos_col int_col :
  (pos_col, int_col) ∈ m → pos_col = "" ∨ int_col = "" →
  ∃ why, Configurable.validate_entries m
         = Raise (ConfigurableDataMatchingError why).
Proof.
  intros Hin Hbad. induction m as [|[pc ic] m IH]; [by apply elem_of_nil in Hin|].
  simpl. destruct (negb (PyStr.truthy pc) || negb (PyStr.truthy ic)) eqn:Hb.
  - by eexists.
  - apply elem_of_cons in Hin as [[= <- <-]|Hin]; [|by apply IH].
    apply orb_false_iff in Hb as [H1 H2].
    apply negb_false_iff, truthy_true in H1, H2. destruct Hbad; congruence.
Qed.

Lemma validate_entries_returns (m : mapping) :
  (∀ pos_col int_col, (pos_col, int_col) ∈ m → pos_col ≠ "" ∧ int_col ≠ "") →
  Configurable.validate_entries m = Return tt.
Proof.
  induction m as [|[pc ic] m IH]; intros H; simpl; [done|].
  destruct (H pc ic) as [H1 H2]; [apply elem_of_cons; by left|].
  apply truthy_true in H1, H2. rewrite H1, H2. simpl.
  apply IH. intros pc' ic' Hin. apply H. apply elem_of_cons. by right.
Qed.

(** C6. The constructor of the configurable matcher raises its
    configuration error on an empty mapping and on a mapping with an
    entry whose key or value is empty, and the match-result list it had
    set up by then is empty. *)
Theorem init_rejects_bad_mapping (m : mapping) (threshold : float) :
  m = [] ∨ (∃ pos_col int_col, (pos_col, int_col) ∈ m ∧ (pos_col = "" ∨ int_col = "")) →
  (∃ why, (Configurable.init m threshold).2
          = Raise (ConfigurableDataMatchingError why)) ∧
  Configurable.match_results (Configurable.init m threshold).1 = [].
Proof.
  intros H. split; [|done]. unfold Configurable.init. simpl.
  destruct H as [->|(pc & ic & Hin & Hbad)].
  - by eexists.
  - unfold Configurable.validate_column_mappings.
    destruct m as [|p m]; [by eexists|].
    by apply (validate_entries_raises (p :: m) pc ic).
Qed.

Lemma init_rejects_bad_mapping_witness :
  (∃ why, (Configurable.init [("unit", "dept"); ("code", "")] 0.8).2
          = Raise (ConfigurableDataMatchingError why)) ∧
  Configurable.match_results (Configurable.init [("unit", "dept"); ("code", "")] 0.8).1 = [].
Proof.
  apply (init_rejects_bad_mapping [("unit", "dept"); ("code", "")] 0.8%float).
  right. exists "code", "". split; [|right; reflexivity].
  apply elem_of_cons. right. apply elem_of_cons. left. reflexivity.
Defined.

(** X16. A mapping with entries, all of them with a key and a value, is accepted *)
Lemma init_accepts_good_mapping (m : mapping) (threshold : float) :
  m ≠ [] →
  (∀ pos_col int_col, (pos_col, int_col) ∈ m → pos_col ≠ "" ∧ int_col ≠ "") →
  Configurable.init m threshold = (Configurable.mkMatcher m threshold [], Return tt).
Proof.
  intros Hne H. unfold Configurable.init, Configurable.validate_column_mappings.
  destruct m as [|p m]; [done|]. by rewrite validate_entries_returns.
Qed.

(** ** The index store of the fast matcher *)

Lemma take_batches {A : Type} (n : nat) (l : list A) (k : nat) :
  flat_map (Fast.batch n l) (seq 0 k) = take (k * n) l.
Proof.
  induction k as [|k IH]; [done|].
  rewrite seq_S, flat_map_app, IH. simpl. rewrite app_nil_r.
  unfold Fast.batch. rewrite take_take_drop. f_equal. lia.
Qed.

(** the batches visit every row once, in order *)
Lemma batched_all {A : Type} (n : nat) (l : list A) : 0 < n → Fast.batched n l = l.
Proof.
  intros Hn. unfold Fast.batched. rewrite take_batches. apply take_ge.
  pose proof (Nat.div_mod_eq (length l + n - 1) n) as Hd.
  pose proof (Nat.mod_upper_bound (length l + n - 1) n) as Hm.
  nia.
Qed.

Lemma build_indices_nonempty m df (st : gmap string (gmap string (list nat))) :
  st ≠ ∅ → Fast.build_indices m df st ≠ ∅.
Proof.
  revert st. induction m as [|[pc ic] m IH]; intros st Hst; [done|].
  apply IH. destruct (has_column df ic); [|done]. apply insert_non_empty.
Qed.

Lemma iloc_raises df (l : list nat) e : Fast.iloc df l = Raise e → e = IndexError.
Proof.
  induction l as [|j l IH]; simpl; [done|].
  destruct (records df !! j); [|by intros [= <-]].
  destruct (Fast.iloc df l) as [rs|e']; simpl; [done|].
  intros [= <-]. by apply IH.
Qed.

Lemma iloc_out_of_range df (l : list nat) :
  (∃ j, j ∈ l ∧ length (rows df) ≤ j) → Fast.iloc df l = Raise IndexError.
Proof.
  induction l as [|k l IH]; intros (j & Hj & Hle); simpl.
  - by apply elem_of_nil in Hj.
  - destruct (records df !! k) as [r|] eqn:Hk; [|done].
    apply elem_of_cons in Hj as [->|Hj].
    + apply lookup_lt_Some in Hk. rewrite records_length in Hk. lia.
    + rewrite IH; [done|]. by exists j.
Qed.

(** X3's equation, for the proofs below *)
Lemma foldl_meet_empty (sets : list (gset nat)) : foldl (∩) ∅ sets = ∅.
Proof.
  induction sets as [|s sets IH]; simpl; [done|].
  by rewrite (left_absorb_L ∅ (∩)).
Qed.

Lemma narrow_from st pos_row (m : mapping) (c : gset nat) :
  Fast.narrow st pos_row m (Some c) = Some (foldl (∩) c (active_sets st pos_row m)).
Proof.
  revert c. induction m as [|[pc ic] m IH]; intros c; simpl; [done|].
  destruct (Fast.skipped (Fast.pos_value pos_row pc)); [apply IH|].
  destruct (st !! ic) as [idx|]; [|apply IH]. simpl.
  case_bool_decide as He; [|apply IH].
  by rewrite He, foldl_meet_empty.
Qed.

Lemma narrow_meet st pos_row (m : mapping) :
  Fast.narrow st pos_row m None = meet (active_sets st pos_row m).
Proof.
  induction m as [|[pc ic] m IH]; simpl; [done|].
  destruct (Fast.skipped (Fast.pos_value pos_row pc)); [apply IH|].
  destruct (st !! ic) as [idx|]; [|apply IH]. simpl.
  case_bool_decide as He; [|apply narrow_from].
  by rewrite He, foldl_meet_empty.
Qed.

(** the loop over the position rows: a result for each row, or the
    exception of a row *)
Lemma match_rows_each set_order st m df ps :
  match Fast.match_rows set_order st m df ps with
  | Return rs =>
      Forall2 (fun pos_row r =>
                 Fast.match_single_position_fast set_order st m pos_row df = Return r)
              ps rs
  | Raise e =>
      ∃ pos_row, pos_row ∈ ps ∧
        Fast.match_single_position_fast set_order st m pos_row df = Raise e
  end.
Proof.
  induction ps as [|p ps IH]; simpl; [constructor|].
  destruct (Fast.match_single_position_fast set_order st m p df) as [r|e] eqn:Hr; simpl.
  - destruct (Fast.match_rows set_order st m df ps) as [rs|e]; simpl.
    + by constructor.
    + destruct IH as (q & Hq & He). exists q. split; [|done].
      apply elem_of_cons. by right.
  - exists p. split; [|done]. apply elem_of_cons. by left.
Qed.

(** C10. On a store that is not empty [match_data_fast] leaves the store
    as it is and matches every position row against that store, whatever
    candidate table it is given: the results are, row by row, those of
    [_match_single_position_fast] on the store as it was, and an
    exception is that of one of the rows. A position whose conditions
    meet in a stored set of row positions that is not empty gets the rows
    of the given table at these positions, in the order the set is
    listed, and IndexError when the table has no row at one of them.
    [build_indices] never empties a store; [clear_indices] does. *)
Theorem stale_index_is_reused (set_order : gset nat → list nat)
    (st : gmap string (gmap string (list nat)))
    (m : mapping) (position_df interview_df : DataFrame) :
  lists_members set_order →
  st ≠ ∅ →
  (Fast.match_data_fast set_order st m position_df interview_df).1 = st ∧
  match (Fast.match_data_fast set_order st m position_df interview_df).2 with
  | Return (rs, _) =>
      Forall2 (fun pos_row r =>
                 Fast.match_single_position_fast set_order st m pos_row interview_df
                 = Return r)
              (records position_df) rs
  | Raise e =>
      ∃ pos_row, pos_row ∈ records position_df ∧
        Fast.match_single_position_fast set_order st m pos_row interview_df = Raise e
  end ∧
  (∀ pos_row c,
     meet (active_sets st pos_row m) = Some c → c ≠ ∅ →
     ((∀ j, j ∈ c → j < length (rows interview_df)) →
      Fast.match_single_position_fast set_order st m pos_row interview_df
        = Return (Fast.mkFastResult pos_row (record_at interview_df <$> set_order c)
                    1 true)) ∧
     ((∃ j, j ∈ c ∧ length (rows interview_df) ≤ j) →
      Fast.match_single_position_fast set_order st m pos_row interview_df
        = Raise IndexError)) ∧
  (∀ m' df', Fast.build_indices m' df' st ≠ ∅) ∧
  Fast.clear_indices st = ∅.
Proof.
  intros Horder Hst. unfold Fast.match_data_fast.
  rewrite bool_decide_eq_false_2 by done. simpl.
  rewrite batched_all by lia.
  split; [done|]. split; [|split; [|split; [|done]]].
  - pose proof (match_rows_each set_order st m interview_df (records position_df)) as H.
    by destruct (Fast.match_rows set_order st m interview_df (records position_df)).
  - intros pos_row c Hc Hne. unfold Fast.match_single_position_fast.
    rewrite narrow_meet, Hc, bool_decide_eq_false_2 by done. split.
    + intros Hrange. rewrite iloc_in_range; [done|].
      intros j Hj. apply Hrange. rewrite (Horder c) in Hj. by apply elem_of_elements.
    + intros (j & Hj & Hle). rewrite iloc_out_of_range; [done|].
      exists j. split; [|done]. rewrite (Horder c). by apply elem_of_elements.
  - intros m' df'. by apply build_indices_nonempty.
Qed.

Lemma stale_index_is_reused_witness :
  let st := Fast.build_indices unit_code one_unit ∅ in
  (Fast.match_data_fast elements st unit_code two_positions other_units).1 = st ∧
  match (Fast.match_data_fast elements st unit_code two_positions other_units).2 with
  | Return (rs, _) =>
      Forall2 (fun pos_row r =>
                 Fast.match_single_position_fast elements st unit_code pos_row other_units
                 = Return r)
              (records two_positions) rs
  | Raise e =>
      ∃ pos_row, pos_row ∈ records two_positions ∧
        Fast.match_single_position_fast elements st unit_code pos_row other_units = Raise e
  end ∧
  (∀ pos_row c,
     meet (active_sets st pos_row unit_code) = Some c → c ≠ ∅ →
     ((∀ j, j ∈ c → j < length (rows other_units)) →
      Fast.match_single_position_fast elements st unit_code pos_row other_units
        = Return (Fast.mkFastResult pos_row (record_at other_units <$> elements c)
                    1 true)) ∧
     ((∃ j, j ∈ c ∧ length (rows other_units) ≤ j) →
      Fast.match_single_position_fast elements st unit_code pos_row other_units
        = Raise IndexError)) ∧
  (∀ m' df', Fast.build_indices m' df' st ≠ ∅) ∧
  Fast.clear_indices st = ∅.
Proof.
  intros st.
  apply (stale_index_is_reused elements st unit_code two_positions other_units).
  - intros c. reflexivity.
  - intros H. apply (f_equal (fun s => bool_decide (s = ∅))) in H.
    vm_compute in H. discriminate H.
Defined.

(** the index of [one_unit] used on [other_units]: the position A/x is
    given row 0 of the new table, which is B/y *)
Example stale_index_wrong_row :
  ∃ r rest stats,
    (Fast.match_data_fast elements (Fast.build_indices unit_code one_unit ∅) unit_code
       two_positions other_units).2 = Return (r :: rest, stats) ∧
    Fast.matched r = true ∧
    (fun row => cell_at row "dept") <$> Fast.interview_rows r = [Str "B"].
Proof.
  eexists _, _, _. split; [vm_compute; reflexivity|]. split; reflexivity.
Qed.

(** a stored position past the last row of the given table makes the
    match raise *)
Example stale_index_out_of_range :
  (Fast.match_data_fast elements (Fast.build_indices unit_code other_units ∅)
     [("unit", "dept")] two_positions one_unit).2 = Raise IndexError.
Proof. vm_compute. reflexivity. Qed.

(** ** Running a matcher twice *)

Lemma match_data_mappings self position_df interview_df :
  Configurable.column_mappings (Configurable.match_data self position_df interview_df).1
    = Configurable.column_mappings self ∧
  Configurable.fuzzy_threshold (Configurable.match_data self position_df interview_df).1
    = Configurable.fuzzy_threshold self.
Proof.
  unfold Configurable.match_data.
  destruct (Configurable.validate_columns_exist _ _ _); [|done].
  destruct (Configurable.match_loop _ _ _ _) as [results [|]]; done.
Qed.

(** C8. A second run of the full match operation on the same tables
    returns what the first run returned (the same results with their
    flags, scores and candidate rows, or the same exception) and leaves
    the matcher as the first run left it: for the fast matcher from any
    index store and under any one order of listing a set of row
    positions, for the configurable matcher from any earlier results,
    and for the legacy matcher under any one order of listing the set of
    candidate position names. *)
Theorem match_twice_same_results :
  (∀ set_order st m position_df interview_df,
     let '(o1, o2, st1, st2) := fast_twice set_order st m position_df interview_df in
     o1 = o2 ∧ st1 = st2) ∧
  (∀ self position_df interview_df,
     let '(o1, o2, self1, self2) := configurable_twice self position_df interview_df in
     o1 = o2 ∧ self1 = self2) ∧
  (∀ unicode_lower clean_position_name ratio fuzzy_threshold set_order self
     position_data interview_data,
     let '(seen1, o1, seen2, o2, self1, self2) :=
       legacy_twice unicode_lower clean_position_name ratio fuzzy_threshold set_order self
         position_data interview_data in
     seen1 = seen2 ∧ o1 = o2 ∧ self1 = self2).
Proof.
  split; [|split].
  - intros order st m pdf df. unfold fast_twice, Fast.match_data_fast.
    case_bool_decide as Hst.
    + subst st. destruct (decide (Fast.build_indices m df ∅ = ∅)) as [Hb|Hb].
      * rewrite bool_decide_eq_true_2 by done. by rewrite !Hb.
      * by rewrite bool_decide_eq_false_2.
    + by rewrite bool_decide_eq_false_2.
  - intros self pdf df. unfold configurable_twice.
    destruct (match_data_mappings self pdf df) as [Hm Ht].
    destruct (Configurable.match_data self pdf df) as [self1 o1] eqn:H1.
    simpl in Hm, Ht.
    unfold Configurable.match_data in *. rewrite Hm, Ht.
    destruct (Configurable.validate_columns_exist _ _ _).
    + destruct (Configurable.match_loop _ _ _ _) as [results [|]];
        by injection H1 as <- <-.
    + by injection H1 as <- <-.
  - intros lower clean ratio thr order self pd id.
    unfold legacy_twice, Legacy.match_positions.
    destruct (Legacy.validate_input_data pd id); [|done].
    destruct (Legacy.extract_interview_positions order id) as [ips|]; [|done].
    destruct (Legacy.positions_loop _ _ _ _ _ _ _ _) as [[self' seen] [|]]; done.
Qed.

(** ** The tiers of the legacy matcher *)

Section Tiers.

Import Legacy.

Variable unicode_lower : string -> string.
Variable clean_position_name : string -> string.
Variable ratio : string -> string -> float.
Variable fuzzy_threshold : float.

Lemma find_elem {A : Type} (f : A → bool) (l : list A) x :
  find f l = Some x → x ∈ l ∧ f x = true.
Proof. intros [H1 H2]%find_some. split; [by apply list_elem_of_In|done]. Qed.

Lemma find_no_elem {A : Type} (f : A → bool) (l : list A) :
  find f l = None → ∀ x, x ∈ l → f x = false.
Proof. intros H x Hx%list_elem_of_In. by apply (find_none f l H). Qed.

Lemma exact_match_some name ips ip :
  exact_match unicode_lower name ips = Some ip → ip ∈ ips ∧ exact_for unicode_lower name ip.
Proof.
  unfold exact_match, exact_for. case_bool_decide as Hin.
  - intros [= <-]. split; [done|by left].
  - destruct (find _ ips) as [ip'|] eqn:Hlow.
    + intros [= <-]. apply find_elem in Hlow as [? ?%String.eqb_eq]. auto.
    + intros [? ?%String.eqb_eq]%find_elem. auto.
Qed.

Lemma exact_match_none name ips :
  exact_match unicode_lower name ips = None → ¬ has_exact unicode_lower name ips.
Proof.
  unfold exact_match. case_bool_decide as Hin; [done|].
  destruct (find _ ips) as [ip'|] eqn:Hlow; [done|].
  intros Hsp (ip & Hip & [->|[Hl|Hs]]); [done| |].
  - apply (find_no_elem _ _ Hlow) in Hip. apply String.eqb_neq in Hip. done.
  - apply (find_no_elem _ _ Hsp) in Hip. apply String.eqb_neq in Hip. done.
Qed.

Lemma code_match_some code ips ip :
  code_match code ips = Some ip →
  code ≠ "" ∧ ip ∈ ips ∧ PyStr.contains code ip = true.
Proof.
  unfold code_match. destruct (PyStr.truthy code) eqn:Ht; simpl; [|done].
  intros [? ?]%find_elem. by apply truthy_true in Ht.
Qed.

Lemma code_match_none code ips :
  code_match code ips = None → ¬ has_code code ips.
Proof.
  unfold code_match. intros H (Hne & ip & Hip & Hc).
  apply truthy_true in Hne. rewrite Hne in H. simpl in H.
  apply (find_no_elem _ _ H) in Hip. congruence.
Qed.

Lemma fuzzy_loop_elem cp ips best o r :
  fuzzy_loop clean_position_name ratio cp ips best = (o, r) →
  o = best.1 ∨ ∃ ip, o = Some ip ∧ ip ∈ ips.
Proof.
  revert best. induction ips as [|ip ips IH]; intros best H; simpl in H.
  - left. by rewrite H.
  - apply IH in H as [->|(ip' & -> & Hin)].
    + destruct (PrimFloat.ltb _ _); [|by left].
      right. exists ip. split; [done|]. apply elem_of_cons. by left.
    + right. exists ip'. split; [done|]. apply elem_of_cons. by right.
Qed.

Lemma truthy_opt_elem (o : option string) (ips : list string) :
  "" ∉ ips → (∀ ip, o = Some ip → ip ∈ ips) →
  truthy_opt o = match o with Some _ => true | None => false end.
Proof.
  intros Hne Hin. destruct o as [ip|]; [|done]. simpl.
  apply truthy_true. intros ->. apply Hne. by apply Hin.
Qed.

(** closes the cases of a tier that the hypotheses at hand rule out *)
Ltac tier :=
  intros; try contradiction; try discriminate; try (split_and!; done).

(** C5. Among candidate position names none of which is empty, the
    legacy matcher answers by tier: an exact match (confidence 1.0)
    whenever some candidate matches exactly; otherwise a code match
    (confidence 0.95) whenever the code is not empty and occurs in some
    candidate, whatever the similarity ratios are; otherwise a fuzzy
    match whose ratio reaches the threshold, or else kind 'none' with
    confidence 0.0. A code answer hence means that no exact match exists,
    and a fuzzy answer that neither an exact nor a code match exists. *)
Theorem best_match_tiers (name code : string) (ips : list string) :
  "" ∉ ips →
  let r := best_match unicode_lower clean_position_name ratio fuzzy_threshold name code ips in
  (has_exact unicode_lower name ips →
     match_type r = Exact ∧ confidence r = 1%float ∧ matched r = true ∧
     interview_position r ∈ ips ∧ exact_for unicode_lower name (interview_position r)) ∧
  (¬ has_exact unicode_lower name ips → has_code code ips →
     match_type r = Code ∧ confidence r = 0.95%float ∧ matched r = true ∧
     interview_position r ∈ ips ∧
     PyStr.contains code (interview_position r) = true) ∧
  (¬ has_exact unicode_lower name ips → ¬ has_code code ips →
     (match_type r = Fuzzy ∧ matched r = true ∧ interview_position r ∈ ips ∧
      PrimFloat.leb fuzzy_threshold (confidence r) = true) ∨
     (match_type r = NoKind ∧ matched r = false ∧ confidence r = 0%float ∧
      interview_position r = "")) ∧
  (match_type r = Code → ¬ has_exact unicode_lower name ips ∧ has_code code ips) ∧
  (match_type r = Fuzzy →
     ¬ has_exact unicode_lower name ips ∧ ¬ has_code code ips ∧
     PrimFloat.leb fuzzy_threshold (confidence r) = true).
Proof.
  intros Hne. unfold best_match.
  rewrite (truthy_opt_elem (exact_match unicode_lower name ips) ips Hne)
    by (intros ip H; by apply exact_match_some in H as [? _]).
  destruct (exact_match unicode_lower name ips) as [ip|] eqn:Hex.
  { (* the exact tier *)
    apply exact_match_some in Hex as [Hin Hfor].
    assert (Hhas : has_exact unicode_lower name ips) by (by exists ip).
    simpl. split_and!; tier. }
  apply exact_match_none in Hex.
  set (cm := if PyStr.truthy code then code_match code ips else None).
  assert (Hcm_some : ∀ ip, cm = Some ip →
            code ≠ "" ∧ ip ∈ ips ∧ PyStr.contains code ip = true).
  { intros ip. unfold cm. destruct (PyStr.truthy code); [|done].
    apply code_match_some. }
  assert (Hcm_none : cm = None → ¬ has_code code ips).
  { unfold cm. destruct (PyStr.truthy code) eqn:Ht; [apply code_match_none|].
    intros _ [Hc _]. by apply truthy_false in Ht. }
  rewrite (truthy_opt_elem cm ips Hne) by (intros ip H; by apply Hcm_some in H as (_ & ? & _)).
  destruct cm as [ip|] eqn:Hcm.
  { (* the code tier *)
    destruct (Hcm_some ip eq_refl) as (Hc & Hin & Hsub).
    assert (Hhas : has_code code ips) by (split; [done|by exists ip]).
    simpl. split_and!; tier. }
  specialize (Hcm_none eq_refl).
  destruct (fuzzy_match clean_position_name ratio name ips) as [fz conf] eqn:Hfz.
  assert (Hfz_in : ∀ ip, fz = Some ip → ip ∈ ips).
  { intros ip ->. unfold fuzzy_match in Hfz.
    apply fuzzy_loop_elem in Hfz as [H|(ip' & [= <-] & Hin)]; [done|done]. }
  rewrite (truthy_opt_elem fz ips Hne Hfz_in).
  destruct fz as [ip|]; simpl.
  - destruct (PrimFloat.leb fuzzy_threshold conf) eqn:Hthr; simpl.
    + split_and!; tier. left. split_and!; try done. by apply Hfz_in.
    + split_and!; tier. by right.
  - split_and!; tier. by right.
Qed.

End Tiers.

Lemma best_match_tiers_witness :
  let r := Legacy.best_match no_case keep_name (fixed_ratio 0.9) 0.8 "Clerk" "P01"
             ["Senior Clerk"; "P01 Officer"] in
  (has_exact no_case "Clerk" ["Senior Clerk"; "P01 Officer"] →
     Legacy.match_type r = Legacy.Exact ∧ Legacy.confidence r = 1%float ∧
     Legacy.matched r = true ∧
     Legacy.interview_position r ∈ ["Senior Clerk"; "P01 Officer"] ∧
     exact_for no_case "Clerk" (Legacy.interview_position r)) ∧
  (¬ has_exact no_case "Clerk" ["Senior Clerk"; "P01 Officer"] →
   has_code "P01" ["Senior Clerk"; "P01 Officer"] →
     Legacy.match_type r = Legacy.Code ∧ Legacy.confidence r = 0.95%float ∧
     Legacy.matched r = true ∧
     Legacy.interview_position r ∈ ["Senior Clerk"; "P01 Officer"] ∧
     PyStr.contains "P01" (Legacy.interview_position r) = true) ∧
  (¬ has_exact no_case "Clerk" ["Senior Clerk"; "P01 Officer"] →
   ¬ has_code "P01" ["Senior Clerk"; "P01 Officer"] →
     (Legacy.match_type r = Legacy.Fuzzy ∧ Legacy.matched r = true ∧
      Legacy.interview_position r ∈ ["Senior Clerk"; "P01 Officer"] ∧
      PrimFloat.leb 0.8 (Legacy.confidence r) = true) ∨
     (Legacy.match_type r = Legacy.NoKind ∧ Legacy.matched r = false ∧
      Legacy.confidence r = 0%float ∧ Legacy.interview_position r = "")) ∧
  (Legacy.match_type r = Legacy.Code →
     ¬ has_exact no_case "Clerk" ["Senior Clerk"; "P01 Officer"] ∧
     has_code "P01" ["Senior Clerk"; "P01 Officer"]) ∧
  (Legacy.match_type r = Legacy.Fuzzy →
     ¬ has_exact no_case "Clerk" ["Senior Clerk"; "P01 Officer"] ∧
     ¬ has_code "P01" ["Senior Clerk"; "P01 Officer"] ∧
     PrimFloat.leb 0.8 (Legacy.confidence r) = true).
Proof.
  apply (best_match_tiers no_case keep_name (fixed_ratio 0.9) 0.8%float "Clerk" "P01"
           ["Senior Clerk"; "P01 Officer"]).
  intros [H|[H|H%elem_of_nil]%elem_of_cons]%elem_of_cons; [discriminate H|discriminate H|done].
Defined.

(** the code wins over a fuzzy candidate of ratio 0.9 >= 0.8 *)
Example code_beats_fuzzy :
  let r := Legacy.best_match no_case keep_name (fixed_ratio 0.9) 0.8 "Clerk" "P01"
             ["Senior Clerk"; "P01 Officer"] in
  (Legacy.match_type r, Legacy.interview_position r, Legacy.confidence r)
  = (Legacy.Code, "P01 Officer", 0.95%float).
Proof. reflexivity. Qed.

(** without a code the same candidates give the first fuzzy candidate *)
Example fuzzy_without_code :
  let r := Legacy.best_match no_case keep_name (fixed_ratio 0.9) 0.8 "Clerk" ""
             ["Senior Clerk"; "P01 Officer"] in
  (Legacy.match_type r, Legacy.interview_position r, Legacy.confidence r)
  = (Legacy.Fuzzy, "Senior Clerk", 0.9%float).
Proof. reflexivity. Qed.

(** an empty candidate name is found by [_exact_match] and then dropped
    by the truth test on it *)
Example empty_name_is_no_exact_match :
  let r := Legacy.best_match no_case keep_name (fixed_ratio 0.1) 0.8 " " "" [""] in
  Legacy.exact_match no_case " " [""] = Some "" ∧ Legacy.match_type r = Legacy.NoKind.
Proof. split; reflexivity. Qed.

(** ** The position validator *)

Section PositionValidator.

Import Validator.










End PositionValidator.

(** a duplicate name, a duplicate code and two missing departments on
    three valid records: four warnings, no error, a valid result *)
Example sample_positions_valid :
  let r := Validator.validate_position_data_integrity sample_positions in
  (Validator.is_valid r, Validator.errors r, Validator.valid_count r,
   Validator.invalid_count r, Validator.warnings r)
  = (true, [], 3, 0,
     [Validator.MissingDepartment "Clerk"; Validator.DuplicateName "Clerk";
      Validator.DuplicateCode "P01"; Validator.MissingCode "Officer";
      Validator.MissingDepartment "Officer"]).
Proof. vm_compute. reflexivity. Qed.

(** a code that is not a str makes the record an error *)
Example code_of_other_type_is_an_error :
  let r := Validator.validate_position_data_integrity
             [Validator.Dict {[ "position_name" := PStr "Clerk"; "position_code" := PNone ]}] in
  (Validator.is_valid r, Validator.errors r, Validator.invalid_count r)
  = (false, [Validator.RecordFailed 1], 1).
Proof. vm_compute. reflexivity. Qed.

(** ** The status of a position and the statistics *)

Section Status.

Import Engine.

Variable float_of_str : string -> option float.
Variable float_of_int : Z -> option float.
Variable int_of : pyval -> outcome Z.
Variable str_of_num : pyval -> string.
Variable sorted_desc : list float -> list float.

Lemma at_position_listed (p : pyval) (iv : pydict) :
  at_position p iv = listed_under p iv.
Proof. unfold at_position, listed_under. by destruct (iv !! "position_name"). Qed.

(** the candidates the engine takes are those listed under the position *)
Lemma candidates_at_filter mapping (interview_data : list pydict) :
  filter (fun iv => at_position (Legacy.mapping_interview_position mapping) iv = true)
         interview_data
  = candidates_at mapping interview_data.
Proof.
  unfold candidates_at. induction interview_data as [|iv rest IH]; [done|].
  pose proof (at_position_listed (Legacy.mapping_interview_position mapping) iv) as Hiv.
  destruct (listed_under (Legacy.mapping_interview_position mapping) iv) eqn:Hl.
  - rewrite !filter_cons_True by done. by rewrite IH.
  - rewrite !filter_cons_False by congruence. exact IH.
Qed.

Lemma score_of_returns (candidate : pydict) s :
  score_of float_of_str float_of_int candidate = Return s →
  s = valid_score float_of_str float_of_int candidate ∧
  (has_valid_score float_of_str candidate = true ↔ is_Some s).
Proof.
  unfold score_of, valid_score, has_valid_score.
  destruct (candidate !! "score") as [[|t|n|x]|]; simpl.
  - intros [= <-]. split; [done|]. split; [done|by intros [? ?]].
  - intros [= <-]. split; [done|]. by rewrite bool_decide_eq_true.
  - destruct (float_of_int n) as [x|]; [|done]. intros [= <-]. split; [done|].
    split; [by eexists|done].
  - intros [= <-]. split; [done|]. split; [by eexists|done].
  - intros [= <-]. split; [done|]. split; [done|by intros [? ?]].
Qed.

(** the scores the loop leaves, when no conversion overflows *)
Lemma scores_of_returns (candidates : list pydict) scores :
  scores_of float_of_str float_of_int candidates = Return scores →
  scores = omap (valid_score float_of_str float_of_int) candidates ∧
  (scores = [] ↔ existsb (has_valid_score float_of_str) candidates = false).
Proof.
  revert scores. induction candidates as [|c cs IH]; intros scores; simpl.
  - by intros [= <-].
  - destruct (score_of float_of_str float_of_int c) as [s|] eqn:Hs; simpl; [|done].
    destruct (scores_of float_of_str float_of_int cs) as [ss|]; simpl; [|done].
    intros [= <-]. destruct (IH ss eq_refl) as [Hss Hnil].
    apply score_of_returns in Hs as [-> Hv].
    destruct (valid_score float_of_str float_of_int c) as [x|] eqn:Hc.
    + split; [by rewrite Hss|].
      assert (Ht : has_valid_score float_of_str c = true) by (apply Hv; by eexists).
      rewrite Ht. done.
    + split; [by rewrite Hss|].
      destruct (has_valid_score float_of_str c) eqn:Ht.
      * destruct Hv as [Hv _]. by destruct (Hv eq_refl).
      * simpl. exact Hnil.
Qed.

Lemma scores_of_fits (candidates : list pydict) :
  (∀ c, c ∈ candidates → score_fits float_of_int c) →
  ∃ scores, scores_of float_of_str float_of_int candidates = Return scores.
Proof.
  induction candidates as [|c cs IH]; intros Hfit; simpl; [by eexists|].
  destruct IH as [ss Hss].
  { intros c' Hc'. apply Hfit. apply elem_of_cons. by right. }
  rewrite Hss.
  assert (Hc : ∃ s, score_of float_of_str float_of_int c = Return s).
  { unfold score_of. destruct (c !! "score") as [[|t|n|x]|] eqn:Hsc; try by eexists.
    destruct (Hfit c (list_elem_of_here _ _) n Hsc) as [x ->]. by eexists. }
  destruct Hc as [s ->]. simpl. by eexists.
Qed.

Lemma strip_field_cleanable (v : pyval) :
  cleanable v → ∃ s, strip_field v = Return s.
Proof.
  intros [[s ->]|Hv]; [by eexists|].
  destruct v as [|s|n|x]; unfold strip_field, truthy; rewrite ?Hv; by eexists.
Qed.

(** what the constructor keeps of its arguments *)
Lemma new_result_returns code name dept dept_name recruit count ms st nt scores r :
  new_result str_of_num code name dept dept_name recruit count ms st nt scores = Return r →
  result_status r = st ∧ min_score r = ms ∧ all_scores r = scores ∧
  candidate_count r = count.
Proof.
  unfold new_result.
  destruct (strip_field name) as [n'|]; simpl; [|done].
  destruct (strip_field dept) as [d'|]; simpl; [|done].
  destruct (strip_field dept_name) as [dn'|]; simpl; [|done].
  by intros [= <-].
Qed.

Lemma new_result_clean code name dept dept_name recruit count ms st nt scores :
  cleanable name → cleanable dept → cleanable dept_name →
  ∃ r, new_result str_of_num code name dept dept_name recruit count ms st nt scores
       = Return r.
Proof.
  intros [n' Hn]%strip_field_cleanable [d' Hd]%strip_field_cleanable
         [dn' Hdn]%strip_field_cleanable.
  unfold new_result. rewrite Hn, Hd, Hdn. simpl. by eexists.
Qed.

Lemma matched_status mapping interview_data r :
  process_matched_position float_of_str float_of_int str_of_num sorted_desc
    mapping interview_data = Return r →
  result_status r = status_by_priority float_of_str (Matched mapping) interview_data.
Proof.
  unfold process_matched_position, status_by_priority.
  rewrite candidates_at_filter. unfold candidates_at.
  destruct (filter _ interview_data) as [|c cs].
  { by intros (-> & _)%new_result_returns. }
  destruct (scores_of float_of_str float_of_int (c :: cs)) as [scores|] eqn:Hs;
    cbn [mbind outcome_bind]; [|done].
  apply scores_of_returns in Hs as [_ Hnil].
  destruct scores as [|x xs].
  - intros (-> & _)%new_result_returns. destruct Hnil as [Hnil _].
    by rewrite (Hnil eq_refl).
  - intros (-> & _)%new_result_returns.
    destruct (existsb (has_valid_score float_of_str) (c :: cs)) eqn:He; [done|].
    destruct Hnil as [_ Hnil]. by specialize (Hnil eq_refl).
Qed.

Lemma matched_returns mapping interview_data :
  clean_mapping mapping →
  (∀ c, c ∈ interview_data →
        listed_under (Legacy.mapping_interview_position mapping) c = true →
        score_fits float_of_int c) →
  ∃ r, process_matched_position float_of_str float_of_int str_of_num sorted_desc
         mapping interview_data = Return r.
Proof.
  intros (Hn & Hd & Hdn) Hfit. unfold process_matched_position.
  rewrite candidates_at_filter.
  destruct (candidates_at mapping interview_data) as [|c cs] eqn:Hc.
  { by apply new_result_clean. }
  destruct (scores_of_fits (c :: cs)) as [scores Hs].
  { intros c' Hc'. rewrite <- Hc in Hc'. unfold candidates_at in Hc'.
    apply list_elem_of_filter in Hc' as [Hl Hin]. by apply Hfit. }
  rewrite Hs. cbn [mbind outcome_bind].
  destruct scores; by apply new_result_clean.
Qed.

Lemma unmatched_status position r :
  process_unmatched_position int_of str_of_num position = Return r →
  result_status r = Unmatched ∧ min_score r = None.
Proof.
  unfold process_unmatched_position.
  destruct (recruit_count_of int_of position) as [recruit|]; simpl; [|done].
  by intros (-> & -> & _)%new_result_returns.
Qed.

Lemma matched_min_score mapping interview_data r :
  process_matched_position float_of_str float_of_int str_of_num sorted_desc
    mapping interview_data = Return r →
  min_score r = None.
Proof.
  unfold process_matched_position.
  destruct (filter _ interview_data) as [|c cs].
  { by intros (_ & -> & _)%new_result_returns. }
  destruct (scores_of float_of_str float_of_int (c :: cs)) as [scores|];
    cbn [mbind outcome_bind]; [|done].
  destruct scores; by intros (_ & -> & _)%new_result_returns.
Qed.

Lemma calculate_min_scores_elem mappings unmatched interview_data r :
  r ∈ calculate_min_scores float_of_str float_of_int int_of str_of_num sorted_desc
        mappings unmatched interview_data ↔
  ∃ info, info ∈ all_positions mappings unmatched ∧
          process_position float_of_str float_of_int int_of str_of_num sorted_desc
            info interview_data = Return r.
Proof.
  unfold calculate_min_scores. rewrite list_elem_of_omap.
  split; intros (info & Hin & H); exists info; (split; [done|]).
  - simpl in H.
    by destruct (process_position _ _ _ _ _ info interview_data) as [r'|]; simplify_eq.
  - simpl. by rewrite H.
Qed.

(** C3. Every per-position result carries one of four statuses with four
    different texts, and it is the status the priority gives: unmatched
    for a position without a match; else no-candidates when no candidate
    is listed under the matched position; else data-anomaly when none of
    these candidates has a score that parses; else normal. A matched
    position gets its result when its name and its two department fields
    are texts or empty and no candidate listed under it has an int score
    too large for a float; every result of [_calculate_min_scores] is
    that of one of the positions. *)
Theorem status_follows_priority :
  (∀ info interview_data r,
     process_position float_of_str float_of_int int_of str_of_num sorted_desc
       info interview_data = Return r →
     result_status r = status_by_priority float_of_str info interview_data) ∧
  (∀ mapping interview_data,
     clean_mapping mapping →
     (∀ c, c ∈ interview_data →
           listed_under (Legacy.mapping_interview_position mapping) c = true →
           score_fits float_of_int c) →
     ∃ r, process_position float_of_str float_of_int int_of str_of_num sorted_desc
            (Matched mapping) interview_data = Return r) ∧
  (∀ mappings unmatched interview_data r,
     r ∈ calculate_min_scores float_of_str float_of_int int_of str_of_num sorted_desc
           mappings unmatched interview_data →
     ∃ info, info ∈ all_positions mappings unmatched ∧
             result_status r = status_by_priority float_of_str info interview_data) ∧
  (∀ s1 s2, status_text s1 = status_text s2 → s1 = s2).
Proof.
  assert (H1 : ∀ info interview_data r,
     process_position float_of_str float_of_int int_of str_of_num sorted_desc
       info interview_data = Return r →
     result_status r = status_by_priority float_of_str info interview_data).
  { intros [mapping|position] interview_data r; simpl.
    - apply matched_status.
    - by intros [-> _]%unmatched_status. }
  split_and!.
  - exact H1.
  - intros mapping interview_data. apply matched_returns.
  - intros mappings unmatched interview_data r (info & Hin & Hr)%calculate_min_scores_elem.
    exists info. split; [done|]. by apply H1.
  - intros [] []; simpl; intros H; try done; discriminate H.
Qed.

(** no result of [_calculate_min_scores] has a [min_score] *)
Lemma results_without_min_score mappings unmatched interview_data :
  Forall (fun r => min_score r = None)
    (calculate_min_scores float_of_str float_of_int int_of str_of_num sorted_desc
       mappings unmatched interview_data).
Proof.
  apply Forall_forall. intros r (info & _ & Hr)%calculate_min_scores_elem.
  destruct info as [mapping|position]; simpl in Hr.
  - by apply matched_min_score in Hr.
  - by apply unmatched_status in Hr as [_ ?].
Qed.

(** so the 'score_statistics' of a run are always the empty dict *)
Lemma score_statistics_always_empty mappings unmatched interview_data :
  score_statistics
    (generate_statistics
       (calculate_min_scores float_of_str float_of_int int_of str_of_num sorted_desc
          mappings unmatched interview_data))
  = None.
Proof.
  pose proof (results_without_min_score mappings unmatched interview_data) as H.
  unfold generate_statistics. simpl.
  assert (Hnil : omap min_score
            (calculate_min_scores float_of_str float_of_int int_of str_of_num
               sorted_desc mappings unmatched interview_data) = []).
  { induction H as [|r rs Hr _ IH]; [done|]. simpl. by rewrite Hr. }
  by rewrite Hnil.
Qed.

End Status.

(** the statuses on the sample candidates: two scores, none that
    parses, and no candidate at all *)
Example statuses_of_the_samples :
  let run := Engine.process_position no_float no_int_float no_int no_text descending in
  (match run (Engine.Matched clerk_mapping) clerk_candidates with
   | Return r => Some (Engine.result_status r, Engine.all_scores r)
   | Raise _ => None
   end,
   match run (Engine.Matched clerk_mapping) unscored_candidates with
   | Return r => Some (Engine.result_status r, Engine.all_scores r)
   | Raise _ => None
   end,
   match run (Engine.Matched clerk_mapping) [] with
   | Return r => Some (Engine.result_status r, Engine.all_scores r)
   | Raise _ => None
   end)
  = (Some (Engine.Normal, [85%float; 60%float]),
     Some (Engine.DataAnomaly, []),
     Some (Engine.NoCandidates, [])).
Proof. vm_compute. reflexivity. Qed.

(** a matched position whose department cell was empty (NaN) has no
    result: [__post_init__] raises, and [_calculate_min_scores] leaves
    the position out *)
Example position_without_department_is_dropped :
  Engine.process_position no_float no_int_float no_int no_text descending
    (Engine.Matched clerk_without_department) clerk_candidates = Raise AttributeError ∧
  Engine.calculate_min_scores no_float no_int_float no_int no_text descending
    [clerk_without_department] [] clerk_candidates = [].
Proof. split; vm_compute; reflexivity. Qed.

(** C4. On the two candidates of scenario A (scores 85 and 60 at one
    matched position) the position is normal with both scores listed,
    and the statistics carry no minimum, maximum or average at all. *)
Theorem score_statistics_missing :
  let results := Engine.calculate_min_scores no_float no_int_float no_int no_text
                   descending [clerk_mapping] [] clerk_candidates in
  let stats := Engine.generate_statistics results in
  (fun r => (Engine.result_status r, Engine.all_scores r, Engine.min_score r)) <$> results
    = [(Engine.Normal, [85%float; 60%float], None)] ∧
  Engine.normal_positions stats = 1 ∧
  Engine.score_statistics stats = None.
Proof. vm_compute. repeat split. Qed.

(** what the statistics would report, had the result kept its minimum *)
Example score_statistics_of_a_minimum :
  Engine.score_statistics
    (Engine.generate_statistics
       [Engine.mkScore "P01" "Clerk" "Tax" "" 1 2 (Some 60%float) Engine.Normal
          (Engine.NoteScores 2 [85%float; 60%float]) [85%float; 60%float]])
  = Some (Engine.mkScoreStats 60 60 60 1).
Proof. vm_compute. reflexivity. Qed.

(** candidates without a readable score put the position under the
    data-anomaly count, not under the no-candidates count *)
Example anomaly_is_not_no_candidates :
  let results := Engine.calculate_min_scores no_float no_int_float no_int no_text
                   descending [clerk_mapping] [] unscored_candidates in
  let stats := Engine.generate_statistics results in
  (Engine.result_status <$> results, Engine.error_positions stats,
   Engine.no_interview_positions stats, Engine.candidate_count <$> results)
  = ([Engine.DataAnomaly], 1, 0, [2]).
Proof. vm_compute. reflexivity. Qed.

(** ** The candidate position names of the legacy matcher *)

Lemma position_set_nonempty (interview_data : list pydict) (s s' : gset string) :
  Legacy.position_set interview_data s = Return s' → "" ∉ s → "" ∉ s'.
Proof.
  revert s. induction interview_data as [|iv rest IH]; intros s H Hs; simpl in H.
  - by injection H as <-.
  - destruct (default (PStr "") (iv !! "position_name")) as [|t|n|x]; try done.
    apply IH in H; [done|].
    destruct (PyStr.truthy (PyStr.strip t)) eqn:Ht; [|done].
    apply truthy_true in Ht.
    intros [Heq%elem_of_singleton|Hin]%elem_of_union; [congruence|done].
Qed.

(** the names handed to [_find_best_match] are never empty, in whatever
    order the set is listed *)
Lemma extracted_names_nonempty (set_order : gset string → list string)
    (interview_data : list pydict) (ips : list string) :
  (∀ s, set_order s ≡ₚ elements s) →
  Legacy.extract_interview_positions set_order interview_data = Return ips →
  "" ∉ ips.
Proof.
  intros Hperm. unfold Legacy.extract_interview_positions.
  destruct (Legacy.position_set interview_data ∅) as [s|] eqn:Hs; simpl; [|done].
  intros [= <-]. rewrite Hperm, elem_of_elements.
  apply (position_set_nonempty _ _ _ Hs). apply not_elem_of_empty.
Qed.

(** a position that finds its match makes [match_positions] raise: the
    PositionMapping cannot be built *)
Example matched_position_raises :
  let '(self, seen, o) :=
    Legacy.match_positions no_case keep_name (fixed_ratio 0) 0.8 elements
      (Legacy.mkMatcher [] [] []) [clerk_position] clerk_interviews in
  (Legacy.match_type <$> seen, o)
  = ([Legacy.Exact], Raise (DataMatchingError TypeError)).
Proof. vm_compute. reflexivity. Qed.

(** * Further properties *)

(** ** The fast matcher *)

(** X1. The nested batch loops of [match_data_fast] visit the position rows
    once each, in their order, for every batch size above zero *)
Theorem batches_visit_rows_in_order {A : Type} (n : nat) (l : list A) :
  0 < n → flat_map (Fast.batch n l) (seq 0 ((length l + n - 1) / n)) = l.
Proof. intros Hn. by apply (batched_all n l). Qed.

Lemma batches_visit_rows_in_order_witness :
  flat_map (Fast.batch 2 [1; 2; 3; 4; 5]) (seq 0 ((length [1; 2; 3; 4; 5] + 2 - 1) / 2))
  = [1; 2; 3; 4; 5].
Proof. apply (batches_visit_rows_in_order 2 [1; 2; 3; 4; 5]). lia. Defined.

Lemma iloc_returns df l rs :
  Fast.iloc df l = Return rs → rs = record_at df <$> l ∧ length rs = length l.
Proof.
  revert rs. induction l as [|j l IH]; intros rs; simpl.
  - by intros [= <-].
  - destruct (records df !! j) as [r|] eqn:Hj; [|done].
    destruct (Fast.iloc df l) as [rs'|]; simpl; [|done].
    intros [= <-]. destruct (IH rs' eq_refl) as [-> Hlen].
    assert (Hr : record_at df j = r) by (unfold record_at; by rewrite Hj).
    split; [|simpl; by rewrite Hlen].
    change (r :: (record_at df <$> l) = record_at df j :: (record_at df <$> l)).
    by rewrite Hr.
Qed.

Lemma match_single_row set_order st (m : mapping) (pos_row : row) (df : DataFrame) r :
  Fast.match_single_position_fast set_order st m pos_row df = Return r →
  Fast.position_row r = pos_row.
Proof.
  unfold Fast.match_single_position_fast.
  destruct (Fast.narrow st pos_row m None) as [c|].
  - case_bool_decide as Hc; [by intros [= <-]|].
    destruct (Fast.iloc df (set_order c)) as [rs|]; simpl; [|done]. by intros [= <-].
  - by intros [= <-].
Qed.

Lemma match_single_shape set_order st (m : mapping) (pos_row : row) (df : DataFrame) r :
  lists_members set_order →
  Fast.match_single_position_fast set_order st m pos_row df = Return r →
  Fast.position_row r = pos_row ∧
  ((Fast.matched r = true ∧ Fast.interview_rows r ≠ [] ∧ Fast.match_score r = 1%float) ∨
   (Fast.matched r = false ∧ Fast.interview_rows r = [] ∧ Fast.match_score r = 0%float)).
Proof.
  intros Horder. unfold Fast.match_single_position_fast.
  destruct (Fast.narrow st pos_row m None) as [c|].
  - case_bool_decide as Hc.
    + intros [= <-]. simpl. split; [done|]. by right.
    + destruct (Fast.iloc df (set_order c)) as [rs|] eqn:Hrs; simpl; [|done].
      intros [= <-]. simpl. split; [done|]. left. split_and!; try done.
      apply iloc_returns in Hrs as [_ Hlen]. intros ->. simpl in Hlen.
      symmetry in Hlen. apply length_zero_iff_nil in Hlen.
      pose proof (Horder c) as Ho. rewrite Hlen in Ho. symmetry in Ho.
      apply Permutation_nil_r in Ho.
      apply Hc. by apply elements_empty_inv, leibniz_equiv in Ho.
  - intros [= <-]. simpl. split; [done|]. by right.
Qed.

(** X2. Whatever the store and the table, and in whatever order a set is
    listed: a result of the fast matcher that is matched has candidate
    rows and score 1.0, one that is not has no rows and score 0.0, and
    both carry the position row *)
Theorem fast_result_is_consistent set_order st (m : mapping) (pos_row : row)
    (df : DataFrame) r :
  lists_members set_order →
  Fast.match_single_position_fast set_order st m pos_row df = Return r →
  Fast.position_row r = pos_row ∧
  ((Fast.matched r = true ∧ Fast.interview_rows r ≠ [] ∧ Fast.match_score r = 1%float) ∨
   (Fast.matched r = false ∧ Fast.interview_rows r = [] ∧ Fast.match_score r = 0%float)).
Proof. apply match_single_shape. Qed.

Lemma fast_result_is_consistent_witness :
  ∃ r, Fast.match_single_position_fast elements
         (Fast.build_indices unit_code one_unit ∅) unit_code
         {[ "unit" := Str "A"; "code" := Str "x" ]} one_unit = Return r ∧
       Fast.position_row r = {[ "unit" := Str "A"; "code" := Str "x" ]} ∧
       ((Fast.matched r = true ∧ Fast.interview_rows r ≠ [] ∧ Fast.match_score r = 1%float) ∨
        (Fast.matched r = false ∧ Fast.interview_rows r = [] ∧ Fast.match_score r = 0%float)).
Proof.
  eexists. split; [vm_compute; reflexivity|].
  eapply (fast_result_is_consistent elements (Fast.build_indices unit_code one_unit ∅)
            unit_code {[ "unit" := Str "A"; "code" := Str "x" ]} one_unit).
  - intros c. reflexivity.
  - vm_compute. reflexivity.
Defined.

(** X3. The early exit of the loop changes nothing: for every store the
    candidate set is the intersection of the index entries of all
    conditions in use, and None when no condition is in use *)
Theorem narrow_is_the_intersection st pos_row (m : mapping) :
  Fast.narrow st pos_row m None = meet (active_sets st pos_row m).
Proof. apply narrow_meet. Qed.

Lemma match_rows_returns set_order st m df ps rs :
  Fast.match_rows set_order st m df ps = Return rs →
  Fast.position_row <$> rs = ps.
Proof.
  revert rs. induction ps as [|p ps IH]; intros rs; simpl.
  - by intros [= <-].
  - destruct (Fast.match_single_position_fast set_order st m p df) as [r|] eqn:Hr;
      simpl; [|done].
    destruct (Fast.match_rows set_order st m df ps) as [rs'|]; simpl; [|done].
    intros [= <-]. rewrite fmap_cons, (IH rs' eq_refl).
    by apply match_single_row in Hr as ->.
Qed.

(** X4. A run of [match_data_fast] that returns gives one result per
    position row, in row order and each for its own row, and its counts
    add up: matched plus unmatched is the number of position rows *)
Theorem match_data_fast_one_result_per_row set_order st (m : mapping)
    (position_df interview_df : DataFrame) rs stats :
  (Fast.match_data_fast set_order st m position_df interview_df).2 = Return (rs, stats) →
  Fast.position_row <$> rs = records position_df ∧
  Fast.total_positions stats = length (rows position_df) ∧
  Fast.matched_positions stats + Fast.unmatched_positions stats
    = Fast.total_positions stats ∧
  Fast.matched_positions stats = length (filter (fun r => Fast.matched r = true) rs).
Proof.
  unfold Fast.match_data_fast. simpl. rewrite batched_all by lia.
  destruct (Fast.match_rows _ _ m interview_df (records position_df)) as [rs'|] eqn:Hrs;
    simpl; [|done].
  intros [= <- <-]. apply match_rows_returns in Hrs.
  split; [done|]. simpl. split_and!; try done.
  assert (Hlen : length rs' = length (rows position_df)).
  { rewrite <- records_length, <- Hrs. by rewrite length_fmap. }
  pose proof (length_filter (fun r => Fast.matched r = true) rs'). lia.
Qed.

Lemma match_data_fast_one_result_per_row_witness :
  ∃ rs stats,
    (Fast.match_data_fast elements ∅ unit_code two_positions one_unit).2
      = Return (rs, stats) ∧
    Fast.position_row <$> rs = records two_positions ∧
    Fast.total_positions stats = length (rows two_positions) ∧
    Fast.matched_positions stats + Fast.unmatched_positions stats
      = Fast.total_positions stats ∧
    Fast.matched_positions stats = length (filter (fun r => Fast.matched r = true) rs).
Proof.
  eexists _, _. split; [vm_compute; reflexivity|].
  eapply (match_data_fast_one_result_per_row elements ∅ unit_code two_positions one_unit).
  vm_compute. reflexivity.
Defined.

Lemma active_in_true df pos_row m :
  active_in df pos_row m = true ↔ fast_active df pos_row m.
Proof.
  unfold active_in, fast_active. rewrite existsb_exists. split.
  - intros ([pc ic] & Hin%list_elem_of_In & H). apply andb_true_iff in H as [H1 H2].
    apply negb_true_iff in H1. by exists pc, ic.
  - intros (pc & ic & Hin & H1 & H2). exists (pc, ic).
    split; [by apply list_elem_of_In|]. by rewrite H1, H2.
Qed.

Lemma fresh_for_tail df st p m : fresh_for df st (p :: m) → fresh_for df st m.
Proof. intros H pc ic Hin. apply (H pc ic). apply elem_of_cons. by right. Qed.

Lemma fast_satisfies_cons df pos_row pc ic m j :
  fast_satisfies df pos_row ((pc, ic) :: m) j ↔
  (Fast.skipped (Fast.pos_value pos_row pc) = false → has_column df ic = true →
   holds df ic j (Fast.pos_value pos_row pc)) ∧
  fast_satisfies df pos_row m j.
Proof.
  unfold fast_satisfies. split.
  - intros H. split.
    + apply H. apply elem_of_cons. by left.
    + intros pc' ic' Hin. apply H. apply elem_of_cons. by right.
  - intros [H1 H2] pc' ic' [[= -> ->]|Hin]%elem_of_cons; [done|by apply H2].
Qed.

Lemma narrow_fresh df st pos_row (m : mapping) cand :
  fresh_for df st m →
  (active_in df pos_row m = false → Fast.narrow st pos_row m cand = cand) ∧
  (active_in df pos_row m = true →
   ∃ c, Fast.narrow st pos_row m cand = Some c ∧
        ∀ j, j ∈ c ↔ in_candidates cand j ∧ fast_satisfies df pos_row m j).
Proof.
  revert cand. induction m as [|[pc ic] m IH]; intros cand Hfresh.
  { split; [done|]. simpl. done. }
  pose proof (fresh_for_tail _ _ _ _ Hfresh) as Hfresh'.
  assert (Hic := Hfresh pc ic (list_elem_of_here _ _)).
  cbn [Fast.narrow active_in existsb].
  destruct (Fast.skipped (Fast.pos_value pos_row pc)) eqn:Hskip.
  { (* the condition is skipped *)
    simpl. destruct (IH cand Hfresh') as [IH1 IH2]. split; [done|].
    intros Ha. destruct (IH2 Ha) as (c & Hc & Hspec). exists c. split; [done|].
    intros j. rewrite Hspec, fast_satisfies_cons. rewrite Hskip. intuition congruence. }
  destruct (has_column df ic) eqn:Hcol; rewrite Hic.
  2:{ (* no index for the column *)
    simpl. destruct (IH cand Hfresh') as [IH1 IH2]. split; [done|].
    intros Ha. destruct (IH2 Ha) as (c & Hc & Hspec). exists c. split; [done|].
    intros j. rewrite Hspec, fast_satisfies_cons. rewrite Hcol. intuition congruence. }
  simpl. split; [done|]. intros _.
  assert (Hpv : Fast.pos_value pos_row pc ≠ "").
  { unfold Fast.skipped in Hskip. apply orb_false_iff in Hskip as [Ht _].
    apply negb_false_iff in Ht. by apply truthy_true. }
  set (pv := Fast.pos_value pos_row pc) in *.
  set (col := list_to_set (default [] (Fast.index_column (column df ic) !! pv)) : gset nat).
  assert (Hcolspec : ∀ j, j ∈ col ↔ holds df ic j pv).
  { intros j. unfold col. rewrite elem_of_list_to_set, index_column_get by done.
    by apply holding_column. }
  set (cand' := match cand with None => col | Some c => c ∩ col end).
  assert (Hcand' : ∀ j, j ∈ cand' ↔ in_candidates cand j ∧ holds df ic j pv).
  { intros j. unfold cand'. destruct cand as [c|]; simpl.
    - by rewrite elem_of_intersection, Hcolspec.
    - rewrite Hcolspec. tauto. }
  assert (Hhead : ∀ j, fast_satisfies df pos_row ((pc, ic) :: m) j ↔
                       holds df ic j pv ∧ fast_satisfies df pos_row m j).
  { intros j. rewrite fast_satisfies_cons. fold pv. rewrite Hskip. tauto. }
  case_bool_decide as Hempty.
  - exists cand'. split; [done|]. intros j. rewrite Hhead. split.
    + rewrite Hempty. by intros ?%not_elem_of_empty.
    + intros (Hin & Hh & _). apply Hcand'. done.
  - destruct (IH (Some cand') Hfresh') as [IH1 IH2].
    destruct (active_in df pos_row m) eqn:Ha.
    + destruct (IH2 eq_refl) as (c & Hc & Hspec). exists c. split; [done|].
      intros j. rewrite Hspec, Hhead. simpl. rewrite Hcand'. tauto.
    + exists cand'. split; [by apply IH1|]. intros j. rewrite Hhead, Hcand'.
      assert (Hall : fast_satisfies df pos_row m j).
      { intros pc' ic' Hin Hs Hc. exfalso.
        assert (active_in df pos_row m = true); [|congruence].
        apply active_in_true. by exists pc', ic'. }
      tauto.
Qed.

Lemma build_indices_fresh m df : fresh_for df (Fast.build_indices m df ∅) m.
Proof.
  intros pc ic Hin. destruct (has_column df ic) eqn:Hcol.
  - apply build_indices_mapped; [|done]. apply list_elem_of_fmap. by exists (pc, ic).
  - rewrite build_indices_other by (by left). apply lookup_empty.
Qed.

(** X5. With the index [build_indices] makes for the candidate table, the
    fast matcher never raises, and it returns exactly the rows that hold,
    trimmed, the trimmed position value under every mapped column that
    exists in the table and whose position value is not skipped, each
    once and in the order the set of their positions is listed; it is
    matched exactly when there is such a condition and such a row *)
Theorem fast_match_with_fresh_index (set_order : gset nat → list nat) (m : mapping)
    (pos_row : row) (df : DataFrame) :
  lists_members set_order →
  ∃ r l,
    Fast.match_single_position_fast set_order (Fast.build_indices m df ∅) m pos_row df
      = Return r ∧
    Fast.interview_rows r = record_at df <$> l ∧ NoDup l ∧
    (∀ j, j ∈ l ↔ fast_active df pos_row m ∧ fast_satisfies df pos_row m j) ∧
    (Fast.matched r = true ↔ l ≠ []).
Proof.
  intros Horder.
  destruct (narrow_fresh df _ pos_row m None (build_indices_fresh m df)) as [H1 H2].
  unfold Fast.match_single_position_fast.
  destruct (active_in df pos_row m) eqn:Ha.
  - destruct (H2 eq_refl) as (c & -> & Hspec).
    apply active_in_true in Ha as Hact.
    case_bool_decide as Hempty.
    + exists (Fast.mkFastResult pos_row [] 0 false), []. simpl.
      split; [done|]. split; [done|]. split; [apply NoDup_nil_2|]. split.
      * intros j. split; [by intros ?%elem_of_nil|].
        intros [_ Hj]. exfalso. apply (not_elem_of_empty (C:=gset nat) j).
        rewrite <- Hempty. apply Hspec. done.
      * split; done.
    + assert (Hin : ∀ j, j ∈ set_order c ↔ j ∈ c).
      { intros j. by rewrite (Horder c), elem_of_elements. }
      rewrite iloc_in_range.
      2:{ intros j Hj%Hin. apply Hspec in Hj as [_ Hj].
          destruct Hact as (pc & ic & Hm & Hs & Hc).
          destruct (Hj pc ic Hm Hs Hc) as (r & Hr & _). by apply lookup_lt_Some in Hr. }
      simpl. eexists _, (set_order c). split; [done|]. simpl.
      split; [done|]. split; [rewrite (Horder c); apply NoDup_elements|]. split.
      * intros j. rewrite Hin, Hspec. simpl. tauto.
      * split; [|done]. intros _ He. apply Hempty.
        pose proof (Horder c) as Ho. rewrite He in Ho. symmetry in Ho.
        apply Permutation_nil_r in Ho.
        by apply elements_empty_inv, leibniz_equiv in Ho.
  - rewrite (H1 eq_refl). exists (Fast.mkFastResult pos_row [] 0 false), []. simpl.
    split; [done|]. split; [done|]. split; [apply NoDup_nil_2|]. split.
    + intros j. split; [by intros ?%elem_of_nil|].
      intros [Hact _]. apply active_in_true in Hact. congruence.
    + split; done.
Qed.

Lemma fast_match_with_fresh_index_witness :
  ∃ r l,
    Fast.match_single_position_fast elements
      (Fast.build_indices [("unit", "dept")] sample_frame ∅) [("unit", "dept")]
      {[ "unit" := Str " A" ]} sample_frame = Return r ∧
    Fast.interview_rows r = record_at sample_frame <$> l ∧ NoDup l ∧
    (∀ j, j ∈ l ↔ fast_active sample_frame {[ "unit" := Str " A" ]} [("unit", "dept")] ∧
                  fast_satisfies sample_frame {[ "unit" := Str " A" ]}
                    [("unit", "dept")] j) ∧
    (Fast.matched r = true ↔ l ≠ []).
Proof.
  apply (fast_match_with_fresh_index elements [("unit", "dept")]
           {[ "unit" := Str " A" ]} sample_frame).
  intros c. reflexivity.
Defined.

(** the rows of the sample table that hold A under dept, for a position
    value with a blank before it *)
Example fresh_index_on_the_sample :
  ∃ r, Fast.match_single_position_fast elements
         (Fast.build_indices [("unit", "dept")] sample_frame ∅) [("unit", "dept")]
         {[ "unit" := Str " A" ]} sample_frame = Return r ∧
       Fast.matched r = true ∧
       (fun row => cell_at row "name") <$> Fast.interview_rows r ≡ₚ [Str "x"; NaN].
Proof.
  eexists. split; [vm_compute; reflexivity|]. split; [reflexivity|].
  vm_compute. apply Permutation_swap || reflexivity.
Qed.

Lemma build_indices_lookup m df (st : gmap string (gmap string (list nat))) c :
  Fast.build_indices m df st !! c =
    if bool_decide (c ∈ m.*2) && has_column df c
    then Some (Fast.index_column (column df c)) else st !! c.
Proof.
  case_bool_decide as Hin; simpl.
  - destruct (has_column df c) eqn:Hc.
    + by apply build_indices_mapped.
    + apply build_indices_other. by left.
  - apply build_indices_other. by right.
Qed.

(** X6. Building the index again for the same table changes nothing *)
Theorem build_indices_idempotent (m : mapping) (df : DataFrame)
    (st : gmap string (gmap string (list nat))) :
  Fast.build_indices m df (Fast.build_indices m df st) = Fast.build_indices m df st.
Proof.
  apply map_eq. intros c. rewrite !build_indices_lookup.
  by destruct (bool_decide (c ∈ m.*2) && has_column df c).
Qed.

(** X7. [build_indices] touches only the entries of the mapped candidate
    columns the table has: every other entry of the store stays *)
Theorem build_indices_frame (m : mapping) (df : DataFrame)
    (st : gmap string (gmap string (list nat))) (c : string) :
  c ∉ m.*2 ∨ c ∉ columns df →
  Fast.build_indices m df st !! c = st !! c.
Proof.
  intros [H|H]; apply build_indices_other; [by right|left].
  unfold has_column. by apply bool_decide_eq_false.
Qed.

Lemma build_indices_frame_witness :
  Fast.build_indices unit_code one_unit
    (Fast.build_indices [("x", "old")] (frame ["old"] []) ∅) !! "old" =
  Fast.build_indices [("x", "old")] (frame ["old"] []) ∅ !! "old".
Proof.
  apply (build_indices_frame unit_code one_unit).
  left. simpl. intros [H|[H|H%elem_of_nil]%elem_of_cons]%elem_of_cons;
    [discriminate H|discriminate H|done].
Defined.

(** ** The statistics of a result list *)

Lemma fold_max_bounds (l : list nat) x :
  x ≤ fold_left Nat.max l x ∧ ∀ y, y ∈ l → y ≤ fold_left Nat.max l x.
Proof.
  revert x. induction l as [|z l IH]; intros x; simpl.
  - split; [done|]. by intros y ?%elem_of_nil.
  - destruct (IH (Nat.max x z)) as [H1 H2]. split; [lia|].
    intros y [->|Hy]%elem_of_cons; [lia|by apply H2].
Qed.

Lemma fold_min_bounds (l : list nat) x :
  fold_left Nat.min l x ≤ x ∧ ∀ y, y ∈ l → fold_left Nat.min l x ≤ y.
Proof.
  revert x. induction l as [|z l IH]; intros x; simpl.
  - split; [done|]. by intros y ?%elem_of_nil.
  - destruct (IH (Nat.min x z)) as [H1 H2]. split; [lia|].
    intros y [->|Hy]%elem_of_cons; [lia|by apply H2].
Qed.

Lemma elem_le_sum_list (l : list nat) y : y ∈ l → y ≤ sum_list l.
Proof.
  induction l as [|z l IH]; [by intros ?%elem_of_nil|].
  intros [->|Hy]%elem_of_cons; simpl; [lia|]. apply IH in Hy. lia.
Qed.

(** X8. In the statistics of any result list matched plus unmatched is the
    total, the candidate count of every matched result lies between the
    reported minimum and maximum, and the maximum is at most the total
    number of candidates *)
Theorem get_match_statistics_bounds (match_results : list Fast.FastMatchResult) :
  let s := FastStats.get_match_statistics match_results in
  FastStats.matched_positions s + FastStats.unmatched_positions s
    = FastStats.total_positions s ∧
  FastStats.total_positions s = length match_results ∧
  (∀ r, r ∈ match_results → Fast.matched r = true →
        FastStats.min_candidates_per_position s ≤ length (Fast.interview_rows r) ∧
        length (Fast.interview_rows r) ≤ FastStats.max_candidates_per_position s) ∧
  FastStats.min_candidates_per_position s ≤ FastStats.max_candidates_per_position s ∧
  FastStats.max_candidates_per_position s ≤ FastStats.total_candidates s.
Proof.
  simpl.
  set (ms := filter (fun r => Fast.matched r = true) match_results).
  set (counts := map (fun r => length (Fast.interview_rows r)) ms).
  pose proof (length_filter (fun r => Fast.matched r = true) match_results) as Hle.
  fold ms in Hle.
  assert (Hbounds : ∀ y, y ∈ counts →
            FastStats.min_or_zero counts ≤ y ∧ y ≤ FastStats.max_or_zero counts).
  { destruct counts as [|x rest]; [by intros y ?%elem_of_nil|].
    simpl. destruct (fold_min_bounds rest x) as [Hm1 Hm2].
    destruct (fold_max_bounds rest x) as [HM1 HM2].
    intros y [->|Hy]%elem_of_cons; [done|]. split; [by apply Hm2|by apply HM2]. }
  split; [lia|]. split; [done|]. split; [|split].
  - intros r Hr Hm. apply Hbounds. unfold counts.
    apply (list_elem_of_fmap_2 (fun r => length (Fast.interview_rows r))).
    unfold ms. by apply list_elem_of_filter.
  - destruct counts as [|x rest] eqn:Hc; [done|].
    destruct (Hbounds x) as [H1 H2]; [apply elem_of_cons; by left|]. lia.
  - destruct counts as [|x rest] eqn:Hc; [done|]. simpl.
    assert (Hin : fold_left Nat.max rest x ∈ x :: rest).
    { clear. revert x. induction rest as [|z rest IH]; intros x; simpl.
      - apply elem_of_cons. by left.
      - pose proof (IH (Nat.max x z)) as Hi. apply elem_of_cons in Hi as [Heq|Hin].
        + rewrite Heq. destruct (Nat.max_spec x z) as [[_ ->]|[_ ->]].
          * apply elem_of_cons. right. apply elem_of_cons. by left.
          * apply elem_of_cons. by left.
        + apply elem_of_cons. right. apply elem_of_cons. by right. }
    by apply (elem_le_sum_list (x :: rest)) in Hin.
Qed.

Example statistics_of_three_results :
  let s := FastStats.get_match_statistics three_results in
  (FastStats.total_positions s, FastStats.matched_positions s,
   FastStats.unmatched_positions s, FastStats.total_candidates s,
   FastStats.max_candidates_per_position s, FastStats.min_candidates_per_position s)
  = (3, 2, 1, 4, 3, 1).
Proof. vm_compute. reflexivity. Qed.

(** ** The configurable matcher *)

(** X10. [_validate_columns_exist] returns exactly when every mapped column
    exists on its side; otherwise it raises with the list of the missing
    columns, those of the position table first *)
Theorem validate_columns_exist_reports_missing (m : mapping)
    (position_df interview_df : DataFrame) :
  match Configurable.validate_columns_exist m position_df interview_df with
  | Return _ =>
      ∀ pos_col int_col, (pos_col, int_col) ∈ m →
        pos_col ∈ columns position_df ∧ int_col ∈ columns interview_df
  | Raise e =>
      (∃ l, e = ConfigurableDataMatchingError (MissingPositionColumns l) ∧ l ≠ [] ∧
            ∀ c, c ∈ l ↔ c ∈ m.*1 ∧ c ∉ columns position_df) ∨
      (∃ l, e = ConfigurableDataMatchingError (MissingInterviewColumns l) ∧ l ≠ [] ∧
            (∀ c, c ∈ m.*1 → c ∈ columns position_df) ∧
            ∀ c, c ∈ l ↔ c ∈ m.*2 ∧ c ∉ columns interview_df)
  end.
Proof.
  unfold Configurable.validate_columns_exist.
  assert (Hmiss : ∀ (df : DataFrame) (l : list string) c,
            c ∈ filter (fun c => has_column df c = false) l ↔ c ∈ l ∧ c ∉ columns df).
  { intros df l c. rewrite list_elem_of_filter. unfold has_column.
    rewrite bool_decide_eq_false. tauto. }
  destruct (filter _ (m.*1)) as [|c1 l1] eqn:H1.
  - assert (Hpos : ∀ c, c ∈ m.*1 → c ∈ columns position_df).
    { intros c Hc. destruct (decide (c ∈ columns position_df)) as [|Hn]; [done|].
      exfalso. apply (elem_of_nil c). rewrite <- H1. by apply Hmiss. }
    destruct (filter _ (m.*2)) as [|c2 l2] eqn:H2.
    + intros pc ic Hin. split.
      * apply Hpos. apply list_elem_of_fmap. by exists (pc, ic).
      * destruct (decide (ic ∈ columns interview_df)) as [|Hn]; [done|].
        exfalso. apply (elem_of_nil ic). rewrite <- H2. apply Hmiss.
        split; [|done]. apply list_elem_of_fmap. by exists (pc, ic).
    + right. exists (c2 :: l2). split_and!; try done.
      intros c. rewrite <- H2. apply Hmiss.
  - left. exists (c1 :: l1). split_and!; try done.
    intros c. rewrite <- H1. apply Hmiss.
Qed.

Lemma validate_columns_exist_ok (m : mapping) (position_df interview_df : DataFrame) u :
  Configurable.validate_columns_exist m position_df interview_df = Return u →
  ∀ pos_col int_col, (pos_col, int_col) ∈ m → has_column position_df pos_col = true.
Proof.
  intros H pc ic Hin.
  unfold Configurable.validate_columns_exist in H.
  destruct (filter _ (m.*1)) as [|c1 l1] eqn:H1; [|done].
  destruct (has_column position_df pc) eqn:Hc; [done|]. exfalso.
  apply (elem_of_nil pc). rewrite <- H1. apply list_elem_of_filter.
  split; [done|]. apply list_elem_of_fmap. by exists (pc, ic).
Qed.

Lemma find_matches_shape (m : mapping) (pos_row : row) (df : DataFrame) r :
  Configurable.find_matches_for_position m pos_row df = Return r →
  Configurable.position_row r = pos_row ∧
  ((Configurable.matched r = true ∧ Configurable.interview_rows r ≠ [] ∧
    Configurable.match_score r = 1%float ∧
    ∃ d, Configurable.details r = Configurable.ExactDetails d) ∨
   (Configurable.matched r = false ∧ Configurable.interview_rows r = [] ∧
    Configurable.match_score r = 0%float ∧
    (Configurable.details r = Configurable.NoConditions ∨
     (∃ n cs, Configurable.details r = Configurable.NoMatch n cs) ∨
     ∃ e, Configurable.details r = Configurable.ErrorDetails e))).
Proof.
  unfold Configurable.find_matches_for_position.
  destruct (Configurable.conditions m pos_row) as [cs|]; simpl; [|done].
  destruct cs as [|c0 cs].
  { intros [= <-]. simpl. split; [done|]. right. split_and!; try done. by left. }
  destruct (Configurable.apply_conditions _ _ _ _) as [mask d].
  destruct (Configurable.select df mask) as [[|x xs]|e]; intros [= <-]; simpl.
  - split; [done|]. right. split_and!; try done. right. left. by eexists _, _.
  - split; [done|]. left. split_and!; try done. by eexists.
  - split; [done|]. right. split_and!; try done. right. right. by eexists.
Qed.

(** X12. A result of the configurable matcher carries its position row; it is
    matched exactly when it has candidate rows, then with score 1.0 and
    the per-condition details, otherwise with score 0.0 and one of the
    three failure details: no conditions, no match, or the error the
    filtering raised *)
Theorem configurable_result_is_consistent (m : mapping) (pos_row : row)
    (df : DataFrame) r :
  Configurable.find_matches_for_position m pos_row df = Return r →
  Configurable.position_row r = pos_row ∧
  ((Configurable.matched r = true ∧ Configurable.interview_rows r ≠ [] ∧
    Configurable.match_score r = 1%float ∧
    ∃ d, Configurable.details r = Configurable.ExactDetails d) ∨
   (Configurable.matched r = false ∧ Configurable.interview_rows r = [] ∧
    Configurable.match_score r = 0%float ∧
    (Configurable.details r = Configurable.NoConditions ∨
     (∃ n cs, Configurable.details r = Configurable.NoMatch n cs) ∨
     ∃ e, Configurable.details r = Configurable.ErrorDetails e))).
Proof. apply find_matches_shape. Qed.

Lemma configurable_result_is_consistent_witness :
  ∃ r, Configurable.find_matches_for_position unit_code
         {[ "unit" := Str "A"; "code" := Str "x" ]} one_unit = Return r ∧
  Configurable.position_row r = {[ "unit" := Str "A"; "code" := Str "x" ]} ∧
  ((Configurable.matched r = true ∧ Configurable.interview_rows r ≠ [] ∧
    Configurable.match_score r = 1%float ∧
    ∃ d, Configurable.details r = Configurable.ExactDetails d) ∨
   (Configurable.matched r = false ∧ Configurable.interview_rows r = [] ∧
    Configurable.match_score r = 0%float ∧
    (Configurable.details r = Configurable.NoConditions ∨
     (∃ n cs, Configurable.details r = Configurable.NoMatch n cs) ∨
     ∃ e, Configurable.details r = Configurable.ErrorDetails e))).
Proof.
  eexists. split; [vm_compute; reflexivity|].
  eapply (configurable_result_is_consistent unit_code
            {[ "unit" := Str "A"; "code" := Str "x" ]} one_unit).
  vm_compute. reflexivity.
Defined.

(** the details of a match are filed under 'exact_' and the column name *)
Example details_of_a_match :
  ∃ r d, Configurable.find_matches_for_position unit_code
           {[ "unit" := Str "A"; "code" := Str "x" ]} one_unit = Return r ∧
         Configurable.details r = Configurable.ExactDetails d ∧
         d !! "exact_dept" = Some (Configurable.mkDetail "A" 1 1) ∧
         d !! "exact_name" = Some (Configurable.mkDetail "x" 1 1).
Proof.
  eexists _, _. split; [vm_compute; reflexivity|]. split; [reflexivity|].
  split; vm_compute; reflexivity.
Qed.

(** the error detail: the table kept the labels 0 and 2 and has no
    column of the one condition, so the mask keeps the labels 0 and 1
    and cannot be aligned with the rows *)
Example error_detail_on_gapped_labels :
  Configurable.find_matches_for_position unit_to_nowhere {[ "unit" := Str "Z" ]}
    (mkFrame ["dept"] [0; 2] [ {[ "dept" := Str "B" ]}; {[ "dept" := Str "A" ]} ])
  = Return (Configurable.mkResult {[ "unit" := Str "Z" ]} [] 0
              (Configurable.ErrorDetails IndexingError) false).
Proof. vm_compute. reflexivity. Qed.

Lemma row_passes_reads df cs j (x : row) :
  rows df !! j = Some x →
  row_passes df cs x = true ↔
  Forall (fun '(int_col, pv) => has_column df int_col = true → reads df int_col j pv) cs.
Proof.
  intros Hx. unfold row_passes. induction cs as [|[ic pv] cs IH].
  - simpl. by rewrite Forall_nil.
  - cbn [forallb]. rewrite andb_true_iff, IH, Forall_cons.
    assert (Hhead : negb (has_column df ic) || String.eqb (py_str (cell_at x ic)) pv = true
                    ↔ (has_column df ic = true → reads df ic j pv)).
    { unfold reads. destruct (has_column df ic); simpl.
      - rewrite String.eqb_eq. split.
        + intros H _. by exists x.
        + intros H. destruct (H eq_refl) as (x' & Hx' & Hpv). by simplify_eq.
      - split; [by intros _ ?|done]. }
    by rewrite Hhead.
Qed.

Lemma select_rows_from (f : row → row) (mask : gmap nat bool) (Q : row → bool)
    (l : list row) (i : nat) :
  (∀ j x, l !! j = Some x → (mask !! (i + j) = Some true ↔ Q x = true)) →
  omap (fun '(lbl, r) => if default false (mask !! lbl) then Some r else None)
       (zip (seq i (length l)) (f <$> l))
  = f <$> filter (fun x => Q x = true) l.
Proof.
  revert i. induction l as [|x l IH]; intros i H; [done|].
  cbn [length seq]. rewrite fmap_cons. cbn [zip_with omap list_omap].
  assert (Hrest : ∀ j y, l !! j = Some y → (mask !! (S i + j) = Some true ↔ Q y = true)).
  { intros j y Hy. rewrite <- (H (S j) y Hy). by replace (i + S j) with (S i + j) by lia. }
  pose proof (H 0 x eq_refl) as Hx. rewrite Nat.add_0_r in Hx.
  destruct (Q x) eqn:HQ.
  - destruct Hx as [_ Hx]. rewrite (Hx eq_refl). simpl.
    rewrite filter_cons_True by done. rewrite fmap_cons. f_equal. by apply IH.
  - rewrite filter_cons_False by congruence.
    destruct (mask !! i) as [[]|] eqn:Hi; simpl.
    + destruct Hx as [Hx _]. by specialize (Hx eq_refl).
    + by apply IH.
    + by apply IH.
Qed.

(** on the default labels the rows the filter returns are, in table
    order, those that pass every condition *)
Lemma find_matches_rows (m : mapping) (pos_row : row) (df : DataFrame) cs r :
  default_index df →
  Configurable.conditions m pos_row = Return cs → cs ≠ [] →
  Configurable.find_matches_for_position m pos_row df = Return r →
  Configurable.interview_rows r
    = series_of df <$> filter (fun c => row_passes df cs c = true) (rows df).
Proof.
  intros Hdf Hcs Hne. unfold Configurable.find_matches_for_position. rewrite Hcs. simpl.
  destruct cs as [|c0 cs]; [done|].
  destruct (Configurable.apply_conditions df (c0 :: cs)
              (Configurable.all_true (length (rows df))) ∅) as [mask d] eqn:Happ.
  destruct (apply_conditions_default df (c0 :: cs)
              (Configurable.all_true (length (rows df))) ∅ Hdf) as [Hdom Hmask].
  { intros j. rewrite all_true_lookup. case_decide; split; try done; try lia. }
  rewrite Happ in Hdom, Hmask. simpl in Hdom, Hmask.
  assert (Hsel : Configurable.select df mask
                 = Return (series_of df <$>
                             filter (fun c => row_passes df (c0 :: cs) c = true) (rows df))).
  { unfold Configurable.select. rewrite Hdf.
    assert (Hall : forallb (fun l => bool_decide (is_Some (mask !! l)))
                           (seq 0 (length (rows df))) = true).
    { apply forallb_forall. intros l Hl%list_elem_of_In%elem_of_seq.
      apply bool_decide_eq_true, Hdom. lia. }
    rewrite Hall. f_equal. unfold records.
    apply (select_rows_from (series_of df) mask (row_passes df (c0 :: cs)) (rows df) 0).
    intros j x Hx. change (0 + j) with j.
    rewrite Hmask, all_true_lookup, (row_passes_reads df _ j x Hx).
    apply lookup_lt_Some in Hx as Hj. rewrite decide_True by done. tauto. }
  rewrite Hsel.
  destruct (series_of df <$> filter _ (rows df)) as [|x xs] eqn:Hrows;
    intros [= <-]; simpl; done.
Qed.

(** X13. On a candidate table with the default row labels, the candidate
    rows of the configurable matcher are, in the order of the table,
    exactly the rows whose text equals the position text under every
    active condition whose column the table has; conditions on columns
    the table lacks do not filter *)
Theorem configurable_rows_are_the_filter (m : mapping) (pos_row : row)
    (df : DataFrame) cs r :
  default_index df →
  Configurable.conditions m pos_row = Return cs → cs ≠ [] →
  Configurable.find_matches_for_position m pos_row df = Return r →
  Configurable.interview_rows r
    = series_of df <$> filter (fun c => row_passes df cs c = true) (rows df).
Proof. apply find_matches_rows. Qed.

Lemma configurable_rows_are_the_filter_witness :
  ∃ r, Configurable.find_matches_for_position unit_code
         {[ "unit" := Str "A"; "code" := NaN ]} other_units = Return r ∧
  Configurable.interview_rows r
    = series_of other_units <$>
        filter (fun c => row_passes other_units [("dept", "A")] c = true) (rows other_units).
Proof.
  eexists. split; [vm_compute; reflexivity|].
  eapply (configurable_rows_are_the_filter unit_code
            {[ "unit" := Str "A"; "code" := NaN ]} other_units [("dept", "A")]).
  - reflexivity.
  - vm_compute. reflexivity.
  - discriminate.
  - vm_compute. reflexivity.
Defined.

Lemma find_matches_returns (m : mapping) (pos_row : row) (df : DataFrame) cs :
  Configurable.conditions m pos_row = Return cs →
  ∃ r, Configurable.find_matches_for_position m pos_row df = Return r.
Proof.
  intros Hcs. unfold Configurable.find_matches_for_position. rewrite Hcs. simpl.
  destruct cs; [by eexists|].
  destruct (Configurable.apply_conditions _ _ _ _) as [mask d].
  destruct (Configurable.select df mask) as [[|x xs]|e]; by eexists.
Qed.

(** X14. Called on a candidate table with the default row labels that lacks
    the column of every active condition, [_find_matches_for_position]
    filters nothing: a table that has rows is returned whole, as a match *)
Theorem conditions_on_absent_columns_match_all (m : mapping) (pos_row : row)
    (df : DataFrame) cs :
  default_index df →
  Configurable.conditions m pos_row = Return cs → cs ≠ [] →
  (∀ int_col pv, (int_col, pv) ∈ cs → int_col ∉ columns df) →
  rows df ≠ [] →
  ∃ r, Configurable.find_matches_for_position m pos_row df = Return r ∧
       Configurable.matched r = true ∧
       Configurable.interview_rows r = records df.
Proof.
  intros Hdf Hcs Hne Habsent Hrows.
  assert (Hpass : ∀ c, row_passes df cs c = true).
  { intros c. unfold row_passes. apply forallb_forall.
    intros [ic pv] Hin%list_elem_of_In. apply Habsent in Hin.
    unfold has_column. by rewrite bool_decide_eq_false_2. }
  assert (Hfilter : filter (fun c => row_passes df cs c = true) (rows df) = rows df).
  { clear -Hpass. generalize (rows df). intros l.
    induction l as [|x l IH]; [done|].
    rewrite filter_cons_True by apply Hpass. by rewrite IH. }
  destruct (find_matches_returns m pos_row df cs Hcs) as [r Hr].
  pose proof (find_matches_rows m pos_row df cs r Hdf Hcs Hne Hr) as Hrows_r.
  rewrite Hfilter in Hrows_r. fold (records df) in Hrows_r.
  exists r. split; [done|]. split; [|done].
  apply find_matches_shape in Hr as [_ [(? & _)|(_ & Hnil & _)]]; [done|].
  rewrite Hrows_r in Hnil. unfold records in Hnil.
  destruct (rows df); done.
Qed.

Lemma conditions_on_absent_columns_match_all_witness :
  ∃ r, Configurable.find_matches_for_position unit_to_nowhere
         {[ "unit" := Str "Z" ]} other_units = Return r ∧
       Configurable.matched r = true ∧
       Configurable.interview_rows r = records other_units.
Proof.
  apply (conditions_on_absent_columns_match_all unit_to_nowhere
           {[ "unit" := Str "Z" ]} other_units [("office", "Z")]).
  - reflexivity.
  - vm_compute. reflexivity.
  - discriminate.
  - intros ic pv [[= -> ->]|Hin%elem_of_nil]%elem_of_cons; [|done].
    simpl. intros [H|[H|H%elem_of_nil]%elem_of_cons]%elem_of_cons;
      [discriminate H|discriminate H|done].
  - discriminate.
Defined.

Lemma conditions_returns (m : mapping) (pos_row : row) :
  (∀ pos_col int_col, (pos_col, int_col) ∈ m → is_Some (pos_row !! pos_col)) →
  ∃ cs, Configurable.conditions m pos_row = Return cs.
Proof.
  induction m as [|[pc ic] m IH]; intros H; simpl; [by eexists|].
  destruct (H pc ic) as [v ->]; [apply elem_of_cons; by left|].
  destruct IH as [cs ->].
  { intros pc' ic' Hin. apply (H pc' ic'). apply elem_of_cons. by right. }
  simpl. by eexists.
Qed.

Lemma match_loop_returns (m : mapping) (df : DataFrame) (ps : list row) acc :
  (∀ p, p ∈ ps → ∃ r, Configurable.find_matches_for_position m p df = Return r) →
  ∃ rs, Configurable.match_loop m df ps acc = (acc ++ rs, Return tt) ∧
        Configurable.position_row <$> rs = ps.
Proof.
  revert acc. induction ps as [|p ps IH]; intros acc H; simpl.
  - exists []. by rewrite app_nil_r.
  - destruct (H p) as [r Hr]; [apply elem_of_cons; by left|]. rewrite Hr.
    destruct (IH (acc ++ [r])) as (rs & -> & Hrs).
    { intros q Hq. apply H. apply elem_of_cons. by right. }
    exists (r :: rs). rewrite <- app_assoc. split; [done|].
    rewrite fmap_cons, Hrs. by apply find_matches_shape in Hr as [-> _].
Qed.

(** X11. [match_data] raises only for missing columns, and then leaves the
    matcher with the results it had; otherwise it returns one result per
    position row, in row order, and these replace the stored results: a
    position without candidates is a result, never an exception *)
Theorem match_data_raises_only_for_columns (self : Configurable.matcher)
    (position_df interview_df : DataFrame) :
  match Configurable.validate_columns_exist (Configurable.column_mappings self)
          position_df interview_df with
  | Return _ =>
      ∃ results,
        Configurable.match_data self position_df interview_df
          = (Configurable.mkMatcher (Configurable.column_mappings self)
               (Configurable.fuzzy_threshold self) results,
             Return results) ∧
        Configurable.position_row <$> results = records position_df
  | Raise e =>
      Configurable.match_data self position_df interview_df = (self, Raise e)
  end.
Proof.
  unfold Configurable.match_data.
  destruct (Configurable.validate_columns_exist _ _ _) as [u|e] eqn:Hv.
  - destruct (match_loop_returns (Configurable.column_mappings self) interview_df
                (records position_df) []) as (rs & Hloop & Hrs).
    { intros p Hp. unfold records in Hp. apply list_elem_of_fmap in Hp as (raw & -> & _).
      destruct (conditions_returns (Configurable.column_mappings self)
                  (series_of position_df raw)) as [cs Hcs].
      - intros pc ic Hin. rewrite series_of_lookup.
        by rewrite (validate_columns_exist_ok _ _ _ _ Hv pc ic Hin).
      - by apply (find_matches_returns _ _ _ cs). }
    rewrite Hloop. simpl. by exists rs.
  - unfold Configurable.validate_columns_exist in Hv.
    destruct (filter _ _) in Hv; [|by injection Hv as <-].
    destruct (filter _ _) in Hv; [done|by injection Hv as <-].
Qed.

Lemma init_accepts_good_mapping_witness :
  Configurable.init unit_code 0.8 = (Configurable.mkMatcher unit_code 0.8 [], Return tt).
Proof.
  apply (init_accepts_good_mapping unit_code 0.8%float); [discriminate|].
  intros pc ic [[= -> ->]|[[= -> ->]|Hin%elem_of_nil]%elem_of_cons]%elem_of_cons;
    [split; discriminate|split; discriminate|done].
Defined.

Lemma no_match_has_conditions_witness :
  0 < 1 ∧ 1 = length [("dept", "Z")] ∧
  Configurable.conditions unit_code {[ "unit" := Str "Z"; "code" := NaN ]}
    = Return [("dept", "Z")].
Proof.
  eapply (no_match_has_conditions unit_code {[ "unit" := Str "Z"; "code" := NaN ]}
            one_unit _ 1 [("dept", "Z")]).
  - vm_compute. reflexivity.
  - reflexivity.
Defined.

Lemma fast_skips_blank_witness :
  Fast.match_single_position_fast elements (Fast.build_indices unit_code one_unit ∅)
    unit_code {[ "unit" := Str "   "; "code" := NaN ]} one_unit
  = Return (Fast.mkFastResult {[ "unit" := Str "   "; "code" := NaN ]} [] 0 false).
Proof.
  apply (fast_skips_blank elements (Fast.build_indices unit_code one_unit ∅) unit_code
           {[ "unit" := Str "   "; "code" := NaN ]} one_unit).
  intros pc ic [[= -> ->]|[[= -> ->]|Hin%elem_of_nil]%elem_of_cons]%elem_of_cons;
    [reflexivity|reflexivity|done].
Defined.

(** ** The score of two column values *)

Section ScoreFacts.

Import ColumnScore.

Variable unicode_isdigit : string -> bool.
Variable unicode_lower : string -> string.
Variable ratio : string -> string -> float.

Lemma digit_plain (a : ascii) :
  is_digit a = true →
  PyStr.lower_ascii a = a ∧ PyStr.is_space (String a "") = false ∧
  PyStr.is_continuation a = false ∧ Nat.ltb (nat_of_ascii a) 128 = true.
Proof.
  destruct a as [[] [] [] [] [] [] [] []]; vm_compute; intros H; try discriminate H;
    repeat split; reflexivity.
Qed.

Lemma chars_cons (a : ascii) (r : string) :
  PyStr.starts_inside r = false → PyStr.chars (String a r) = String a "" :: PyStr.chars r.
Proof. intros H. simpl. rewrite H. by destruct (PyStr.chars r). Qed.

(** a text of ASCII digits is left alone by [lower] and by the removal
    of whitespace, and [isdigit] holds of it when it is not empty *)
Lemma digits_plain (s : string) :
  all_digits s = true →
  PyStr.is_ascii s = true ∧ PyStr.lower unicode_lower s = s ∧ PyStr.remove_spaces s = s.
Proof.
  intros Hs.
  assert (Hascii : PyStr.is_ascii s = true ∧ PyStr.lower_ascii_text s = s).
  { induction s as [|a s IH]; simpl; [done|]. simpl in Hs.
    apply andb_true_iff in Hs as [Ha Hs]. destruct (digit_plain a Ha) as (-> & _ & _ & ->).
    destruct (IH Hs) as [-> ->]. done. }
  destruct Hascii as [Ha Hl]. split; [done|]. split.
  { unfold PyStr.lower. by rewrite Ha. }
  unfold PyStr.remove_spaces. induction s as [|a s IH]; [done|]. simpl in Hs.
  apply andb_true_iff in Hs as [Hd Hs].
  simpl in Ha. apply andb_true_iff in Ha as [_ Ha]. injection Hl as _ Hl.
  rewrite chars_cons.
  2:{ destruct s as [|b s]; [done|]. simpl in Hs. apply andb_true_iff in Hs as [Hb _].
      destruct (digit_plain b Hb) as (_ & _ & Hb' & _). exact Hb'. }
  destruct (digit_plain a Hd) as (_ & Hsp & _).
  rewrite filter_cons_True by done. simpl. f_equal. by apply IH.
Qed.

(** X17. Two different texts of ASCII digits score 0.8 when one occurs
    inside the other and 0.0 otherwise, whatever their similarity ratio
    is *)
Theorem different_numbers_score (value1 value2 : string) :
  ascii_number value1 = true → ascii_number value2 = true → value1 ≠ value2 →
  calculate_column_match_score unicode_isdigit unicode_lower ratio value1 value2
    = if PyStr.contains value1 value2 || PyStr.contains value2 value1
      then 0.8%float else 0%float.
Proof.
  intros [Ht1 Hd1]%andb_true_iff [Ht2 Hd2]%andb_true_iff Hne.
  unfold calculate_column_match_score, isdigit.
  destruct (digits_plain value1 Hd1) as (-> & -> & ->).
  destruct (digits_plain value2 Hd2) as (-> & -> & ->).
  rewrite Ht1, Ht2, Hd1, Hd2. simpl.
  apply String.eqb_neq in Hne. rewrite Hne.
  by destruct (PyStr.contains value1 value2 || PyStr.contains value2 value1).
Qed.

(** a blank value on either side scores 0.0, and a value against itself
    scores 1.0 unless it is blank *)
Theorem blank_and_equal_scores (value1 value2 : string) :
  (value1 = "" ∨ value2 = "" →
   calculate_column_match_score unicode_isdigit unicode_lower ratio value1 value2
   = 0%float) ∧
  (value1 ≠ "" →
   calculate_column_match_score unicode_isdigit unicode_lower ratio value1 value1
   = 1%float).
Proof.
  unfold calculate_column_match_score. split.
  - intros [->| ->]; simpl; [done|]. by rewrite orb_true_r.
  - intros Hne. apply truthy_true in Hne. rewrite Hne. simpl.
    by rewrite String.eqb_refl.
Qed.

End ScoreFacts.

Lemma different_numbers_score_witness :
  ColumnScore.calculate_column_match_score no_digits no_case (fixed_ratio 0.5) "12" "123"
    = if PyStr.contains "12" "123" || PyStr.contains "123" "12"
      then 0.8%float else 0%float.
Proof.
  apply (different_numbers_score no_digits no_case (fixed_ratio 0.5) "12" "123");
    [reflexivity|reflexivity|discriminate].
Defined.

(** ** The legacy matcher as a whole *)

Lemma position_set_elem (interview_data : list pydict) (s s' : gset string) n :
  Legacy.position_set interview_data s = Return s' →
  n ∈ s' ↔ n ∈ s ∨ ∃ iv, iv ∈ interview_data ∧ names_position iv n.
Proof.
  revert s. induction interview_data as [|iv rest IH]; intros s H; simpl in H.
  - injection H as <-. split; [by left|]. intros [?|(iv & Hin%elem_of_nil & _)]; done.
  - destruct (default (PStr "") (iv !! "position_name")) as [|t|k|x] eqn:Hiv; try done.
    apply IH in H. rewrite H. clear H IH.
    assert (Hhead : names_position iv n ↔ PyStr.truthy (PyStr.strip t) = true ∧ PyStr.strip t = n).
    { unfold names_position. rewrite Hiv. split.
      - intros (Hn & t' & [= <-] & Ht). split; [|done]. apply truthy_true. congruence.
      - intros [Ht Hn]. apply truthy_true in Ht. split; [congruence|]. by exists t. }
    split.
    + intros [Hn|(iv' & Hin & Hnm)].
      * destruct (PyStr.truthy (PyStr.strip t)) eqn:Ht; [|by left].
        apply elem_of_union in Hn as [Hn%elem_of_singleton|Hn]; [|by left].
        right. exists iv. split; [apply elem_of_cons; by left|]. by apply Hhead.
      * right. exists iv'. split; [apply elem_of_cons; by right|done].
    + intros [Hn|(iv' & [->|Hin]%elem_of_cons & Hnm)].
      * left. destruct (PyStr.truthy (PyStr.strip t)); [|done].
        apply elem_of_union. by right.
      * left. apply Hhead in Hnm as [Ht <-]. rewrite Ht.
        apply elem_of_union. left. by apply elem_of_singleton.
      * right. by exists iv'.
Qed.

(** X18. When [_extract_interview_positions] returns, its list has no
    duplicate, and a name is in it exactly when it is the trimmed,
    non-blank position name of some interview record, whatever the order
    in which the set is listed *)
Theorem extracted_positions_are_the_names (set_order : gset string → list string)
    (interview_data : list pydict) (ips : list string) :
  (∀ s, set_order s ≡ₚ elements s) →
  Legacy.extract_interview_positions set_order interview_data = Return ips →
  NoDup ips ∧
  ∀ n, n ∈ ips ↔ ∃ iv, iv ∈ interview_data ∧ names_position iv n.
Proof.
  intros Hperm. unfold Legacy.extract_interview_positions.
  destruct (Legacy.position_set interview_data ∅) as [s|] eqn:Hs; simpl; [|done].
  intros [= <-]. split.
  - rewrite Hperm. apply NoDup_elements.
  - intros n. rewrite Hperm, elem_of_elements, (position_set_elem _ _ _ n Hs).
    split; [|by right]. intros [?%not_elem_of_empty|?]; done.
Qed.

Lemma extracted_positions_are_the_names_witness :
  NoDup ["Clerk"] ∧
  ∀ n, n ∈ ["Clerk"] ↔ ∃ iv, iv ∈ clerk_candidates ∧ names_position iv n.
Proof.
  apply (extracted_positions_are_the_names elements clerk_candidates ["Clerk"]).
  - done.
  - vm_compute. reflexivity.
Defined.

Section LegacyRun.

Import Legacy.

Variable unicode_lower : string -> string.
Variable clean_position_name : string -> string.
Variable ratio : string -> string -> float.
Variable fuzzy_threshold : float.
Variable set_order : gset string -> list string.

Lemma positions_loop_outcome ips (pd : list strdict) self seen0 self' seen o :
  positions_loop unicode_lower clean_position_name ratio fuzzy_threshold ips pd self seen0
    = (self', seen, o) →
  position_mappings self' = position_mappings self ∧
  match o with
  | Return _ =>
      unmatched_positions self' = unmatched_positions self ++ pd ∧
      ∃ rs, seen = seen0 ++ rs ∧ length rs = length pd ∧
            Forall (fun r => matched r = false) rs
  | Raise e =>
      (e = TypeError ∧ ∃ rs r, seen = seen0 ++ rs ++ [r] ∧ matched r = true ∧
                               Forall (fun r => matched r = false) rs) ∨
      (e = KeyError "position_name" ∧
       ∃ rs, seen = seen0 ++ rs ∧ Forall (fun r => matched r = false) rs)
  end.
Proof.
  revert self seen0. induction pd as [|p pd IH]; intros self seen0 H; simpl in H.
  - injection H as <- <- <-. split; [done|]. rewrite app_nil_r. split; [done|].
    exists []. by rewrite app_nil_r.
  - unfold find_best_match in H.
    destruct (p !! "position_name") as [name|] eqn:Hname.
    + set (r := best_match _ _ _ _ name _ ips) in H.
      destruct (matched r) eqn:Hm.
      * injection H as <- <- <-. split; [done|]. left. split; [done|].
        exists [], r. by split_and!.
      * apply IH in H as [Hmaps Ho]. simpl in Hmaps. split; [done|].
        destruct o as [u|e].
        -- destruct Ho as (Hun & rs & -> & Hlen & Hall). simpl in Hun.
           split; [by rewrite Hun, <- app_assoc|].
           exists (r :: rs). rewrite <- app_assoc. split_and!; try done.
           ++ simpl. by rewrite Hlen.
           ++ by constructor.
        -- destruct Ho as [(-> & rs & r' & -> & Hm' & Hall)|(-> & rs & -> & Hall)].
           ++ left. split; [done|]. exists (r :: rs), r'.
              rewrite <- app_assoc. split_and!; try done. by constructor.
           ++ right. split; [done|]. exists (r :: rs).
              rewrite <- app_assoc. split; [done|]. by constructor.
    + injection H as <- <- <-. split; [done|]. right. split; [done|].
      exists []. by rewrite app_nil_r.
Qed.

(** X19. [match_positions] never hands out a mapping: when it returns, no
    position found a match, all positions are in the unmatched list in
    their order and the match count is zero; a position that does find a
    match ends the run with the TypeError of the PositionMapping
    constructor, wrapped as DataMatchingError *)
Theorem match_positions_returns_no_mapping (self : matcher)
    (position_data : list strdict) (interview_data : list pydict) :
  let '(self', seen, o) :=
    match_positions unicode_lower clean_position_name ratio fuzzy_threshold set_order self
      position_data interview_data in
  match o with
  | Return res =>
      mappings res = [] ∧ rate_matched res = 0 ∧
      result_unmatched_positions res = position_data ∧
      length seen = length position_data ∧
      Forall (fun r => matched r = false) seen
  | Raise e =>
      (∃ r, r ∈ seen ∧ matched r = true) → e = DataMatchingError TypeError
  end.
Proof.
  unfold match_positions.
  destruct (validate_input_data position_data interview_data) as [u|e].
  2:{ intros (r & Hr%elem_of_nil & _). done. }
  destruct (extract_interview_positions set_order interview_data) as [ips|e].
  2:{ intros (r & Hr%elem_of_nil & _). done. }
  destruct (positions_loop _ _ _ _ ips position_data (mkMatcher [] [] []) [])
    as [[self' seen] o] eqn:Hloop.
  apply positions_loop_outcome in Hloop as [Hmaps Ho]. simpl in Hmaps.
  destruct o as [u'|e].
  - destruct Ho as (Hun & rs & -> & Hlen & Hall). simpl in *.
    unfold generate_match_result. simpl. rewrite Hmaps. by split_and!.
  - intros (r & Hr & Hm).
    destruct Ho as [(-> & _)|(-> & rs & -> & Hall)]; [done|].
    exfalso. simpl in Hr. rewrite Forall_forall in Hall.
    apply Hall in Hr. congruence.
Qed.

End LegacyRun.

(** ** Ties in the fuzzy tier *)

Section FuzzyTies.

Import Legacy.

Variable clean_position_name : string -> string.
Variable ratio : string -> string -> float.

Lemma fuzzy_loop_keeps cp ips best r :
  snd best = r → PrimFloat.ltb r r = false →
  (∀ ip, ip ∈ ips → boosted_ratio clean_position_name ratio cp ip = r) →
  fuzzy_loop clean_position_name ratio cp ips best = best.
Proof.
  intros Hbest Hirr. revert best Hbest. induction ips as [|ip ips IH];
    intros best Hbest Hall; simpl; [done|].
  rewrite (Hall ip) by (apply elem_of_cons; by left). rewrite Hbest, Hirr.
  apply IH; [done|]. intros x Hx. apply Hall. apply elem_of_cons. by right.
Qed.

(** X20. Among candidates of one and the same ratio above zero the first in
    the list wins: a later candidate replaces the best one only with a
    strictly greater ratio *)
Theorem fuzzy_tie_goes_to_the_first (name ip : string) (rest : list string) (r : float) :
  PrimFloat.ltb 0 r = true → PrimFloat.ltb r r = false →
  (∀ x, x ∈ ip :: rest →
        boosted_ratio clean_position_name ratio (clean_position_name name) x = r) →
  fuzzy_match clean_position_name ratio name (ip :: rest) = (Some ip, r).
Proof.
  intros Hpos Hirr Hall. unfold fuzzy_match. simpl.
  rewrite (Hall ip) by (apply elem_of_cons; by left). rewrite Hpos.
  apply (fuzzy_loop_keeps _ _ _ r); [done|done|].
  intros x Hx. apply Hall. apply elem_of_cons. by right.
Qed.

End FuzzyTies.

Lemma fuzzy_tie_goes_to_the_first_witness :
  Legacy.fuzzy_match keep_name (fixed_ratio 0.9) "Clerk" ["Senior Clerk"; "Chief Clerk"]
  = (Some "Senior Clerk", 0.9%float).
Proof.
  apply (fuzzy_tie_goes_to_the_first keep_name (fixed_ratio 0.9) "Clerk"
           "Senior Clerk" ["Chief Clerk"] 0.9%float); [reflexivity|reflexivity|].
  intros x [->|[->|Hin%elem_of_nil]%elem_of_cons]%elem_of_cons;
    [reflexivity|reflexivity|done].
Defined.

(** ** The engine *)

Section EngineFacts.

Import Engine.

Variable float_of_str : string -> option float.
Variable float_of_int : Z -> option float.
Variable int_of : pyval -> outcome Z.
Variable str_of_num : pyval -> string.
Variable sorted_desc : list float -> list float.

(** X21. The result of a matched position lists exactly the scores of the
    candidates listed under the matched position name, reordered; its
    candidate count is the number of these scores when there is one, and
    the number of all candidates listed under the position when there is
    none *)
Theorem matched_position_counts (mapping : Legacy.PositionMapping)
    (interview_data : list pydict) r :
  reorders sorted_desc →
  process_matched_position float_of_str float_of_int str_of_num sorted_desc
    mapping interview_data = Return r →
  let scores := omap (valid_score float_of_str float_of_int)
                     (candidates_at mapping interview_data) in
  all_scores r ≡ₚ scores ∧
  candidate_count r =
    match scores with
    | [] => length (candidates_at mapping interview_data)
    | _ => length scores
    end.
Proof.
  intros Hsort. unfold process_matched_position.
  rewrite candidates_at_filter.
  destruct (candidates_at mapping interview_data) as [|c cs].
  { by intros (_ & _ & -> & ->)%new_result_returns. }
  destruct (scores_of float_of_str float_of_int (c :: cs)) as [scores|] eqn:Hs;
    cbn [mbind outcome_bind]; [|done].
  apply scores_of_returns in Hs as [<- _].
  destruct scores as [|x xs].
  - by intros (_ & _ & -> & ->)%new_result_returns.
  - intros (_ & _ & -> & ->)%new_result_returns. split; [apply Hsort|done].
Qed.




Lemma count_status_cons s r results :
  count_status s (r :: results)
  = (if decide (result_status r = s) then 1 else 0) + count_status s results.
Proof.
  unfold count_status. destruct (decide (result_status r = s)) as [H|H].
  - by rewrite filter_cons_True.
  - by rewrite filter_cons_False.
Qed.

(** X23. In the statistics every result is counted under exactly one of the
    four statuses: the four counts add up to the number of positions,
    and no more positions have candidates than there are positions *)
Theorem status_counts_add_up (results : list PositionScoreResult) :
  let s := generate_statistics results in
  normal_positions s + no_interview_positions s + unmatched_positions s
    + error_positions s = total_positions s ∧
  total_positions s = length results ∧
  positions_with_candidates s ≤ total_positions s.
Proof.
  simpl. split; [|split; [done|apply length_filter]].
  induction results as [|r results IH]; [done|].
  rewrite !count_status_cons. simpl.
  destruct (result_status r); repeat case_decide; try done; lia.
Qed.

End EngineFacts.

Lemma insert_desc_perm (x : float) (l : list float) : insert_desc x l ≡ₚ x :: l.
Proof.
  induction l as [|y l IH]; simpl; [done|].
  destruct (PrimFloat.ltb y x); [done|]. rewrite IH. apply Permutation_swap.
Qed.

Lemma sorted_from_perm (scores acc : list float) :
  fold_left (fun acc x => insert_desc x acc) scores acc ≡ₚ acc ++ scores.
Proof.
  revert acc. induction scores as [|x scores IH]; intros acc; simpl.
  - by rewrite app_nil_r.
  - rewrite IH, insert_desc_perm. simpl. apply Permutation_middle.
Qed.

Lemma descending_reorders : reorders descending.
Proof. intros l. unfold descending. apply sorted_from_perm. Qed.

Lemma matched_position_counts_witness :
  ∃ r, Engine.process_matched_position no_float no_int_float no_text descending
         clerk_mapping mixed_candidates = Return r ∧
       let scores := omap (valid_score no_float no_int_float)
                          (candidates_at clerk_mapping mixed_candidates) in
       Engine.all_scores r ≡ₚ scores ∧
       Engine.candidate_count r =
         match scores with
         | [] => length (candidates_at clerk_mapping mixed_candidates)
         | _ => length scores
         end.
Proof.
  eexists. split; [vm_compute; reflexivity|].
  eapply (matched_position_counts no_float no_int_float no_text descending
            clerk_mapping mixed_candidates).
  - apply descending_reorders.
  - vm_compute. reflexivity.
Defined.

Example counts_of_mixed_candidates :
  ∃ r, Engine.process_matched_position no_float no_int_float no_text descending
         clerk_mapping mixed_candidates = Return r ∧
       (Engine.result_status r, Engine.candidate_count r, Engine.all_scores r)
       = (Engine.Normal, 2, [85%float; 60%float]).
Proof. eexists. split; [vm_compute; reflexivity|]. reflexivity. Qed.

(** ** The interview validator *)

Section InterviewFacts.

Import InterviewValidator.

Variable float_of_str : string -> option float.
Variable float_of_int : Z -> option float.

Lemma check_record_step i (interview : Validator.pyobj) st :
  let st' := check_record float_of_str float_of_int i interview st in
  match interview_error float_of_str float_of_int i interview with
  | Some e =>
      l_errors st' = l_errors st ++ [e] ∧
      l_valid_count st' = l_valid_count st ∧
      l_invalid_count st' = l_invalid_count st + 1
  | None =>
      l_errors st' = l_errors st ∧
      l_valid_count st' = l_valid_count st + 1 ∧
      l_invalid_count st' = l_invalid_count st
  end.
Proof.
  destruct interview as [|d]; simpl; [done|].
  destruct (Validator.get_stripped d "name") as [name|]; simpl; [|done].
  destruct (PyStr.truthy name) eqn:Hn; simpl.
  2:{ apply truthy_false in Hn as ->. done. }
  apply truthy_true in Hn.
  destruct name as [|a name]; [done|].
  destruct (Validator.get_stripped d "position_name") as [pos|]; simpl; [|done].
  destruct (PyStr.truthy pos) eqn:Hp; simpl.
  2:{ apply truthy_false in Hp as ->. done. }
  apply truthy_true in Hp. destruct pos as [|b pos]; [done|].
  unfold check_score, check_key.
  destruct (d !! "score") as [[| s | n | x]|]; simpl;
    repeat case_bool_decide; simpl; try done.
  - destruct (float_of_str s) as [y|]; simpl; [|done].
    by destruct (PrimFloat.ltb y 0).
  - destruct (float_of_str s) as [y|]; simpl; [|done].
    by destruct (PrimFloat.ltb y 0).
  - destruct (float_of_int n) as [y|]; simpl; [|done].
    by destruct (PrimFloat.ltb y 0).
  - destruct (float_of_int n) as [y|]; simpl; [|done].
    by destruct (PrimFloat.ltb y 0).
  - by destruct (PrimFloat.ltb x 0).
  - by destruct (PrimFloat.ltb x 0).
Qed.

Lemma check_records_steps i (interview_data : list Validator.pyobj) st :
  let st' := check_records float_of_str float_of_int i interview_data st in
  l_errors st' = l_errors st ++ interview_errors float_of_str float_of_int i interview_data ∧
  l_invalid_count st' = l_invalid_count st
                        + length (interview_errors float_of_str float_of_int i interview_data) ∧
  l_valid_count st' + l_invalid_count st'
    = l_valid_count st + l_invalid_count st + length interview_data.
Proof.
  revert i st. induction interview_data as [|iv rest IH]; intros i st; simpl.
  - rewrite app_nil_r. split_and!; try done; lia.
  - destruct (IH (S i) (check_record float_of_str float_of_int i iv st)) as (He & Hi & Hv).
    pose proof (check_record_step i iv st) as Hstep. simpl in Hstep.
    destruct (interview_error float_of_str float_of_int i iv) as [e|];
      destruct Hstep as (He1 & Hv1 & Hi1); rewrite He, Hi, He1, Hi1.
    + rewrite <- app_assoc. simpl. split_and!; try done; lia.
    + split_and!; try done; lia.
Qed.

(** X24. The errors of the interview validator are those of the records one
    by one, in order, whatever was seen before; their number is the
    invalid count, valid and invalid counts add up to the number of
    records, and the result is valid exactly when there are records and
    none of them is in error *)
Theorem interview_errors_by_record (interview_data : list Validator.pyobj) :
  let r := validate_interview_data_integrity float_of_str float_of_int interview_data in
  (interview_data ≠ [] → errors r = interview_errors float_of_str float_of_int 0 interview_data) ∧
  (interview_data ≠ [] → invalid_count r = length (errors r)) ∧
  valid_count r + invalid_count r = length interview_data ∧
  (is_valid r = true ↔
   interview_data ≠ [] ∧ interview_errors float_of_str float_of_int 0 interview_data = []).
Proof.
  destruct interview_data as [|iv0 rest0] eqn:Hdata.
  { simpl. split_and!; try done. split; [done|]. by intros [? _]. }
  rewrite <- Hdata. assert (Hne : interview_data ≠ []) by (by rewrite Hdata).
  set (st0 := mkLocals [] [] 0 0 empty_details []).
  assert (Hr : validate_interview_data_integrity float_of_str float_of_int interview_data =
               let st := check_records float_of_str float_of_int 0 interview_data st0 in
               mkValidation
                 (bool_decide (length (l_errors st) = 0) && bool_decide (0 < l_valid_count st))
                 (l_errors st) (l_warnings st) (l_valid_count st)
                 (l_invalid_count st) (l_details st)).
  { unfold validate_interview_data_integrity. by destruct interview_data. }
  rewrite Hr. clear Hr. simpl.
  destruct (check_records_steps 0 interview_data st0) as (He & Hi & Hv). simpl in *.
  rewrite He, Hi. split_and!; try done.
  - rewrite Hi in Hv. lia.
  - rewrite andb_true_iff, !bool_decide_eq_true, length_zero_iff_nil.
    split.
    + intros [Hnil _]. done.
    + intros [_ Hnil]. split; [done|]. rewrite Hi, Hnil in Hv. simpl in Hv.
      assert (0 < length interview_data); [|lia].
      rewrite Hdata. simpl. lia.
Qed.

End InterviewFacts.

(** one valid record, a repeated candidate with a negative score, a
    blank position and something that is no dict *)
Example sample_interviews_verdict :
  let r := InterviewValidator.validate_interview_data_integrity no_float no_int_float
             sample_interviews in
  (InterviewValidator.is_valid r, InterviewValidator.valid_count r,
   InterviewValidator.invalid_count r, InterviewValidator.errors r,
   InterviewValidator.warnings r)
  = (false, 1, 3,
     [InterviewValidator.NegativeScore 2 (-1)%float;
      InterviewValidator.MissingPosition 3;
      InterviewValidator.NotDictFormat 4],
     [InterviewValidator.DuplicateCandidate "A" "Clerk"]).
Proof. vm_compute. reflexivity. Qed.

(** ** The consistency of the two name sets *)

(** X25. When [validate_data_consistency] returns, its sets are the position
    names of the two inputs, their intersection and their two
    differences; the valid count is the size of the intersection, the
    invalid count the sizes of the two differences together, both counts
    together the number of different names, and the result is valid
    exactly when the two inputs share a name *)
Theorem consistency_counts (position_data interview_data : list pydict) r :
  Consistency.validate_data_consistency position_data interview_data = Return r →
  let d := Consistency.result_details r in
  (∀ n, n ∈ Consistency.position_names d ↔
        ∃ p, p ∈ position_data ∧ names_position p n) ∧
  (∀ n, n ∈ Consistency.interview_positions d ↔
        ∃ iv, iv ∈ interview_data ∧ names_position iv n) ∧
  Consistency.common_positions d
    = Consistency.position_names d ∩ Consistency.interview_positions d ∧
  Consistency.valid_count r = size (Consistency.common_positions d) ∧
  Consistency.invalid_count r
    = size (Consistency.position_names d ∖ Consistency.interview_positions d)
      + size (Consistency.interview_positions d ∖ Consistency.position_names d) ∧
  Consistency.valid_count r + Consistency.invalid_count r
    = size (Consistency.position_names d ∪ Consistency.interview_positions d) ∧
  (Consistency.is_valid r = true ↔
   ∃ n, n ∈ Consistency.position_names d ∧ n ∈ Consistency.interview_positions d).
Proof.
  unfold Consistency.validate_data_consistency.
  destruct (Legacy.position_set position_data ∅) as [P|] eqn:HP; simpl; [|done].
  destruct (Legacy.position_set interview_data ∅) as [Q|] eqn:HQ; simpl; [|done].
  assert (Hsize : size (P ∩ Q) + (size (P ∖ Q) + size (Q ∖ P)) = size (P ∪ Q)).
  { pose proof (size_union_alt P Q) as Hu.
    pose proof (size_union (P ∩ Q) (P ∖ Q)) as Hd.
    assert (Hsplit : (P ∩ Q) ∪ (P ∖ Q) = P).
    { apply leibniz_equiv. intros x.
      rewrite elem_of_union, elem_of_intersection, elem_of_difference.
      destruct (decide (x ∈ Q)); tauto. }
    rewrite Hsplit in Hd. rewrite Hu, Hd; [lia|].
    intros x [_ Hq]%elem_of_intersection [_ Hnq]%elem_of_difference. done. }
  assert (HPn : ∀ n, n ∈ P ↔ ∃ p, p ∈ position_data ∧ names_position p n).
  { intros n. rewrite (position_set_elem _ _ _ n HP).
    split; [intros [?%not_elem_of_empty|?]; done|by right]. }
  assert (HQn : ∀ n, n ∈ Q ↔ ∃ iv, iv ∈ interview_data ∧ names_position iv n).
  { intros n. rewrite (position_set_elem _ _ _ n HQ).
    split; [intros [?%not_elem_of_empty|?]; done|by right]. }
  assert (Hcommon : size (P ∩ Q) ≠ 0 ↔ ∃ n, n ∈ P ∧ n ∈ Q).
  { split.
    - intros Hs. destruct (size_pos_elem_of (P ∩ Q)) as [n Hn]; [lia|].
      exists n. by apply elem_of_intersection.
    - intros (n & H1 & H2) Hs. apply size_empty_iff in Hs.
      apply (not_elem_of_empty (C:=gset string) n). rewrite <- Hs.
      by apply elem_of_intersection. }
  case_bool_decide as Hc; case_bool_decide as H1; case_bool_decide as H2;
    intros [= <-]; simpl;
    (split; [exact HPn|]); (split; [exact HQn|]); (split; [done|]);
    rewrite ?H1, ?H2, ?size_empty in *;
    (split; [by rewrite ?Hc|]); (split; [done|]); (split; [lia|]);
    (split; [try done; intros _; apply Hcommon; lia
            |try (intros HH; apply Hcommon in HH; lia); done]).
Qed.

Lemma consistency_counts_witness :
  ∃ r, Consistency.validate_data_consistency sample_position_dicts clerk_candidates
       = Return r ∧
  let d := Consistency.result_details r in
  (∀ n, n ∈ Consistency.position_names d ↔
        ∃ p, p ∈ sample_position_dicts ∧ names_position p n) ∧
  (∀ n, n ∈ Consistency.interview_positions d ↔
        ∃ iv, iv ∈ clerk_candidates ∧ names_position iv n) ∧
  Consistency.common_positions d
    = Consistency.position_names d ∩ Consistency.interview_positions d ∧
  Consistency.valid_count r = size (Consistency.common_positions d) ∧
  Consistency.invalid_count r
    = size (Consistency.position_names d ∖ Consistency.interview_positions d)
      + size (Consistency.interview_positions d ∖ Consistency.position_names d) ∧
  Consistency.valid_count r + Consistency.invalid_count r
    = size (Consistency.position_names d ∪ Consistency.interview_positions d) ∧
  (Consistency.is_valid r = true ↔
   ∃ n, n ∈ Consistency.position_names d ∧ n ∈ Consistency.interview_positions d).
Proof.
  eexists. split; [vm_compute; reflexivity|].
  eapply (consistency_counts sample_position_dicts clerk_candidates).
  vm_compute. reflexivity.
Defined.

(** a position name that is not a str makes the whole check raise *)
Example consistency_raises_on_a_number :
  Consistency.validate_data_consistency [ {[ "position_name" := PInt 7 ]} ] clerk_candidates
  = Raise (ValidationError "consistency").
Proof. vm_compute. reflexivity. Qed.

(** ** Text outside ASCII *)

(** the ideographic space is trimmed like a blank: the three cells file
    their rows under one key, and a cell of this space alone is not
    indexed *)
Example index_of_wide_spaces :
  Fast.index_column [Str ("A" +:+ wide_space); Str " A"; Str "A"; Str wide_space]
  = {[ "A" := [0; 1; 2] ]}.
Proof. vm_compute. reflexivity. Qed.

(** a position value of this space alone is skipped by the fast matcher
    and is a condition for the configurable matcher *)
Example wide_space_position :
  Fast.skipped (Fast.pos_value {[ "unit" := Str wide_space ]} "unit") = true ∧
  Configurable.conditions [("unit", "dept")] {[ "unit" := Str wide_space ]}
    = Return [("dept", wide_space)].
Proof. split; vm_compute; reflexivity. Qed.

(** a name of this space alone is a missing name, and a name followed by
    it is the name *)
Example wide_space_names :
  let r := Validator.validate_position_data_integrity
             [ Validator.Dict {[ "position_name" := PStr wide_space ]};
               Validator.Dict {[ "position_name" := PStr ("Clerk" +:+ wide_space) ]};
               Validator.Dict {[ "position_name" := PStr "Clerk" ]} ] in
  (Validator.is_valid r, Validator.errors r, Validator.valid_count r,
   Validator.invalid_count r,
   Validator.duplicate_positions (Validator.result_details r))
  = (false, [Validator.MissingName 1], 2, 1, ["Clerk"]).
Proof. vm_compute. reflexivity. Qed.

Example wide_space_interview_name :
  InterviewValidator.errors
    (InterviewValidator.validate_interview_data_integrity no_float no_int_float
       [ Validator.Dict {[ "name" := PStr wide_space; "position_name" := PStr "Clerk";
                           "score" := PFloat 85 ]} ])
  = [InterviewValidator.MissingName 1].
Proof. vm_compute. reflexivity. Qed.

Example wide_space_position_names :
  Legacy.extract_interview_positions elements
    [ {[ "position_name" := PStr ("Clerk" +:+ wide_space) ]};
      {[ "position_name" := PStr "Clerk" ]};
      {[ "position_name" := PStr wide_space ]} ]
  = Return ["Clerk"].
Proof. vm_compute. reflexivity. Qed.

Example wide_space_consistency :
  ∃ r, Consistency.validate_data_consistency
         [ {[ "position_name" := PStr ("Clerk" +:+ wide_space) ]} ]
         [ {[ "position_name" := PStr "Clerk" ]} ] = Return r ∧
       Consistency.is_valid r = true ∧ Consistency.valid_count r = 1 ∧
       Consistency.invalid_count r = 0.
Proof. eexists. split; [vm_compute; reflexivity|]. repeat split. Qed.

(** the exact tier across the ideographic space, and across a case
    mapping outside ASCII that lowers the name as Python does *)
Example exact_tier_outside_ascii :
  Legacy.exact_match no_case ("软件" +:+ wide_space +:+ "工程") ["软件工程"]
    = Some "软件工程" ∧
  ∀ unicode_lower : string → string,
    unicode_lower "ÉCOLE" = "école" → unicode_lower "école" = "école" →
    Legacy.exact_match unicode_lower "ÉCOLE" ["école"] = Some "école".
Proof.
  split; [vm_compute; reflexivity|].
  intros lower H1 H2. unfold Legacy.exact_match.
  rewrite bool_decide_eq_false_2.
  2:{ intros [H|H%elem_of_nil]%elem_of_cons; [discriminate H|done]. }
  assert (Hl1 : PyStr.lower lower "ÉCOLE" = "école").
  { unfold PyStr.lower. replace (PyStr.is_ascii "ÉCOLE") with false by (vm_compute; reflexivity).
    exact H1. }
  assert (Hl2 : PyStr.lower lower "école" = "école").
  { unfold PyStr.lower. replace (PyStr.is_ascii "école") with false by (vm_compute; reflexivity).
    exact H2. }
  cbn [find]. rewrite Hl1, Hl2. by rewrite String.eqb_refl.
Qed.
